(** * codelive: the collaboration server (server/index.js)

    A shallow embedding of the room object, the socket handlers and the
    HTTP routes of [server/index.js], and the properties of the
    specification stated over it; then the operations of the client
    ([src/utils/operations.js]): their construction, validation,
    application, transformation and composition.

    Conventions of the embedding.
    - A JavaScript [Map] is a [gmap]; enumeration order (insertion order
      in the engine, key order here) is used by no statement below.
    - An object that arrives or leaves as JSON is a [jsval]; the objects
      the server builds with fixed fields are records.
    - A method or handler that mutates an object returns the object as
      it leaves it; a method that may [throw] returns a [completion]
      next to it, and a handler the exception that escaped it.
    - [new Date()] and [Date.now()] read a clock; every handler or method
      call receives the reading as its argument [now] (milliseconds).
      [Math.random()] is an argument of the same kind.
    - [console.log] and friends have no effect on the state and are left
      out.
    - A number is a rational or one of the three special values; the
      comparisons and the integer truncation of [slice] are exact, and
      [Js.add] is the exact sum (it agrees with the engine on
      integer-valued operands below 2^53, which is all the theorems use).
    - A string is a sequence of units ([Stdlib]'s [string]); [toUpperCase]
      acts on the letters a-z. Concatenation throws above the engine's
      maximum string length, a parameter [maxStringLength]. *)

From Stdlib Require Import ZArith QArith Qround Lia.
From stdpp Require Import gmap strings list pretty.

Local Open Scope Z_scope.
Local Set Warnings "-register-all".

(** ** JavaScript values *)

Inductive js_number :=
| NFin (q : Q)
| NInf (negative : bool)
| NNaN.

Inductive jsval :=
| VUndefined
| VNull
| VBool (b : bool)
| VNum (n : js_number)
| VStr (s : string)
| VDate (t : Z)
| VArr (l : list jsval)
| VObj (o : gmap string jsval).

Inductive js_error :=
| Error (message : string)
| TypeError (message : string)
| RangeError (message : string).

Definition error_message (e : js_error) : string :=
  match e with
  | Error m | TypeError m | RangeError m => m
  end.

(** Outcome of a call that may [throw]. *)
Inductive completion (A : Type) :=
| Return (a : A)
| Throw (e : js_error).
Arguments Return {A} a.
Arguments Throw {A} e.

#[global] Instance completion_ret : MRet completion := fun A a => Return a.
#[global] Instance completion_bind : MBind completion := fun A B k c =>
  match c with
  | Return a => k a
  | Throw e => Throw e
  end.

Module Js.

Definition of_Z (z : Z) : js_number := NFin (inject_Z z).
Definition of_nat (n : nat) : js_number := of_Z (Z.of_nat n).

(** [a < b] *)
Definition lt (a b : js_number) : bool :=
  match a, b with
  | NNaN, _ | _, NNaN => false
  | NFin p, NFin q => negb (Qle_bool q p)
  | NFin _, NInf negative => negb negative
  | NInf negative, NFin _ => negative
  | NInf n1, NInf n2 => n1 && negb n2
  end.

(** [a > b] *)
Definition gt (a b : js_number) : bool := lt b a.

(** [a <= b] *)
Definition le (a b : js_number) : bool :=
  match a, b with
  | NNaN, _ | _, NNaN => false
  | _, _ => negb (lt b a)
  end.

(** [a + b] on numbers *)
Definition add (a b : js_number) : js_number :=
  match a, b with
  | NNaN, _ | _, NNaN => NNaN
  | NFin p, NFin q => NFin (Qred (p + q))
  | NFin _, NInf n | NInf n, NFin _ => NInf n
  | NInf n1, NInf n2 => if Bool.eqb n1 n2 then NInf n1 else NNaN
  end.

Definition is_zero (n : js_number) : bool :=
  match n with
  | NFin q => Qeq_bool q 0
  | _ => false
  end.

#[global] Arguments lt : simpl never.
#[global] Arguments gt : simpl never.
#[global] Arguments le : simpl never.
#[global] Arguments add : simpl never.
#[global] Arguments of_Z : simpl never.
#[global] Arguments of_nat : simpl never.

(** ToBoolean *)
Definition truthy (v : jsval) : bool :=
  match v with
  | VUndefined | VNull => false
  | VBool b => b
  | VNum NNaN => false
  | VNum n => negb (is_zero n)
  | VStr s => negb (String.eqb s "")
  | VDate _ | VArr _ | VObj _ => true
  end.

Definition typeof (v : jsval) : string :=
  match v with
  | VUndefined => "undefined"
  | VNull => "object"
  | VBool _ => "boolean"
  | VNum _ => "number"
  | VStr _ => "string"
  | VDate _ | VArr _ | VObj _ => "object"
  end.

(** [a || b] *)
Definition or (a b : jsval) : jsval := if truthy a then a else b.

(** [v.k] for the property names the server reads (named fields of
    plain objects; [length] of arrays and strings). Reading a property
    of [undefined] or [null] throws and is modelled at the call site. *)
Definition get (v : jsval) (k : string) : jsval :=
  match v with
  | VObj o => default VUndefined (o !! k)
  | VArr l => if String.eqb k "length" then VNum (of_nat (length l)) else VUndefined
  | VStr s => if String.eqb k "length" then VNum (of_nat (String.length s)) else VUndefined
  | _ => VUndefined
  end.

Definition indexed (l : list jsval) : gmap string jsval :=
  list_to_map (imap (fun i v => (pretty i, v)) l).

(** The own enumerable properties copied by [{...v}]. *)
Definition spread (v : jsval) : gmap string jsval :=
  match v with
  | VObj o => o
  | VArr l => indexed l
  | VStr s => indexed ((fun c => VStr (String c "")) <$> String.list_ascii_of_string s)
  | _ => ∅
  end.

(** [v.k] where [v] may be [undefined] or [null] *)
Definition get_checked (v : jsval) (k : string) : completion jsval :=
  match v with
  | VUndefined | VNull =>
      Throw (TypeError ("Cannot read properties of " +:+
                        (if v is VNull then "null" else "undefined")))
  | _ => Return (get v k)
  end.

(** [v === 'lit'] for a string literal *)
Definition strict_eq_str (v : jsval) (lit : string) : bool :=
  match v with
  | VStr s => String.eqb s lit
  | _ => false
  end.

(** [xs.includes(v)] for an array of string literals *)
Definition includes (xs : list string) (v : jsval) : bool :=
  match v with
  | VStr s => bool_decide (s ∈ xs)
  | _ => false
  end.

(** ToNumber and ToString on the primitive values. Parsing a string as a
    number, printing a number and the conversion of objects are not
    modelled ([to_number] answers NaN and [to_string] the empty string
    there); every coercion site of the server is behind a [typeof] check
    of [isValidOperation], and the theorems below only use the coercions
    on operations that passed it. *)
Definition to_number (v : jsval) : js_number :=
  match v with
  | VNum n => n
  | VNull | VBool false => of_Z 0
  | VBool true => of_Z 1
  | _ => NNaN
  end.

Definition to_string (v : jsval) : string :=
  match v with
  | VStr s => s
  | VUndefined => "undefined"
  | VNull => "null"
  | VBool true => "true"
  | VBool false => "false"
  | _ => ""
  end.

(** ToIntegerOrInfinity *)
Inductive integer_or_infinity :=
| Int (z : Z)
| PosInf
| NegInf.

Definition truncate (q : Q) : Z :=
  if Qle_bool 0 q then Qfloor q else Qceiling q.

Definition to_integer_or_infinity (n : js_number) : integer_or_infinity :=
  match n with
  | NNaN => Int 0
  | NInf false => PosInf
  | NInf true => NegInf
  | NFin q => Int (truncate q)
  end.

(** The clamping of a relative index done by [String.prototype.slice]
    and [Array.prototype.slice]. *)
Definition clamp (len : Z) (i : integer_or_infinity) : Z :=
  match i with
  | NegInf => 0
  | PosInf => len
  | Int z => if z <? 0 then Z.max (len + z) 0 else Z.min z len
  end.

(** [s.slice(start, end)]; [None] is an omitted [end], and an [end] that
    is [undefined] counts as omitted. *)
Definition slice (s : string) (start : jsval) (end_ : option jsval) : string :=
  let len := Z.of_nat (String.length s) in
  let from := clamp len (to_integer_or_infinity (to_number start)) in
  let to := match end_ with
            | None | Some VUndefined => len
            | Some e => clamp len (to_integer_or_infinity (to_number e))
            end in
  String.substring (Z.to_nat from) (Z.to_nat (Z.max (to - from) 0)) s.

(** [a + b]: concatenation when an operand is a string, the sum of the
    operands as numbers otherwise. *)
Definition plus (a b : jsval) : jsval :=
  match a, b with
  | VStr x, _ => VStr (x +:+ to_string b)
  | _, VStr y => VStr (to_string a +:+ y)
  | _, _ => VNum (add (to_number a) (to_number b))
  end.

(** [s.substring(a, b)] for literal bounds [a <= b] *)
Definition slice_range (s : string) (a b : nat) : string :=
  String.substring a (b - a) s.

(** [xs[i]] on an array of string literals *)
Definition index (xs : list string) (i : nat) : jsval :=
  match xs !! i with
  | Some s => VStr s
  | None => VUndefined
  end.

(** [xs.slice(start)] on arrays *)
Definition array_slice {A} (xs : list A) (start : Z) : list A :=
  drop (Z.to_nat (clamp (Z.of_nat (length xs)) (Int start))) xs.

(** String concatenation. The engine refuses to build a string longer
    than its maximum string length [limit] (V8: 2^29 - 24 units) and
    throws a [RangeError] instead. *)
Definition concat (limit : Z) (a b : string) : completion string :=
  if limit <? Z.of_nat (String.length a + String.length b)
  then Throw (RangeError "Invalid string length")
  else Return (a +:+ b).

Definition upper_ascii (c : Ascii.ascii) : Ascii.ascii :=
  let n := Ascii.nat_of_ascii c in
  if ((97 <=? n) && (n <=? 122))%nat then Ascii.ascii_of_nat (n - 32) else c.

Fixpoint toUpperCase (s : string) : string :=
  match s with
  | EmptyString => EmptyString
  | String c s' => String (upper_ascii c) (toUpperCase s')
  end.

(** [a < b], [a <= b], [a > b] and [a >= b] on values: the comparison of
    the operands as numbers. Two strings are compared as strings by the
    engine, which is not modelled; the theorems use the comparisons on
    numbers only. *)
Definition less (a b : jsval) : bool := lt (to_number a) (to_number b).
Definition less_eq (a b : jsval) : bool := le (to_number a) (to_number b).
Definition greater (a b : jsval) : bool := less b a.
Definition greater_eq (a b : jsval) : bool := less_eq b a.

(** [a === b] on primitive values. Objects, arrays and dates are equal
    when they are the same object, an identity the embedding does not
    track: the comparison is used on primitive values only. *)
Definition strict_eq (a b : jsval) : bool :=
  match a, b with
  | VUndefined, VUndefined | VNull, VNull => true
  | VBool x, VBool y => Bool.eqb x y
  | VNum (NFin p), VNum (NFin q) => Qeq_bool p q
  | VNum (NInf x), VNum (NInf y) => Bool.eqb x y
  | VStr x, VStr y => String.eqb x y
  | _, _ => false
  end.

(** [a - b] on numbers *)
Definition sub (a b : js_number) : js_number :=
  match a, b with
  | NNaN, _ | _, NNaN => NNaN
  | NFin p, NFin q => NFin (Qred (p - q))
  | NFin _, NInf n => NInf (negb n)
  | NInf n, NFin _ => NInf n
  | NInf n1, NInf n2 => if Bool.eqb n1 n2 then NNaN else NInf n1
  end.

(** [a - b] on values *)
Definition minus (a b : jsval) : jsval := VNum (sub (to_number a) (to_number b)).

(** [Math.min(a, b)] *)
Definition min (a b : jsval) : jsval :=
  match to_number a, to_number b with
  | NNaN, _ | _, NNaN => VNum NNaN
  | x, y => VNum (if lt y x then y else x)
  end.

#[global] Arguments sub : simpl never.

End Js.

(** ** Presence records *)

(** The [userData] object built by the handlers. *)
Module UserData.
Record t := mk {
  id : string;
  name : jsval;
  color : jsval;
  cursor : jsval
}.
End UserData.

(** A value of the [users] map: [{...userData, joinedAt, lastSeen}]. *)
Module User.
Record t := mk {
  id : string;
  name : jsval;
  color : jsval;
  cursor : jsval;
  joinedAt : Z;
  lastSeen : Z
}.
End User.

(** An element of [getUserList()]. *)
Module UserInfo.
Record t := mk {
  id : string;
  name : jsval;
  color : jsval;
  cursor : jsval;
  joinedAt : Z;
  isActive : bool
}.
End UserInfo.

(** The object returned by [getStats()]. *)
Module Stats.
Record t := mk {
  id : string;
  userCount : nat;
  maxUsers : nat;
  documentLength : nat;
  operationCount : nat;
  createdAt : Z;
  lastActivity : Z;
  isActive : bool
}.
End Stats.

(** The object returned by [applyOperation]. *)
Module ApplyResult.
Record t := mk {
  success : bool;
  previousLength : nat;
  newLength : nat
}.
End ApplyResult.

(** ** class Room *)

Module Room.

Record t := mk {
  id : string;
  document : string;
  users : gmap string User.t;
  operations : list (gmap string jsval);
  createdAt : Z;
  lastActivity : Z;
  maxUsers : nat
}.

Definition newline : string := String (Ascii.ascii_of_nat 10) "".
Definition quote : string := String (Ascii.ascii_of_nat 34) "".

Definition welcome : string :=
  "// Welcome to the collaborative editor!" +:+ newline +:+
  "// Start typing to see real-time collaboration in action" +:+ newline +:+
  newline +:+
  "console.log(" +:+ quote +:+ "Hello, collaborative world!" +:+ quote +:+ ");".

Definition constructor (id : string) (now : Z) : t :=
  {| id := id;
     document := welcome;
     users := ∅;
     operations := [];
     createdAt := now;
     lastActivity := now;
     maxUsers := 10 |}.

Definition set_users (this : t) (us : gmap string User.t) : t :=
  {| id := id this; document := document this; users := us;
     operations := operations this; createdAt := createdAt this;
     lastActivity := lastActivity this; maxUsers := maxUsers this |}.

Definition set_lastActivity (this : t) (now : Z) : t :=
  {| id := id this; document := document this; users := users this;
     operations := operations this; createdAt := createdAt this;
     lastActivity := now; maxUsers := maxUsers this |}.

(** A method that may throw returns the object as the throw (or the
    return) leaves it, next to the completion. *)
Definition addUser (this : t) (userId : string) (userData : UserData.t) (now : Z)
  : t * completion unit :=
  if (maxUsers this <=? size (users this))%nat then (this, Throw (Error "Room is full"))
  else if negb (Js.truthy (UserData.name userData))
          || negb (Js.truthy (UserData.color userData))
  then (this, Throw (Error "Invalid user data"))
  else
    let user := {| User.id := UserData.id userData;
                   User.name := UserData.name userData;
                   User.color := UserData.color userData;
                   User.cursor := UserData.cursor userData;
                   User.joinedAt := now;
                   User.lastSeen := now |} in
    (set_lastActivity (set_users this (<[userId := user]> (users this))) now,
     Return tt).

Definition removeUser (this : t) (userId : string) (now : Z) : t * option User.t :=
  match users this !! userId with
  | Some user =>
      (set_lastActivity (set_users this (delete userId (users this))) now, Some user)
  | None => (this, None)
  end.

Definition isValidOperation (this : t) (operation : jsval) : bool :=
  if negb (Js.truthy operation) || negb (String.eqb (Js.typeof operation) "object")
  then false
  else
    let type := Js.get operation "type" in
    let position := Js.get operation "position" in
    if negb (Js.includes ["insert"; "delete"; "retain"] type) then false
    else
      match position with
      | VNum position =>
          if Js.lt position (Js.of_Z 0)
             || Js.gt position (Js.of_nat (String.length (document this)))
          then false
          else if Js.strict_eq_str type "insert" then
            match Js.get operation "content" with
            | VStr content => (0 <? String.length content)%nat
            | _ => false
            end
          else if Js.strict_eq_str type "delete" then
            match Js.get operation "length" with
            | VNum length =>
                Js.gt length (Js.of_Z 0)
                && Js.le (Js.add position length)
                         (Js.of_nat (String.length (document this)))
            | _ => false
            end
          else if Js.strict_eq_str type "retain" then
            match Js.get operation "length" with
            | VNum length => Js.gt length (Js.of_Z 0)
            | _ => false
            end
          else false
      | _ => false
      end.

Section Engine.

(** The engine's maximum string length. *)
Variable maxStringLength : Z.

(** The body of the [try] block of [applyOperationToDocument]. *)
Definition applyOperationToDocument_try (doc : string) (operation : jsval)
  : completion string :=
  type ← Js.get_checked operation "type";
  if Js.strict_eq_str type "insert" then
    prefix ← Js.concat maxStringLength
               (Js.slice doc (VNum (Js.of_Z 0)) (Some (Js.get operation "position")))
               (Js.to_string (Js.get operation "content"));
    Js.concat maxStringLength prefix (Js.slice doc (Js.get operation "position") None)
  else if Js.strict_eq_str type "delete" then
    Js.concat maxStringLength
      (Js.slice doc (VNum (Js.of_Z 0)) (Some (Js.get operation "position")))
      (Js.slice doc (Js.plus (Js.get operation "position") (Js.get operation "length"))
                None)
  else if Js.strict_eq_str type "retain" then
    Return doc
  else
    Throw (Error ("Unknown operation type: " +:+ Js.to_string type)).

(** [try { ... } catch (error) { return doc }] *)
Definition applyOperationToDocument (doc : string) (operation : jsval) : string :=
  match applyOperationToDocument_try doc operation with
  | Return doc' => doc'
  | Throw _ => doc
  end.

Definition applyOperation (this : t) (operation : jsval) (now : Z)
  : t * completion ApplyResult.t :=
  if negb (isValidOperation this operation)
  then (this, Throw (Error "Invalid operation"))
  else
    let pushed :=
      operations this ++ [<["appliedAt" := VDate now]> (Js.spread operation)] in
    let operations' :=
      if (1000 <? length pushed)%nat then Js.array_slice pushed (-1000) else pushed in
    let previousDocument := document this in
    let document' := applyOperationToDocument (document this) operation in
    ({| id := id this;
        document := document';
        users := users this;
        operations := operations';
        createdAt := createdAt this;
        lastActivity := now;
        maxUsers := maxUsers this |},
     Return {| ApplyResult.success := true;
               ApplyResult.previousLength := String.length previousDocument;
               ApplyResult.newLength := String.length document' |}).

End Engine.

Definition getUserList (this : t) (now : Z) : list UserInfo.t :=
  (fun user =>
     {| UserInfo.id := User.id user;
        UserInfo.name := User.name user;
        UserInfo.color := User.color user;
        UserInfo.cursor := User.cursor user;
        UserInfo.joinedAt := User.joinedAt user;
        UserInfo.isActive := now - User.lastSeen user <? 30000 |})
  <$> (map_to_list (users this)).*2.

Definition updateUserActivity (this : t) (userId : string) (now : Z) : t :=
  match users this !! userId with
  | Some user =>
      set_users this
        (<[userId := {| User.id := User.id user; User.name := User.name user;
                        User.color := User.color user; User.cursor := User.cursor user;
                        User.joinedAt := User.joinedAt user; User.lastSeen := now |}]>
           (users this))
  | None => this
  end.

Definition getStats (this : t) (now : Z) : Stats.t :=
  {| Stats.id := id this;
     Stats.userCount := size (users this);
     Stats.maxUsers := maxUsers this;
     Stats.documentLength := String.length (document this);
     Stats.operationCount := length (operations this);
     Stats.createdAt := createdAt this;
     Stats.lastActivity := lastActivity this;
     Stats.isActive := now - lastActivity this <? 300000 |}.

Definition shouldCleanup (this : t) (now : Z) : bool :=
  let inactiveTime := now - lastActivity this in
  let maxInactiveTime := 30 * 60 * 1000 in
  (size (users this) =? 0)%nat && (maxInactiveTime <? inactiveTime).

End Room.

(** ** Identifier, colour and name allocation *)

(** [Math.random().toString(36).substring(2, 8).toUpperCase()]; the
    argument is the base-36 rendering of the random number. *)
Definition generateRoomId (random36 : string) : string :=
  Js.toUpperCase (Js.slice_range random36 2 8).

Definition userColors : list string :=
  ["#FF6B6B"; "#4ECDC4"; "#45B7D1"; "#96CEB4";
   "#FFEAA7"; "#DDA0DD"; "#98D8C8"; "#F7DC6F";
   "#FF8A80"; "#82B1FF"; "#B39DDB"; "#A5D6A7"].

Definition userNames : list string :=
  ["Alice"; "Bob"; "Charlie"; "Diana"; "Eve"; "Frank";
   "Grace"; "Henry"; "Ivy"; "Jack"; "Kate"; "Leo"].

(** [getNextUserColor()]: the colour and the incremented [colorIndex]. *)
Definition getNextUserColor (colorIndex : nat) : jsval * nat :=
  (Js.index userColors (colorIndex mod length userColors), S colorIndex).

Definition generateUserName (existingCount : nat) : jsval :=
  if (existingCount <? length userNames)%nat
  then Js.index userNames existingCount
  else VStr ("User " +:+ pretty (existingCount + 1)%nat).

(** ** Sockets, messages and handler outcomes *)

Module Socket.
(** [id], the [roomId] field the handlers attach ([None] while it is
    [undefined]) and the transport rooms entered by [socket.join]. *)
Record t := mk {
  id : string;
  roomId : option string;
  joined : gset string
}.

Definition join (this : t) (room : string) : t :=
  {| id := id this; roomId := roomId this; joined := {[room]} ∪ joined this |}.

Definition set_roomId (this : t) (room : string) : t :=
  {| id := id this; roomId := Some room; joined := joined this |}.

(** the value of [socket.roomId] when it is truthy *)
Definition binding (this : t) : option string :=
  match roomId this with
  | Some r => if String.eqb r "" then None else Some r
  | None => None
  end.
End Socket.

(** Server-to-client events. *)
Inductive message :=
| user_joined (user : UserData.t) (userCount : nat)
| user_left (socketId : string)
| document_update (operation : gmap string jsval)
| operation_ack (success : bool) (operationId : jsval) (operation : gmap string jsval)
| operation_error (error : string) (operation : jsval) (operationId : jsval)
| cursor_update (userId : string) (position : jsval) (user : User.t)
| language_changed (userId : string) (language : jsval) (userName : jsval)
| document_sync (document : string) (version : nat)
                (operations : list (gmap string jsval)) (timestamp : Z)
| sync_error (error : string).

(** Payloads handed to an acknowledgement callback. *)
Inductive ack :=
| ack_failure (error : string)
| ack_created (roomId : string) (document : string) (users : list UserInfo.t)
              (user : UserData.t) (roomStats : Stats.t)
| ack_joined (document : string) (users : list UserInfo.t) (user : UserData.t)
             (roomStats : Stats.t) (documentVersion : nat)
| ack_rejoined (document : string) (users : list UserInfo.t) (user : option User.t)
               (roomStats : Stats.t).

Inductive effect :=
| Callback (payload : ack)                  (* callback(payload) *)
| Emit (m : message)                        (* socket.emit(...) *)
| Broadcast (room : string) (m : message).  (* socket.to(room).emit(...) *)

Module Server.

(** The module-level variables [rooms] and [colorIndex]. *)
Record t := mk {
  rooms : gmap string Room.t;
  colorIndex : nat
}.

(** What a handler leaves behind: the globals, the socket, the effects
    in the order they were issued, and the exception that escaped the
    handler, if any. *)
Record outcome := finish {
  server : t;
  socket : Socket.t;
  effects : list effect;
  uncaught : option js_error
}.

Definition set_rooms (this : t) (rs : gmap string Room.t) : t :=
  {| rooms := rs; colorIndex := colorIndex this |}.

Section Handlers.

Variable maxStringLength : Z.

(** [socket.on('create-room', ...)]. [callback] tells whether a
    function was supplied; the legacy shape [create-room(callback)]
    is [data = {}]. *)
Definition create_room (st : t) (socket : Socket.t) (dataOrCallback : jsval)
           (callback : bool) (random36 : string) (now : Z) : outcome :=
  let data := Js.or dataOrCallback (VObj ∅) in
  let userName := Js.or (Js.get data "userName") VNull in
  let roomId := generateRoomId random36 in
  let room := Room.constructor roomId now in
  let '(color, colorIndex') := getNextUserColor (colorIndex st) in
  let userData := {| UserData.id := Socket.id socket;
                     UserData.name := Js.or userName (generateUserName 0);
                     UserData.color := color;
                     UserData.cursor :=
                       VObj (<["line" := VNum (Js.of_Z 0)]>
                               (<["column" := VNum (Js.of_Z 0)]> ∅)) |} in
  let '(room, added) := Room.addUser room (Socket.id socket) userData now in
  let st := {| rooms := <[roomId := room]> (rooms st); colorIndex := colorIndex' |} in
  match added with
  | Throw e => finish st socket [] (Some e)
  | Return _ =>
      let socket := Socket.set_roomId (Socket.join socket roomId) roomId in
      finish st socket
           (if callback
            then [Callback (ack_created roomId (Room.document room)
                              (Room.getUserList room now) userData
                              (Room.getStats room now))]
            else [])
           None
  end.

(** The [try] block of the [join-room] handler, once [roomId] and
    [userName] have been read off the payload. *)
Definition join_room_try (st : t) (socket : Socket.t) (roomId userName : jsval)
           (now : Z) : outcome :=
  match roomId with
  | VStr roomId =>
      if String.eqb roomId "" || negb (String.length roomId =? 6)%nat
      then finish st socket [Callback (ack_failure "Invalid room ID format")] None
      else
        let roomId := Js.toUpperCase roomId in
        match rooms st !! roomId with
        | None => finish st socket [Callback (ack_failure "Room not found")] None
        | Some room =>
            if bool_decide (Socket.roomId socket = Some roomId)
            then finish st socket
                      [Callback (ack_rejoined (Room.document room)
                                   (Room.getUserList room now)
                                   (Room.users room !! Socket.id socket)
                                   (Room.getStats room now))]
                      None
            else if bool_decide (is_Some (Socket.binding socket))
            then finish st socket
                      [Callback (ack_failure "Already in a different room")] None
            else
              let existingUserCount := size (Room.users room) in
              let '(color, colorIndex') := getNextUserColor (colorIndex st) in
              let userData :=
                {| UserData.id := Socket.id socket;
                   UserData.name := Js.or userName (generateUserName existingUserCount);
                   UserData.color := color;
                   UserData.cursor :=
                     VObj (<["line" := VNum (Js.of_Z 0)]>
                             (<["column" := VNum (Js.of_Z 0)]> ∅)) |} in
              let '(room, added) :=
                Room.addUser room (Socket.id socket) userData now in
              let st := {| rooms := <[roomId := room]> (rooms st);
                           colorIndex := colorIndex' |} in
              match added with
              | Throw error =>
                  finish st socket
                       [Callback (ack_failure
                                    (if String.eqb (error_message error) ""
                                     then "Failed to join room"
                                     else error_message error))]
                       None
              | Return _ =>
                  let socket := Socket.set_roomId (Socket.join socket roomId) roomId in
                  finish st socket
                       [Callback (ack_joined (Room.document room)
                                    (Room.getUserList room now) userData
                                    (Room.getStats room now)
                                    (length (Room.operations room)));
                        Broadcast roomId
                          (user_joined userData (size (Room.users room)))]
                       None
              end
        end
  | _ => finish st socket [Callback (ack_failure "Invalid room ID format")] None
  end.

(** [socket.on('join-room', (data, callback) => ...)], with the
    acknowledgement callback supplied. *)
Definition join_room (st : t) (socket : Socket.t) (data : jsval) (now : Z) : outcome :=
  match data with
  | VStr _ => join_room_try st socket data VNull now
  | VUndefined | VNull =>
      finish st socket [] (Some (TypeError "Cannot read properties of undefined"))
  | _ =>
      join_room_try st socket (Js.get data "roomId")
                    (Js.or (Js.get data "userName") VNull) now
  end.

(** [{...operation, userId: socket.id, timestamp: Date.now(), roomId}] *)
Definition enhance (socket : Socket.t) (roomId : string) (operation : jsval)
           (now : Z) : gmap string jsval :=
  <["roomId" := VStr roomId]>
    (<["timestamp" := VNum (Js.of_Z now)]>
       (<["userId" := VStr (Socket.id socket)]> (Js.spread operation))).

(** [socket.on('document-operation', (operation) => ...)] *)
Definition document_operation (st : t) (socket : Socket.t) (operation : jsval)
           (now : Z) : outcome :=
  match Socket.binding socket with
  | None => finish st socket [] None
  | Some roomId =>
      match rooms st !! roomId with
      | None => finish st socket [] None
      | Some room =>
          let room := Room.updateUserActivity room (Socket.id socket) now in
          let enhancedOperation := enhance socket roomId operation now in
          let '(room, result) :=
            Room.applyOperation maxStringLength room (VObj enhancedOperation) now in
          let st := set_rooms st (<[roomId := room]> (rooms st)) in
          match result with
          | Return result =>
              if ApplyResult.success result
              then finish st socket
                        [Broadcast roomId (document_update enhancedOperation);
                         Emit (operation_ack true
                                 (Js.or (Js.get (VObj enhancedOperation) "id")
                                        (Js.get (VObj enhancedOperation) "timestamp"))
                                 enhancedOperation)]
                        None
              else finish st socket [] None
          | Throw error =>
              (* the [catch] block reads [operation.id] *)
              match Js.get_checked operation "id" with
              | Throw e => finish st socket [] (Some e)
              | Return id =>
                  finish st socket
                       [Emit (operation_error (error_message error) operation
                                (Js.or id (Js.get operation "timestamp")))]
                       None
              end
          end
      end
  end.

(** [socket.on('cursor-position', (position) => ...)] *)
Definition cursor_position (st : t) (socket : Socket.t) (position : jsval) : outcome :=
  match Socket.binding socket with
  | None => finish st socket [] None
  | Some roomId =>
      match rooms st !! roomId with
      | None => finish st socket [] None
      | Some room =>
          match Room.users room !! Socket.id socket with
          | None => finish st socket [] None
          | Some user =>
              let user := {| User.id := User.id user; User.name := User.name user;
                             User.color := User.color user; User.cursor := position;
                             User.joinedAt := User.joinedAt user;
                             User.lastSeen := User.lastSeen user |} in
              let room :=
                Room.set_users room (<[Socket.id socket := user]> (Room.users room)) in
              finish (set_rooms st (<[roomId := room]> (rooms st))) socket
                   [Broadcast roomId (cursor_update (Socket.id socket) position user)]
                   None
          end
      end
  end.

(** [socket.on('language-change', (data) => ...)] *)
Definition language_change (st : t) (socket : Socket.t) (data : jsval) : outcome :=
  match Socket.binding socket with
  | None => finish st socket [] None
  | Some roomId =>
      match rooms st !! roomId with
      | None => finish st socket [] None
      | Some room =>
          match Room.users room !! Socket.id socket with
          | None => finish st socket [] None
          | Some user =>
              match Js.get_checked data "language" with
              | Throw e => finish st socket [] (Some e)
              | Return language =>
                  finish st socket
                       [Broadcast roomId
                          (language_changed (Socket.id socket) language (User.name user))]
                       None
              end
          end
      end
  end.

(** [socket.on('request-sync', (data) => ...)] *)
Definition request_sync (st : t) (socket : Socket.t) (now : Z) : outcome :=
  match Socket.binding socket with
  | None => finish st socket [Emit (sync_error "Room not found")] None
  | Some roomId =>
      match rooms st !! roomId with
      | None => finish st socket [Emit (sync_error "Room not found")] None
      | Some room =>
          finish st socket
               [Emit (document_sync (Room.document room)
                        (length (Room.operations room))
                        (Js.array_slice (Room.operations room) (-50)) now)]
               None
      end
  end.

(** [socket.on('disconnect', () => ...)]; the transport has already
    taken the socket out of every transport room. *)
Definition disconnect (st : t) (socket : Socket.t) (now : Z) : outcome :=
  let socket := {| Socket.id := Socket.id socket;
                   Socket.roomId := Socket.roomId socket;
                   Socket.joined := ∅ |} in
  match Socket.binding socket with
  | None => finish st socket [] None
  | Some roomId =>
      match rooms st !! roomId with
      | None => finish st socket [] None
      | Some room =>
          let '(room, _) := Room.removeUser room (Socket.id socket) now in
          let rooms' :=
            if (size (Room.users room) =? 0)%nat
            then delete roomId (rooms st)
            else <[roomId := room]> (rooms st) in
          finish (set_rooms st rooms') socket
               [Broadcast roomId (user_left (Socket.id socket))] None
      end
  end.

End Handlers.

(** [cleanupInactiveRooms()] *)
Definition cleanupInactiveRooms (st : t) (now : Z) : t :=
  set_rooms st (filter (fun kv => Room.shouldCleanup kv.2 now = false) (rooms st)).

End Server.

(** ** The process: the globals and the connected sockets *)

Module System.

Record t := mk {
  server : Server.t;
  sockets : gmap string Socket.t
}.

(** The process at start. *)
Definition initial : t :=
  {| server := {| Server.rooms := ∅; Server.colorIndex := 0 |}; sockets := ∅ |}.

(** The socket the transport hands to the connection callback: no
    [roomId] yet, and member of the transport room of its own id. *)
Definition fresh_socket (id : string) : Socket.t :=
  {| Socket.id := id; Socket.roomId := None; Socket.joined := {[id]} |}.

(** What a client sends, with the random draw a create-room consumes. *)
Inductive request :=
| create_room (dataOrCallback : jsval) (callback : bool) (random36 : string)
| join_room (data : jsval)
| document_operation (operation : jsval)
| cursor_position (position : jsval)
| language_change (data : jsval)
| request_sync
| disconnect.

(** The handler registered for the request. *)
Definition handle (maxStringLength : Z) (st : Server.t) (socket : Socket.t)
           (r : request) (now : Z) : Server.outcome :=
  match r with
  | create_room data callback random36 =>
      Server.create_room st socket data callback random36 now
  | join_room data => Server.join_room st socket data now
  | document_operation operation =>
      Server.document_operation maxStringLength st socket operation now
  | cursor_position position => Server.cursor_position st socket position
  | language_change data => Server.language_change st socket data
  | request_sync => Server.request_sync st socket now
  | disconnect => Server.disconnect st socket now
  end.

(** The draws the environment is taken to make: the base-36 rendering
    has its 8 leading characters, and the id it yields is not in use. *)
Definition well_drawn (st : Server.t) (r : request) : Prop :=
  match r with
  | create_room _ _ random36 =>
      (8 <= String.length random36)%nat
      /\ Server.rooms st !! generateRoomId random36 = None
  | _ => True
  end.

(** The sockets once [socket] has handled [r]. *)
Definition after (sockets : gmap string Socket.t) (id : string) (socket : Socket.t)
           (r : request) : gmap string Socket.t :=
  match r with
  | disconnect => delete id sockets
  | _ => <[id := socket]> sockets
  end.

(** One turn of the event loop: a connection with an unused socket id, a
    request handled without an uncaught exception (which would end the
    process), or the cleanup timer. *)
Inductive step (maxStringLength : Z) : t -> t -> Prop :=
| step_connect (st : t) (id : string) :
    sockets st !! id = None ->
    step maxStringLength st
         {| server := server st; sockets := <[id := fresh_socket id]> (sockets st) |}
| step_request (st : t) (id : string) (socket : Socket.t) (r : request) (now : Z) :
    sockets st !! id = Some socket ->
    well_drawn (server st) r ->
    Server.uncaught (handle maxStringLength (server st) socket r now) = None ->
    step maxStringLength st
         {| server := Server.server (handle maxStringLength (server st) socket r now);
            sockets := after (sockets st) id
                             (Server.socket (handle maxStringLength (server st) socket r now))
                             r |}
| step_cleanup (st : t) (now : Z) :
    step maxStringLength st
         {| server := Server.cleanupInactiveRooms (server st) now;
            sockets := sockets st |}.

Definition reachable (maxStringLength : Z) (st : t) : Prop :=
  rtc (step maxStringLength) initial st.

(** A socket's binding names a registered room of which it is a member,
    by an id of 6 characters in upper case. *)
Definition bound (rooms : gmap string Room.t) (id : string) (socket : Socket.t) : Prop :=
  Socket.id socket = id
  /\ forall roomId,
      Socket.roomId socket = Some roomId ->
      String.length roomId = 6%nat
      /\ Js.toUpperCase roomId = roomId
      /\ exists room, rooms !! roomId = Some room
                      /\ is_Some (Room.users room !! id).

(** The capacity the constructor gives and the two bounds. *)
Definition room_ok (room : Room.t) : Prop :=
  Room.maxUsers room = 10%nat /\ (size (Room.users room) <= 10)%nat
  /\ (length (Room.operations room) <= 1000)%nat.

Definition invariant (st : t) : Prop :=
  (forall id socket, sockets st !! id = Some socket ->
                     bound (Server.rooms (server st)) id socket)
  /\ (forall roomId room, Server.rooms (server st) !! roomId = Some room -> room_ok room).

(** [room'] has the members of [room], and is within the bounds if
    [room] is. *)
Definition grows (room room' : Room.t) : Prop :=
  (forall id, is_Some (Room.users room !! id) -> is_Some (Room.users room' !! id))
  /\ (room_ok room -> room_ok room').

(** The registry [rooms'] keeps the rooms of [rooms], grown, and has
    besides only rooms within the bounds. *)
Definition extends (rooms rooms' : gmap string Room.t) : Prop :=
  (forall roomId room,
      rooms !! roomId = Some room ->
      exists room', rooms' !! roomId = Some room' /\ grows room room')
  /\ (forall roomId room',
        rooms' !! roomId = Some room' ->
        (exists room, rooms !! roomId = Some room /\ grows room room')
        \/ room_ok room').

(** The outcome [o] of a handler run by the socket [id] keeps the rooms
    and leaves the socket properly bound. *)
Definition sound (id : string) (st : Server.t) (socket : Socket.t)
           (o : Server.outcome) : Prop :=
  extends (Server.rooms st) (Server.rooms (Server.server o))
  /\ (bound (Server.rooms st) id socket ->
      bound (Server.rooms (Server.server o)) id (Server.socket o)).


End System.

(** ** The HTTP routes *)

Module Http.

Definition stats_json (s : Stats.t) : jsval :=
  VObj (list_to_map
          [("id", VStr (Stats.id s));
           ("userCount", VNum (Js.of_nat (Stats.userCount s)));
           ("maxUsers", VNum (Js.of_nat (Stats.maxUsers s)));
           ("documentLength", VNum (Js.of_nat (Stats.documentLength s)));
           ("operationCount", VNum (Js.of_nat (Stats.operationCount s)));
           ("createdAt", VDate (Stats.createdAt s));
           ("lastActivity", VDate (Stats.lastActivity s));
           ("isActive", VBool (Stats.isActive s))]).

Definition user_json (u : UserInfo.t) : jsval :=
  VObj (list_to_map
          [("id", VStr (UserInfo.id u));
           ("name", UserInfo.name u);
           ("color", UserInfo.color u);
           ("cursor", UserInfo.cursor u);
           ("joinedAt", VDate (UserInfo.joinedAt u));
           ("isActive", VBool (UserInfo.isActive u))]).

(** What the handlers read besides the globals: the clock and
    [process.uptime()], [process.memoryUsage()]. *)
Record process := {
  now : Z;
  uptime : jsval;
  memoryUsage : jsval
}.

Record response := {
  status : nat;
  body : jsval
}.

Inductive segment :=
| Lit (s : string)
| Param (name : string).

(** A layer of the router: the pattern given to [app.get] and its
    handler, which receives [req.params]. *)
Record route := {
  pattern : list segment;
  handler : Server.t -> gmap string string -> process -> response
}.

(** The path of a request, split at the slashes. *)
Fixpoint match_path (pat : list segment) (path : list string)
  : option (gmap string string) :=
  match pat, path with
  | [], [] => Some ∅
  | Lit s :: pat, x :: path =>
      if String.eqb s x then match_path pat path else None
  | Param k :: pat, x :: path =>
      params ← match_path pat path; Some (<[k := x]> params)
  | _, _ => None
  end.

(** [new Date().toISOString()], kept as the instant it prints. *)
Definition toISOString (t : Z) : jsval := VDate t.

(** [app.get('/health', ...)], first registration *)
Definition health_basic (st : Server.t) (params : gmap string string) (p : process)
  : response :=
  {| status := 200;
     body := VObj (list_to_map
                     [("status", VStr "ok");
                      ("rooms", VNum (Js.of_nat (size (Server.rooms st))));
                      ("timestamp", toISOString (now p))]) |}.

(** [app.get('/health', ...)], second registration *)
Definition health_enhanced (st : Server.t) (params : gmap string string) (p : process)
  : response :=
  let roomStats :=
    (fun room => stats_json (Room.getStats room (now p)))
    <$> (map_to_list (Server.rooms st)).*2 in
  {| status := 200;
     body := VObj (list_to_map
                     [("status", VStr "ok");
                      ("timestamp", toISOString (now p));
                      ("server",
                       VObj (list_to_map
                               [("uptime", uptime p);
                                ("memory", memoryUsage p);
                                ("rooms", VNum (Js.of_nat (size (Server.rooms st))))]));
                      ("rooms", VArr roomStats)]) |}.

(** [app.get('/room/:roomId', ...)] *)
Definition room_info (st : Server.t) (params : gmap string string) (p : process)
  : response :=
  let roomId := Js.toUpperCase (default "" (params !! "roomId")) in
  match Server.rooms st !! roomId with
  | None => {| status := 404;
               body := VObj (list_to_map [("error", VStr "Room not found")]) |}
  | Some room =>
      {| status := 200;
         body :=
           VObj (<["recentOperations" :=
                     VArr (VObj <$> Js.array_slice (Room.operations room) (-10))]>
                   (<["users" := VArr (user_json <$> Room.getUserList room (now p))]>
                      (Js.spread (stats_json (Room.getStats room (now p)))))) |}
  end.

(** The router stack, in the order of the [app.get] calls. *)
Definition routes : list route :=
  [ {| pattern := [Lit "health"]; handler := health_basic |};
    {| pattern := [Lit "health"]; handler := health_enhanced |};
    {| pattern := [Lit "room"; Param "roomId"]; handler := room_info |} ].

(** A GET request runs the first layer whose pattern matches; none of
    the handlers calls [next()], so no later layer runs. [None]: no
    layer matched. *)
Fixpoint dispatch (stack : list route) (st : Server.t) (path : list string)
         (p : process) : option response :=
  match stack with
  | [] => None
  | r :: stack =>
      match match_path (pattern r) path with
      | Some params => Some (handler r st params p)
      | None => dispatch stack st path p
      end
  end.

Definition get (st : Server.t) (path : list string) (p : process) : option response :=
  dispatch routes st path p.

End Http.

(** ** src/utils/operations.js: the operations of the client

    An operation is the plain object the constructors build, a [jsval]
    here. The texts of the error messages, which print numbers, are
    shortened: the exported functions catch them or let them through
    unread. [console] calls are left out. *)

Module Operations.

(** [generateOperationId()]; the arguments are the reading of the clock
    and the base-36 rendering of the random number. *)
Definition generateOperationId (now : Z) (random36 : string) : string :=
  "op_" +:+ pretty now +:+ "_" +:+ String.substring 2 9 random36.

(** [createInsertOperation(position, content, userId)]; [now] is the
    reading of the clock and [id] the id generated. *)
Definition createInsertOperation (position content userId : jsval) (now : Z)
           (id : string) : jsval :=
  VObj (<["type" := VStr "insert"]>
          (<["position" := position]>
             (<["content" := content]>
                (<["userId" := userId]>
                   (<["timestamp" := VNum (Js.of_Z now)]>
                      (<["id" := VStr id]> ∅)))))).

(** [createDeleteOperation(position, length, userId)] *)
Definition createDeleteOperation (position length userId : jsval) (now : Z)
           (id : string) : jsval :=
  VObj (<["type" := VStr "delete"]>
          (<["position" := position]>
             (<["length" := length]>
                (<["userId" := userId]>
                   (<["timestamp" := VNum (Js.of_Z now)]>
                      (<["id" := VStr id]> ∅)))))).

(** [createRetainOperation(position, length, userId)] *)
Definition createRetainOperation (position length userId : jsval) (now : Z)
           (id : string) : jsval :=
  VObj (<["type" := VStr "retain"]>
          (<["position" := position]>
             (<["length" := length]>
                (<["userId" := userId]>
                   (<["timestamp" := VNum (Js.of_Z now)]>
                      (<["id" := VStr id]> ∅)))))).

Section Engine.

(** The engine's maximum string length. *)
Variable maxStringLength : Z.

(** [applyInsert(document, operation)] *)
Definition applyInsert (document : string) (operation : jsval) : completion string :=
  position ← Js.get_checked operation "position";
  let content := Js.get operation "content" in
  if Js.less position (VNum (Js.of_Z 0))
     || Js.greater position (VNum (Js.of_nat (String.length document)))
  then Throw (Error "Invalid insert position")
  else
    prefix ← Js.concat maxStringLength
               (Js.slice document (VNum (Js.of_Z 0)) (Some position))
               (Js.to_string content);
    Js.concat maxStringLength prefix (Js.slice document position None).

(** [applyDelete(document, operation)] *)
Definition applyDelete (document : string) (operation : jsval) : completion string :=
  position ← Js.get_checked operation "position";
  let length := Js.get operation "length" in
  if Js.less position (VNum (Js.of_Z 0))
     || Js.greater_eq position (VNum (Js.of_nat (String.length document)))
  then Throw (Error "Invalid delete position")
  else if Js.less_eq length (VNum (Js.of_Z 0))
          || Js.greater (Js.plus position length)
                        (VNum (Js.of_nat (String.length document)))
  then Throw (Error "Invalid delete length")
  else
    Js.concat maxStringLength
      (Js.slice document (VNum (Js.of_Z 0)) (Some position))
      (Js.slice document (Js.plus position length) None).

(** The body of the [try] block of [applyOperation]. *)
Definition applyOperation_try (document : string) (operation : jsval)
  : completion string :=
  type ← Js.get_checked operation "type";
  if Js.strict_eq_str type "insert" then applyInsert document operation
  else if Js.strict_eq_str type "delete" then applyDelete document operation
  else if Js.strict_eq_str type "retain" then Return document
  else Return document.

(** [applyOperation(document, operation)]: the [catch] returns the
    document it was given. *)
Definition applyOperation (document : string) (operation : jsval) : string :=
  match applyOperation_try document operation with
  | Return document' => document'
  | Throw _ => document
  end.

End Engine.

(** [{...op, position: position}] and [{...op, length: length}] *)
Definition with_position (op position : jsval) : jsval :=
  VObj (<["position" := position]> (Js.spread op)).

Definition with_length (op length : jsval) : jsval :=
  VObj (<["length" := length]> (Js.spread op)).

(** [op.content.length] *)
Definition content_length (op : jsval) : completion jsval :=
  content ← Js.get_checked op "content";
  Js.get_checked content "length".

(** [transformInsertInsert(op1, op2, op1HasPriority)] *)
Definition transformInsertInsert (op1 op2 : jsval) (op1HasPriority : bool)
  : completion jsval :=
  position2 ← Js.get_checked op2 "position";
  position1 ← Js.get_checked op1 "position";
  if Js.less_eq position2 position1 then
    length2 ← content_length op2;
    Return (with_position op1 (Js.plus position1 length2))
  else if Js.strict_eq position2 position1 && negb op1HasPriority then
    length2 ← content_length op2;
    Return (with_position op1 (Js.plus position1 length2))
  else Return op1.

(** [transformInsertDelete(insertOp, deleteOp)] *)
Definition transformInsertDelete (insertOp deleteOp : jsval) : completion jsval :=
  deletePosition ← Js.get_checked deleteOp "position";
  let deleteLength := Js.get deleteOp "length" in
  insertPosition ← Js.get_checked insertOp "position";
  if Js.less_eq (Js.plus deletePosition deleteLength) insertPosition then
    Return (with_position insertOp (Js.minus insertPosition deleteLength))
  else if Js.less deletePosition insertPosition then
    Return (with_position insertOp deletePosition)
  else Return insertOp.

(** [transformDeleteInsert(deleteOp, insertOp)] *)
Definition transformDeleteInsert (deleteOp insertOp : jsval) : completion jsval :=
  insertPosition ← Js.get_checked insertOp "position";
  deletePosition ← Js.get_checked deleteOp "position";
  let deleteLength := Js.get deleteOp "length" in
  if Js.less_eq insertPosition deletePosition then
    insertLength ← content_length insertOp;
    Return (with_position deleteOp (Js.plus deletePosition insertLength))
  else if Js.less insertPosition (Js.plus deletePosition deleteLength) then
    insertLength ← content_length insertOp;
    Return (with_length deleteOp (Js.plus deleteLength insertLength))
  else Return deleteOp.

(** [transformDeleteDelete(op1, op2, op1HasPriority)] *)
Definition transformDeleteDelete (op1 op2 : jsval) (op1HasPriority : bool)
  : completion jsval :=
  position1 ← Js.get_checked op1 "position";
  let length1 := Js.get op1 "length" in
  let op1End := Js.plus position1 length1 in
  position2 ← Js.get_checked op2 "position";
  let length2 := Js.get op2 "length" in
  let op2End := Js.plus position2 length2 in
  if Js.less_eq op2End position1 then
    Return (with_position op1 (Js.minus position1 length2))
  else if Js.greater_eq position2 op1End then Return op1
  else if Js.less_eq position2 position1 && Js.greater_eq op2End op1End then
    Return (with_length op1 (VNum (Js.of_Z 0)))
  else if Js.less_eq position1 position2 && Js.greater_eq op1End op2End then
    Return (with_length op1 (Js.minus length1 length2))
  else if op1HasPriority then Return op1
  else if Js.less position2 position1 then
    let overlap := Js.minus (Js.min op1End op2End) position1 in
    Return (VObj (<["length" := Js.minus length1 overlap]>
                    (<["position" := position2]> (Js.spread op1))))
  else
    let overlap := Js.minus (Js.min op1End op2End) position2 in
    Return (with_length op1 (Js.minus length1 overlap)).

(** [transformOperation(op1, op2, op1HasPriority = false)] *)
Definition transformOperation (op1 op2 : jsval) (op1HasPriority : bool)
  : completion jsval :=
  userId1 ← Js.get_checked op1 "userId";
  userId2 ← Js.get_checked op2 "userId";
  if Js.strict_eq userId1 userId2 then Return op1
  else
    let type1 := Js.get op1 "type" in
    let type2 := Js.get op2 "type" in
    if Js.strict_eq_str type1 "insert" && Js.strict_eq_str type2 "insert"
    then transformInsertInsert op1 op2 op1HasPriority
    else if Js.strict_eq_str type1 "insert" && Js.strict_eq_str type2 "delete"
    then transformInsertDelete op1 op2
    else if Js.strict_eq_str type1 "delete" && Js.strict_eq_str type2 "insert"
    then transformDeleteInsert op1 op2
    else if Js.strict_eq_str type1 "delete" && Js.strict_eq_str type2 "delete"
    then transformDeleteDelete op1 op2 op1HasPriority
    else Return op1.

(** [validateOperation(operation, document = '')] *)
Definition validateOperation (operation : jsval) (document : string) : bool :=
  if negb (Js.truthy operation) || negb (String.eqb (Js.typeof operation) "object")
  then false
  else
    let type := Js.get operation "type" in
    let position := Js.get operation "position" in
    if negb (Js.includes ["insert"; "delete"; "retain"] type) then false
    else if negb (String.eqb (Js.typeof position) "number")
            || Js.less position (VNum (Js.of_Z 0))
    then false
    else if Js.strict_eq_str type "insert" then
      String.eqb (Js.typeof (Js.get operation "content")) "string"
      && Js.greater (Js.get (Js.get operation "content") "length") (VNum (Js.of_Z 0))
      && Js.less_eq position (VNum (Js.of_nat (String.length document)))
    else if Js.strict_eq_str type "delete" then
      String.eqb (Js.typeof (Js.get operation "length")) "number"
      && Js.greater (Js.get operation "length") (VNum (Js.of_Z 0))
      && Js.less_eq (Js.plus position (Js.get operation "length"))
                    (VNum (Js.of_nat (String.length document)))
    else if Js.strict_eq_str type "retain" then
      String.eqb (Js.typeof (Js.get operation "length")) "number"
      && Js.greater (Js.get operation "length") (VNum (Js.of_Z 0))
    else false.

(** [tryComposeTwo(op1, op2)]: the composed operation or [null] *)
Definition tryComposeTwo (op1 op2 : jsval) : completion jsval :=
  userId1 ← Js.get_checked op1 "userId";
  userId2 ← Js.get_checked op2 "userId";
  if negb (Js.strict_eq userId1 userId2) then Return VNull
  else
    let type1 := Js.get op1 "type" in
    let type2 := Js.get op2 "type" in
    inserts ←
      (if Js.strict_eq_str type1 "insert" && Js.strict_eq_str type2 "insert"
       then length1 ← content_length op1;
            Return (Js.strict_eq (Js.plus (Js.get op1 "position") length1)
                                 (Js.get op2 "position"))
       else Return false);
    if inserts : bool then
      Return (VObj (<["timestamp" := Js.get op2 "timestamp"]>
                      (<["content" := Js.plus (Js.get op1 "content")
                                              (Js.get op2 "content")]>
                         (Js.spread op1))))
    else if Js.strict_eq_str type1 "delete" && Js.strict_eq_str type2 "delete"
            && Js.strict_eq (Js.get op1 "position") (Js.get op2 "position")
    then
      Return (VObj (<["timestamp" := Js.get op2 "timestamp"]>
                      (<["length" := Js.plus (Js.get op1 "length")
                                             (Js.get op2 "length")]>
                         (Js.spread op1))))
    else Return VNull.

(** The loop of [composeOperations]: [composed], [current] and the
    operations still to read. *)
Fixpoint compose_from (composed : list jsval) (current : jsval) (rest : list jsval)
  : completion (list jsval) :=
  match rest with
  | [] => Return (composed ++ [current])
  | next :: rest =>
      composedOp ← tryComposeTwo current next;
      if Js.truthy composedOp
      then compose_from composed composedOp rest
      else compose_from (composed ++ [current]) next rest
  end.

(** [composeOperations(operations)] *)
Definition composeOperations (operations : list jsval) : completion (list jsval) :=
  match operations with
  | [] | [_] => Return operations
  | first :: rest => compose_from [] first rest
  end.

End Operations.

(** ** The statements of the specification

    The predicates below follow the wording of the specification (and,
    where the code departs from it, the wording as amended); the
    theorems compare them with the embedding above. *)

Module Spec.

(** [n] is the integer [z]. *)
Definition integer (n : js_number) (z : Z) : Prop :=
  match n with
  | NFin q => (q == inject_Z z)%Q
  | _ => False
  end.

(** [length > 0] *)
Definition positive (n : js_number) : Prop :=
  match n with
  | NFin q => (0 < q)%Q
  | NInf negative => negative = false
  | NNaN => False
  end.

(** [position + length <= len] *)
Definition sum_at_most (p l : js_number) (len : nat) : Prop :=
  match p, l with
  | NFin a, NFin b => (a + b <= inject_Z (Z.of_nat len))%Q
  | _, _ => False
  end.

(** Rules 1 and 3-5 of validateOperation, for the object [o] at
    position [p]. *)
Definition kind_rules (len : nat) (o : gmap string jsval) (p : js_number) : Prop :=
  (o !! "type" = Some (VStr "insert")
   /\ exists content, o !! "content" = Some (VStr content) /\ content <> "")
  \/ (o !! "type" = Some (VStr "delete")
      /\ exists l, o !! "length" = Some (VNum l) /\ positive l /\ sum_at_most p l len)
  \/ (o !! "type" = Some (VStr "retain")
      /\ exists l, o !! "length" = Some (VNum l) /\ positive l).

(** validateOperation as the specification words it: rule 2 asks for a
    non-negative integer position with [0 <= position <= len]. *)
Definition validateOperation (document : string) (operation : jsval) : Prop :=
  exists o p z,
    operation = VObj o /\ o !! "position" = Some (VNum p)
    /\ integer p z /\ 0 <= z <= Z.of_nat (String.length document)
    /\ kind_rules (String.length document) o p.

(** Rule 2 as the code checks it: a number that is neither below 0 nor
    above the length; both comparisons are false on NaN. *)
Definition position_not_outside (len : nat) (p : js_number) : Prop :=
  match p with
  | NFin q => (0 <= q <= inject_Z (Z.of_nat len))%Q
  | NInf _ => False
  | NNaN => True
  end.

Definition accepts (document : string) (operation : jsval) : Prop :=
  exists o p,
    operation = VObj o /\ o !! "position" = Some (VNum p)
    /\ position_not_outside (String.length document) p
    /\ kind_rules (String.length document) o p.

(** The operations of the protocol, as objects. *)
Definition insert (position : js_number) (content : string) : jsval :=
  VObj (<["type" := VStr "insert"]>
          (<["position" := VNum position]> (<["content" := VStr content]> ∅))).

Definition delete (position length : js_number) : jsval :=
  VObj (<["type" := VStr "delete"]>
          (<["position" := VNum position]> (<["length" := VNum length]> ∅))).

Definition retain (position length : js_number) : jsval :=
  VObj (<["type" := VStr "retain"]>
          (<["position" := VNum position]> (<["length" := VNum length]> ∅))).

(** The unit at which [position] lands in [document]. *)
Definition offset (document : string) (position : js_number) : nat :=
  Z.to_nat (Js.clamp (Z.of_nat (String.length document))
                     (Js.to_integer_or_infinity position)).

(** The history with [entry] appended, cut to its last 1000 entries. *)
Definition history_after (history : list (gmap string jsval))
           (entry : gmap string jsval) : list (gmap string jsval) :=
  drop (length (history ++ [entry]) - 1000) (history ++ [entry]).

Definition units (s : string) : list Ascii.ascii := String.list_ascii_of_string s.


Definition kind (operation : jsval) (k : string) : Prop :=
  Js.get operation "type" = VStr k.





(** The text the splice builds is within the engine's limit. *)
Definition fits (maxStringLength : Z) (document : string) (operation : jsval) : Prop :=
  Z.of_nat (String.length document) <= maxStringLength
  /\ (kind operation "insert" ->
      forall content,
        Js.get operation "content" = VStr content ->
        Z.of_nat (String.length document + String.length content) <= maxStringLength).

(** *** Calls on a room *)

Inductive call :=
| addUser (userId : string) (userData : UserData.t) (now : Z)
| removeUser (userId : string) (now : Z)
| applyOperation (operation : jsval) (now : Z).

(** The room after a call, whether the call returned or threw. *)
Definition step (maxStringLength : Z) (this : Room.t) (c : call) : Room.t :=
  match c with
  | addUser userId userData now => (Room.addUser this userId userData now).1
  | removeUser userId now => (Room.removeUser this userId now).1
  | applyOperation operation now =>
      (Room.applyOperation maxStringLength this operation now).1
  end.

Definition run (maxStringLength : Z) (this : Room.t) (calls : list call) : Room.t :=
  foldl (step maxStringLength) this calls.

(** [len(members) <= 10] and [len(history) <= 1000] *)
Definition bounded (this : Room.t) : Prop :=
  (size (Room.users this) <= 10)%nat /\ (length (Room.operations this) <= 1000)%nat.

(** *** The document-operation exchange *)

(** The handler reaches the apply step on [operation] and the body of
    its [try] raises. *)
Definition apply_step_raises (maxStringLength : Z) (st : Server.t) (socket : Socket.t)
           (operation : jsval) (now : Z) : Prop :=
  exists roomId room error,
    Socket.binding socket = Some roomId
    /\ Server.rooms st !! roomId = Some room
    /\ Room.isValidOperation room
         (VObj (Server.enhance socket roomId operation now)) = true
    /\ Room.applyOperationToDocument_try maxStringLength (Room.document room)
         (VObj (Server.enhance socket roomId operation now)) = Throw error.

(** The document of the socket's room is the same before and after. *)
Definition document_kept (st : Server.t) (socket : Socket.t) (o : Server.outcome)
  : Prop :=
  forall roomId room,
    Socket.binding socket = Some roomId ->
    Server.rooms st !! roomId = Some room ->
    exists room', Server.rooms (Server.server o) !! roomId = Some room'
                  /\ Room.document room' = Room.document room.

Definition is_operation_error (e : effect) : Prop :=
  match e with
  | Emit (operation_error _ _ _) => True
  | _ => False
  end.

Definition is_document_update (e : effect) : Prop :=
  match e with
  | Broadcast _ (document_update _) => True
  | _ => False
  end.

(** What the specification says of an exception in the apply step. *)
Definition apply_failure_reported (maxStringLength : Z) (st : Server.t)
           (socket : Socket.t) (operation : jsval) (now : Z) : Prop :=
  let o := Server.document_operation maxStringLength st socket operation now in
  document_kept st socket o
  /\ Exists is_operation_error (Server.effects o)
  /\ Forall (fun e => ~ is_document_update e) (Server.effects o).

(** *** The join-room exchange *)






(** *** The health endpoint *)

(** The body the specification gives to GET /health: status ok, a
    timestamp, the server object with uptime, memory and the number of
    rooms, and the list of the statistics of the rooms. *)
Definition health_shape (st : Server.t) (p : Http.process) (body : jsval) : Prop :=
  Js.get body "status" = VStr "ok"
  /\ Js.get body "timestamp" = Http.toISOString (Http.now p)
  /\ Js.get (Js.get body "server") "uptime" = Http.uptime p
  /\ Js.get (Js.get body "server") "memory" = Http.memoryUsage p
  /\ Js.get (Js.get body "server") "rooms"
     = VNum (Js.of_nat (size (Server.rooms st)))
  /\ Js.get body "rooms"
     = VArr ((fun room => Http.stats_json (Room.getStats room (Http.now p)))
             <$> (map_to_list (Server.rooms st)).*2).

End Spec.

(** ** Operations with whole positions

    The operations an editor produces: built by [createInsertOperation]
    and [createDeleteOperation] from a whole position, a text or a whole
    length, and the id of a user. *)

Module Typed.

Inductive edit :=
| Insert (position : nat) (content : string)
| Delete (position length : nat).

Record operation := {
  what : edit;
  userId : string;
  timestamp : Z;
  id : string
}.

(** The object of the operation. *)
Definition encode (op : operation) : jsval :=
  match what op with
  | Insert position content =>
      Operations.createInsertOperation (VNum (Js.of_nat position)) (VStr content)
        (VStr (userId op)) (timestamp op) (id op)
  | Delete position length =>
      Operations.createDeleteOperation (VNum (Js.of_nat position))
        (VNum (Js.of_nat length)) (VStr (userId op)) (timestamp op) (id op)
  end.

(** The position and the length that [transformDeleteDelete] gives to
    the delete of [length1] units at [position1], against the delete of
    [length2] units at [position2]. *)
Definition transformDeleteDelete (position1 length1 position2 length2 : nat)
           (op1HasPriority : bool) : nat * nat :=
  let op1End := (position1 + length1)%nat in
  let op2End := (position2 + length2)%nat in
  if bool_decide (op2End <= position1)%nat then ((position1 - length2)%nat, length1)
  else if bool_decide (op1End <= position2)%nat then (position1, length1)
  else if bool_decide (position2 <= position1)%nat && bool_decide (op1End <= op2End)%nat
  then (position1, 0%nat)
  else if bool_decide (position1 <= position2)%nat && bool_decide (op2End <= op1End)%nat
  then (position1, (length1 - length2)%nat)
  else if op1HasPriority then (position1, length1)
  else if bool_decide (position2 < position1)%nat
  then (position2, (length1 - (op1End `min` op2End - position1))%nat)
  else (position1, (length1 - (op1End `min` op2End - position2))%nat).

(** The operations applied in turn. *)
Definition applyAll (maxStringLength : Z) (document : string) (ops : list jsval)
  : string :=
  foldl (Operations.applyOperation maxStringLength) document ops.

(** Each operation of the list passes [validateOperation] on the
    document it meets, and builds a text within the engine's limit. *)
Fixpoint valid_run (maxStringLength : Z) (document : string) (ops : list operation)
  : Prop :=
  match ops with
  | [] => True
  | op :: ops =>
      Operations.validateOperation (encode op) document = true
      /\ Spec.fits maxStringLength document (encode op)
      /\ valid_run maxStringLength
           (Operations.applyOperation maxStringLength document (encode op)) ops
  end.

End Typed.

(** ** Sample data *)

Module Example.

(** A room whose document is the text hello. *)
Definition hello : Room.t :=
  {| Room.id := "ABC123"; Room.document := "hello"; Room.users := ∅;
     Room.operations := []; Room.createdAt := 0; Room.lastActivity := 0;
     Room.maxUsers := 10 |}.

(** The [userData] of a first member. *)
Definition alice : UserData.t :=
  {| UserData.id := "s1";
     UserData.name := VStr "Alice";
     UserData.color := VStr "#FF6B6B";
     UserData.cursor :=
       VObj (<["line" := VNum (Js.of_Z 0)]> (<["column" := VNum (Js.of_Z 0)]> ∅)) |}.

(** The process once the socket s1 has connected. *)
Definition connected : System.t :=
  {| System.server := System.server System.initial;
     System.sockets := <["s1" := System.fresh_socket "s1"]> (System.sockets System.initial) |}.

(** The server and the socket s1 once s1 has created room ABC123. *)
Definition created : Server.outcome :=
  Server.create_room (System.server connected) (System.fresh_socket "s1")
    (VObj {["userName" := VStr "Alice"]}) true "0.abc123xyz" 0.

(** The process at that point. *)
Definition running : System.t :=
  {| System.server := Server.server created;
     System.sockets :=
       <["s1" := Server.socket created]> (System.sockets connected) |}.


End Example.

(** ** Strings and numbers *)

Section StringFacts.

Lemma length_append (a b : string) :
  String.length (a +:+ b) = (String.length a + String.length b)%nat.
Proof. induction a as [|c a IH]; simpl; [done | by rewrite IH]. Qed.

Lemma length_substring (s : string) (n m : nat) :
  String.length (String.substring n m s) = (m `min` (String.length s - n))%nat.
Proof.
  revert n m. induction s as [|c s IH]; intros [|n] [|m]; simpl; try lia.
  all: rewrite ?IH; simpl; lia.
Qed.

Lemma substring_all (s : string) : String.substring 0 (String.length s) s = s.
Proof. induction s as [|c s IH]; simpl; [done | by rewrite IH]. Qed.

Lemma substring_nil (s : string) (n : nat) : String.substring n 0 s = "".
Proof. revert n. induction s as [|c s IH]; intros [|n]; simpl; auto. Qed.

Lemma length_toUpperCase (s : string) : String.length (Js.toUpperCase s) = String.length s.
Proof. induction s as [|c s IH]; simpl; [done | by rewrite IH]. Qed.

Lemma string_nonempty_length (s : string) : (0 < String.length s)%nat <-> s <> "".
Proof. destruct s; simpl; split; (congruence || lia). Qed.

End StringFacts.

Section NumberFacts.

Lemma lt_fin (p q : Q) : Js.lt (NFin p) (NFin q) = true <-> (p < q)%Q.
Proof.
  unfold Js.lt. rewrite negb_true_iff. split.
  - intros H. apply Qnot_le_lt. intros Hle. apply Qle_bool_iff in Hle. congruence.
  - intros H. destruct (Qle_bool q p) eqn:E; [|done].
    apply Qle_bool_iff in E. exfalso. by apply (Qlt_not_le p q).
Qed.

Lemma lt_fin_false (p q : Q) : Js.lt (NFin p) (NFin q) = false <-> (q <= p)%Q.
Proof. unfold Js.lt. rewrite negb_false_iff. apply Qle_bool_iff. Qed.

Lemma gt_zero_positive (l : js_number) :
  Js.gt l (Js.of_Z 0) = true <-> Spec.positive l.
Proof.
  unfold Js.gt, Js.of_Z. destruct l as [q|[]|]; simpl Spec.positive.
  - apply lt_fin.
  - unfold Js.lt. split; done.
  - unfold Js.lt. split; done.
  - unfold Js.lt. split; done.
Qed.

Lemma position_check (len : nat) (p : js_number) :
  Js.lt p (Js.of_Z 0) || Js.gt p (Js.of_nat len) = false
  <-> Spec.position_not_outside len p.
Proof.
  rewrite orb_false_iff. unfold Js.gt, Js.of_nat, Js.of_Z.
  destruct p as [q|[]|]; simpl Spec.position_not_outside.
  - by rewrite !lt_fin_false.
  - unfold Js.lt. split; [intros [? ?]; done | done].
  - unfold Js.lt. split; [intros [? ?]; done | done].
  - unfold Js.lt. split; done.
Qed.

Lemma sum_check (p l : js_number) (len : nat) :
  Spec.position_not_outside len p -> Spec.positive l ->
  Js.le (Js.add p l) (Js.of_nat len) = true <-> Spec.sum_at_most p l len.
Proof.
  unfold Js.of_nat, Js.of_Z, Js.le, Js.add, Js.lt.
  destruct p as [a|[]|], l as [b|[]|]; simpl; try tauto; try done.
  intros _ _. rewrite negb_involutive, Qle_bool_iff.
  by rewrite Qred_correct.
Qed.

Lemma truncate_integer (q : Q) (z : Z) : (q == inject_Z z)%Q -> Js.truncate q = z.
Proof.
  intros H. unfold Js.truncate. destruct (Qle_bool 0 q).
  - rewrite H. apply Qfloor_Z.
  - rewrite H. apply Qceiling_Z.
Qed.

Lemma Qfloor_add_integer (q : Q) (z : Z) : Qfloor (q + inject_Z z) = Qfloor q + z.
Proof.
  destruct q as [n d]. unfold Qplus, inject_Z, Qfloor. simpl.
  rewrite Z.mul_1_r, Pos.mul_1_r. apply Z.div_add. done.
Qed.

End NumberFacts.

Section Validation.

Lemma includes_kinds (v : jsval) :
  Js.includes ["insert"; "delete"; "retain"] v = true <->
  v = VStr "insert" \/ v = VStr "delete" \/ v = VStr "retain".
Proof.
  destruct v; simpl; try (split; [done | intros [?|[?|?]]; done]).
  rewrite bool_decide_eq_true. rewrite !elem_of_cons, elem_of_nil.
  split.
  - intros [->|[->|[->|[]]]]; auto.
  - intros [?|[?|?]]; simplify_eq; auto.
Qed.

Lemma isValidOperation_object (this : Room.t) (operation : jsval) :
  Room.isValidOperation this operation = true -> exists o, operation = VObj o.
Proof.
  unfold Room.isValidOperation.
  destruct operation; simpl; rewrite ?orb_true_r; try done; eauto.
Qed.

Lemma isValidOperation_accepts (this : Room.t) (operation : jsval) :
  Room.isValidOperation this operation = true <->
  Spec.accepts (Room.document this) operation.
Proof.
  split.
  - intros H. destruct (isValidOperation_object _ _ H) as [o ->].
    unfold Room.isValidOperation in H. simpl in H.
    destruct (Js.includes _ _) eqn:Hk; [|done]. simpl in H.
    apply includes_kinds in Hk.
    destruct (default VUndefined (o !! "position")) as [| | |p| | | |] eqn:Hp; try done.
    destruct (_ || _) eqn:Hrange in H; [done|].
    apply position_check in Hrange.
    exists o, p. split; [done|]. split.
    { destruct (o !! "position"); simpl in Hp; by simplify_eq. }
    split; [done|].
    unfold Spec.kind_rules.
    destruct (o !! "type") as [ty|] eqn:Hty; simpl in *; [|naive_solver].
    destruct Hk as [-> | [-> | ->]]; simpl in H.
    + left. split; [done|].
      destruct (o !! "content") as [v|]; [destruct v|]; simpl in H; try done.
      eexists; split; [done|]. apply string_nonempty_length.
      by apply Nat.ltb_lt.
    + right; left. split; [done|].
      destruct (o !! "length") as [v|]; [destruct v|]; simpl in H; try done.
      apply andb_true_iff in H as [H1 H2]. apply gt_zero_positive in H1.
      eexists; split; [done|]. split; [done|]. by apply sum_check.
    + right; right. split; [done|].
      destruct (o !! "length") as [v|]; [destruct v|]; simpl in H; try done.
      apply gt_zero_positive in H. eauto.
  - intros (o & p & -> & Hp & Hrange & Hk).
    unfold Room.isValidOperation. simpl. rewrite Hp. simpl.
    apply position_check in Hrange.
    destruct Hk as [[Hty (c & Hc & Hne)]|[[Hty (l & Hl & Hpos & Hsum)]|[Hty (l & Hl & Hpos)]]];
      rewrite Hty; simpl; rewrite Hrange.
    + rewrite Hc. apply Nat.ltb_lt. by apply string_nonempty_length.
    + rewrite Hl. apply andb_true_iff. split.
      * by apply gt_zero_positive.
      * apply sum_check; [by apply position_check | done | done].
    + rewrite Hl. by apply gt_zero_positive.
Qed.





End Validation.



(** ** The apply step *)

Section Slices.

Lemma clamp_range (len : Z) (i : Js.integer_or_infinity) :
  0 <= len -> 0 <= Js.clamp len i <= len.
Proof. intros H. destruct i; simpl; [case_match|..]; lia. Qed.

Lemma offset_le (document : string) (position : js_number) :
  (Spec.offset document position <= String.length document)%nat.
Proof.
  unfold Spec.offset.
  pose proof (clamp_range (Z.of_nat (String.length document))
                (Js.to_integer_or_infinity position)). lia.
Qed.

Lemma slice_to (document : string) (position : js_number) :
  Js.slice document (VNum (Js.of_Z 0)) (Some (VNum position))
  = String.substring 0 (Spec.offset document position) document.
Proof.
  unfold Js.slice, Spec.offset. cbn [Js.to_number].
  pose proof (clamp_range (Z.of_nat (String.length document))
                (Js.to_integer_or_infinity position)).
  assert (Js.clamp (Z.of_nat (String.length document))
            (Js.to_integer_or_infinity (Js.of_Z 0)) = 0) as ->.
  { unfold Js.of_Z. simpl. rewrite (truncate_integer _ 0) by done. simpl. lia. }
  simpl Z.to_nat at 1. f_equal. lia.
Qed.

Lemma slice_from (document : string) (position : js_number) :
  Js.slice document (VNum position) None
  = String.substring (Spec.offset document position)
      (String.length document - Spec.offset document position) document.
Proof.
  unfold Js.slice, Spec.offset. cbn [Js.to_number].
  pose proof (clamp_range (Z.of_nat (String.length document))
                (Js.to_integer_or_infinity position)).
  f_equal. lia.
Qed.

Lemma length_slice_to (document : string) (position : js_number) :
  String.length (Js.slice document (VNum (Js.of_Z 0)) (Some (VNum position)))
  = Spec.offset document position.
Proof.
  rewrite slice_to, length_substring. pose proof (offset_le document position). lia.
Qed.

Lemma length_slice_from (document : string) (position : js_number) :
  String.length (Js.slice document (VNum position) None)
  = (String.length document - Spec.offset document position)%nat.
Proof. rewrite slice_from, length_substring. lia. Qed.

Lemma offset_integer (document : string) (n : js_number) (p : nat) :
  Spec.integer n (Z.of_nat p) -> (p <= String.length document)%nat ->
  Spec.offset document n = p.
Proof.
  destruct n as [q| |]; try done. simpl. intros Hq Hp.
  unfold Spec.offset. simpl. rewrite (truncate_integer _ _ Hq).
  case_match; lia.
Qed.

(** Past a position inside the document, a whole [length] moves the
    offset by [length]. *)
Lemma offset_add (document : string) (q : Q) (m : js_number) (l : Z) :
  (0 <= q)%Q -> Spec.integer m l -> 0 < l ->
  Spec.sum_at_most (NFin q) m (String.length document) ->
  Z.of_nat (Spec.offset document (Js.add (NFin q) m)) = Z.of_nat (Spec.offset document (NFin q)) + l.
Proof.
  destruct m as [b| |]; try done. simpl. intros Hq Hb Hl Hsum.
  unfold Spec.offset, Js.add. simpl.
  assert (0 <= Qfloor q) as Hfloor.
  { rewrite <- (Qfloor_Z 0). by apply Qfloor_resp_le. }
  assert (Js.truncate q = Qfloor q) as ->.
  { unfold Js.truncate. by apply Qle_bool_iff in Hq as ->. }
  assert (Js.truncate (Qred (q + b)) = Qfloor q + l) as ->.
  { unfold Js.truncate.
    assert (Qle_bool 0 (Qred (q + b)) = true) as ->.
    { apply Qle_bool_iff. rewrite Qred_correct, Hb.
      apply Qle_trans with q; [done|].
      rewrite <- (Qplus_0_r q) at 1. apply Qplus_le_r.
      change 0%Q with (inject_Z 0). rewrite <- Zle_Qle. lia. }
    rewrite Qred_correct, Hb. apply Qfloor_add_integer. }
  assert (Qfloor q + l <= Z.of_nat (String.length document)).
  { rewrite <- (Qfloor_Z (Z.of_nat _)), <- Qfloor_add_integer.
    apply Qfloor_resp_le. by rewrite <- Hb. }
  repeat case_match; lia.
Qed.

Lemma units_append (a b : string) : Spec.units (a +:+ b) = Spec.units a ++ Spec.units b.
Proof. induction a as [|c a IH]; simpl; [done | by rewrite IH]. Qed.

Lemma length_units (s : string) : length (Spec.units s) = String.length s.
Proof. induction s as [|c s IH]; simpl; [done | by rewrite IH]. Qed.

Lemma units_substring (s : string) (n m : nat) :
  Spec.units (String.substring n m s) = take m (drop n (Spec.units s)).
Proof.
  revert n m. induction s as [|c s IH]; intros [|n] [|m]; simpl; rewrite ?IH; done.
Qed.

Lemma units_slice_to (document : string) (position : js_number) :
  Spec.units (Js.slice document (VNum (Js.of_Z 0)) (Some (VNum position)))
  = take (Spec.offset document position) (Spec.units document).
Proof. by rewrite slice_to, units_substring. Qed.

Lemma units_slice_from (document : string) (position : js_number) :
  Spec.units (Js.slice document (VNum position) None)
  = drop (Spec.offset document position) (Spec.units document).
Proof.
  rewrite slice_from, units_substring. apply take_ge.
  rewrite length_drop, length_units. lia.
Qed.

Lemma array_slice_last {A} (xs : list A) (n : nat) :
  (0 < n)%nat -> Js.array_slice xs (- Z.of_nat n) = drop (length xs - n) xs.
Proof.
  intros Hn. unfold Js.array_slice. f_equal. simpl. case_match; lia.
Qed.

End Slices.

Section Apply.

Variable maxStringLength : Z.

Lemma concat_fits (a b : string) :
  Z.of_nat (String.length a + String.length b) <= maxStringLength ->
  Js.concat maxStringLength a b = Return (a +:+ b).
Proof. intros H. unfold Js.concat. destruct (Z.ltb_spec0 maxStringLength (Z.of_nat (String.length a + String.length b))); [lia | done]. Qed.

Lemma try_insert (document : string) (o : gmap string jsval) (n : js_number)
      (content : string) :
  o !! "type" = Some (VStr "insert") ->
  o !! "position" = Some (VNum n) ->
  o !! "content" = Some (VStr content) ->
  Z.of_nat (String.length document + String.length content) <= maxStringLength ->
  Room.applyOperationToDocument_try maxStringLength document (VObj o)
  = Return ((Js.slice document (VNum (Js.of_Z 0)) (Some (VNum n)) +:+ content)
            +:+ Js.slice document (VNum n) None).
Proof.
  intros Hty Hn Hc Hfit. unfold Room.applyOperationToDocument_try. simpl.
  rewrite Hty, Hn, Hc. simpl.
  pose proof (offset_le document n).
  rewrite concat_fits; [simpl|rewrite length_slice_to; lia].
  apply concat_fits.
  rewrite length_append, length_slice_to, length_slice_from. lia.
Qed.

Lemma try_delete (document : string) (o : gmap string jsval) (n m : js_number) :
  o !! "type" = Some (VStr "delete") ->
  o !! "position" = Some (VNum n) ->
  o !! "length" = Some (VNum m) ->
  (Spec.offset document n <= Spec.offset document (Js.add n m))%nat ->
  Z.of_nat (String.length document) <= maxStringLength ->
  Room.applyOperationToDocument_try maxStringLength document (VObj o)
  = Return (Js.slice document (VNum (Js.of_Z 0)) (Some (VNum n))
            +:+ Js.slice document (VNum (Js.add n m)) None).
Proof.
  intros Hty Hn Hm Hle Hfit. unfold Room.applyOperationToDocument_try. simpl.
  rewrite Hty, Hn, Hm. simpl.
  pose proof (offset_le document n).
  apply concat_fits. rewrite length_slice_to, length_slice_from. lia.
Qed.


Lemma history_pushed (history : list (gmap string jsval)) (entry : gmap string jsval) :
  (if (1000 <? length (history ++ [entry]))%nat
   then Js.array_slice (history ++ [entry]) (-1000)
   else history ++ [entry])
  = Spec.history_after history entry.
Proof.
  unfold Spec.history_after. case_match.
  - change (-1000) with (- Z.of_nat 1000). apply array_slice_last. lia.
  - apply Nat.ltb_ge in H.
    replace (length (history ++ [entry]) - 1000)%nat with 0%nat by lia. done.
Qed.

End Apply.

Section ApplyOperation.

Variable maxStringLength : Z.




Lemma apply_insert (document : string) (o : gmap string jsval) (n : js_number)
      (content : string) :
  o !! "type" = Some (VStr "insert") ->
  o !! "position" = Some (VNum n) ->
  o !! "content" = Some (VStr content) ->
  Z.of_nat (String.length document + String.length content) <= maxStringLength ->
  Room.applyOperationToDocument maxStringLength document (VObj o)
  = (Js.slice document (VNum (Js.of_Z 0)) (Some (VNum n)) +:+ content)
  +:+ Js.slice document (VNum n) None.
Proof.
  intros. unfold Room.applyOperationToDocument. by erewrite try_insert.
Qed.

Lemma apply_delete (document : string) (o : gmap string jsval) (n m : js_number) :
  o !! "type" = Some (VStr "delete") ->
  o !! "position" = Some (VNum n) ->
  o !! "length" = Some (VNum m) ->
  (Spec.offset document n <= Spec.offset document (Js.add n m))%nat ->
  Z.of_nat (String.length document) <= maxStringLength ->
  Room.applyOperationToDocument maxStringLength document (VObj o)
  = Js.slice document (VNum (Js.of_Z 0)) (Some (VNum n))
  +:+ Js.slice document (VNum (Js.add n m)) None.
Proof.
  intros. unfold Room.applyOperationToDocument. by erewrite try_delete.
Qed.



End ApplyOperation.




(** ** Bounds of a room *)

Section Bounds.

Variable maxStringLength : Z.

Lemma length_history_after (history : list (gmap string jsval))
      (entry : gmap string jsval) :
  (length history <= 1000)%nat ->
  (length (Spec.history_after history entry) <= 1000)%nat.
Proof.
  intros H. unfold Spec.history_after. rewrite length_drop, length_app. simpl. lia.
Qed.

Lemma applyOperation_history (this : Room.t) (operation : jsval) (now : Z) :
  Room.isValidOperation this operation = true ->
  Room.operations (Room.applyOperation maxStringLength this operation now).1
  = Spec.history_after (Room.operations this)
      (<["appliedAt" := VDate now]> (Js.spread operation)).
Proof.
  intros H. unfold Room.applyOperation. rewrite H. cbn [negb fst Room.operations].
  apply history_pushed.
Qed.

Lemma applyOperation_rejected (this : Room.t) (operation : jsval) (now : Z) :
  Room.isValidOperation this operation = false ->
  Room.applyOperation maxStringLength this operation now
  = (this, Throw (Error "Invalid operation")).
Proof. intros H. unfold Room.applyOperation. by rewrite H. Qed.

Lemma addUser_full (this : Room.t) (userId : string) (userData : UserData.t) (now : Z) :
  (Room.maxUsers this <= size (Room.users this))%nat ->
  Room.addUser this userId userData now = (this, Throw (Error "Room is full")).
Proof.
  intros H. unfold Room.addUser. by apply Nat.leb_le in H as ->.
Qed.

Lemma step_maxUsers (this : Room.t) (c : Spec.call) :
  Room.maxUsers (Spec.step maxStringLength this c) = Room.maxUsers this.
Proof.
  destruct c; simpl.
  - unfold Room.addUser. repeat case_match; done.
  - unfold Room.removeUser. case_match; done.
  - unfold Room.applyOperation. case_match; done.
Qed.

Lemma step_bounded (this : Room.t) (c : Spec.call) :
  Room.maxUsers this = 10%nat -> Spec.bounded this ->
  Spec.bounded (Spec.step maxStringLength this c).
Proof.
  intros Hmax [Husers Hops]. destruct c; simpl.
  - unfold Room.addUser. rewrite Hmax.
    destruct (Nat.leb_spec 10 (size (Room.users this))); [done|].
    case_match; [done|]. split; [|done]. simpl.
    rewrite map_size_insert. case_match; unfold id; lia.
  - unfold Room.removeUser. case_match eqn:Hu; [|done]. split; [|done]. simpl.
    rewrite map_size_delete, Hu. lia.
  - destruct (Room.isValidOperation this operation) eqn:Hv.
    + split.
      * unfold Room.applyOperation. by rewrite Hv.
      * rewrite applyOperation_history by done. by apply length_history_after.
    + by rewrite applyOperation_rejected.
Qed.

Lemma run_bounded (calls : list Spec.call) (this : Room.t) :
  Room.maxUsers this = 10%nat -> Spec.bounded this ->
  Room.maxUsers (Spec.run maxStringLength this calls) = 10%nat
  /\ Spec.bounded (Spec.run maxStringLength this calls).
Proof.
  revert this. induction calls as [|c calls IH]; intros this Hmax Hb; [done|].
  simpl. apply IH.
  - by rewrite step_maxUsers.
  - by apply step_bounded.
Qed.

End Bounds.

(** C6. Along every sequence of addUser, removeUser and applyOperation
    calls on a room (with the capacity 10 its constructor gives it) the
    bounds of at most 10 members and at most 1000 history entries are
    preserved: in the room reached, addUser throws Room is full once
    there are maxUsers members, and applyOperation leaves the most recent
    1000 entries of the history. *)
Theorem room_bounds_preserved (maxStringLength : Z) (this : Room.t)
        (calls : list Spec.call) :
  Room.maxUsers this = 10%nat ->
  Spec.bounded this ->
  let this' := Spec.run maxStringLength this calls in
  Spec.bounded this'
  /\ (forall userId userData now,
        size (Room.users this') = Room.maxUsers this' ->
        Room.addUser this' userId userData now = (this', Throw (Error "Room is full")))
  /\ (forall operation now,
        Room.isValidOperation this' operation = true ->
        Room.operations (Room.applyOperation maxStringLength this' operation now).1
        = Spec.history_after (Room.operations this')
            (<["appliedAt" := VDate now]> (Js.spread operation))).
Proof.
  intros Hmax Hb. simpl.
  destruct (run_bounded maxStringLength calls this Hmax Hb) as [Hmax' Hb'].
  split; [done|]. split.
  - intros userId userData now Hfull. apply addUser_full. lia.
  - intros operation now Hv. by apply applyOperation_history.
Qed.

Lemma room_bounds_preserved_witness :
  Spec.bounded
    (Spec.run 536870888 (Room.constructor "ABC123" 0)
       [Spec.addUser "s1" Example.alice 1;
        Spec.applyOperation (Spec.insert (Js.of_Z 0) "x") 2;
        Spec.removeUser "s1" 3]).
Proof.
  apply (room_bounds_preserved 536870888 (Room.constructor "ABC123" 0)).
  - reflexivity.
  - split; vm_compute; lia.
Defined.

(** ** The document-operation exchange *)

Section DocumentOperation.

Variable maxStringLength : Z.

Lemma isValidOperation_document (this this' : Room.t) (operation : jsval) :
  Room.document this = Room.document this' ->
  Room.isValidOperation this operation = Room.isValidOperation this' operation.
Proof. intros H. unfold Room.isValidOperation. by rewrite H. Qed.

Lemma updateUserActivity_document (this : Room.t) (userId : string) (now : Z) :
  Room.document (Room.updateUserActivity this userId now) = Room.document this.
Proof. unfold Room.updateUserActivity. by case_match. Qed.

Lemma updateUserActivity_operations (this : Room.t) (userId : string) (now : Z) :
  Room.operations (Room.updateUserActivity this userId now) = Room.operations this.
Proof. unfold Room.updateUserActivity. by case_match. Qed.

Lemma updateUserActivity_lastActivity (this : Room.t) (userId : string) (now : Z) :
  Room.lastActivity (Room.updateUserActivity this userId now) = Room.lastActivity this.
Proof. unfold Room.updateUserActivity. by case_match. Qed.

(** What the handler does with an operation the room rejects. *)
Lemma document_operation_rejected (st : Server.t) (socket : Socket.t)
      (operation : jsval) (now : Z) (roomId : string) (room : Room.t) :
  Socket.binding socket = Some roomId ->
  Server.rooms st !! roomId = Some room ->
  Room.isValidOperation room (VObj (Server.enhance socket roomId operation now)) = false ->
  Server.document_operation maxStringLength st socket operation now
  = match Js.get_checked operation "id" with
    | Throw e =>
        Server.finish
          (Server.set_rooms st
             (<[roomId := Room.updateUserActivity room (Socket.id socket) now]>
                (Server.rooms st)))
          socket [] (Some e)
    | Return id =>
        Server.finish
          (Server.set_rooms st
             (<[roomId := Room.updateUserActivity room (Socket.id socket) now]>
                (Server.rooms st)))
          socket
          [Emit (operation_error "Invalid operation" operation
                   (Js.or id (Js.get operation "timestamp")))]
          None
    end.
Proof.
  intros Hb Hr Hv. unfold Server.document_operation. rewrite Hb, Hr.
  rewrite applyOperation_rejected.
  2:{ rewrite <- Hv. apply isValidOperation_document, updateUserActivity_document. }
  done.
Qed.

(** What the handler does with an operation the room accepts. *)
Lemma document_operation_accepted (st : Server.t) (socket : Socket.t)
      (operation : jsval) (now : Z) (roomId : string) (room : Room.t) :
  Socket.binding socket = Some roomId ->
  Server.rooms st !! roomId = Some room ->
  Room.isValidOperation room (VObj (Server.enhance socket roomId operation now)) = true ->
  let enhanced := Server.enhance socket roomId operation now in
  let room1 := Room.updateUserActivity room (Socket.id socket) now in
  Server.document_operation maxStringLength st socket operation now
  = Server.finish
      (Server.set_rooms st
         (<[roomId := (Room.applyOperation maxStringLength room1 (VObj enhanced) now).1]>
            (Server.rooms st)))
      socket
      [Broadcast roomId (document_update enhanced);
       Emit (operation_ack true
               (Js.or (Js.get (VObj enhanced) "id") (Js.get (VObj enhanced) "timestamp"))
               enhanced)]
      None.
Proof.
  intros Hb Hr Hv. simpl. unfold Server.document_operation. rewrite Hb, Hr.
  unfold Room.applyOperation.
  rewrite (isValidOperation_document _ room), Hv; [done|].
  apply updateUserActivity_document.
Qed.

End DocumentOperation.

(** C9. An operation that validateOperation rejects makes applyOperation
    throw Invalid operation and leaves the room object as it was, history
    and lastActivity included; in the document-operation handler the
    room keeps its history, its lastActivity and its document, nothing is
    broadcast, and the sender of an object payload gets the
    operation-error. *)
Theorem rejected_operation_atomic (maxStringLength : Z) (this : Room.t)
        (operation : jsval) (now : Z) :
  Room.isValidOperation this operation = false ->
  Room.applyOperation maxStringLength this operation now
  = (this, Throw (Error "Invalid operation"))
  /\ forall st socket payload roomId,
      Socket.binding socket = Some roomId ->
      Server.rooms st !! roomId = Some this ->
      operation = VObj (Server.enhance socket roomId payload now) ->
      let o := Server.document_operation maxStringLength st socket payload now in
      (exists this',
          Server.rooms (Server.server o) !! roomId = Some this'
          /\ Room.operations this' = Room.operations this
          /\ Room.lastActivity this' = Room.lastActivity this
          /\ Room.document this' = Room.document this)
      /\ Forall (fun e => forall r m, e <> Broadcast r m) (Server.effects o)
      /\ (forall fields,
            payload = VObj fields ->
            Server.effects o
            = [Emit (operation_error "Invalid operation" payload
                       (Js.or (Js.get payload "id") (Js.get payload "timestamp")))]).
Proof.
  intros Hv. split; [by apply applyOperation_rejected|].
  intros st socket payload roomId Hb Hr ->. simpl.
  rewrite (document_operation_rejected _ _ _ _ _ _ _ Hb Hr Hv).
  split; [|split].
  - exists (Room.updateUserActivity this (Socket.id socket) now).
    split; [|split; [|split]].
    + destruct (Js.get_checked payload "id"); simpl; apply lookup_insert_eq.
    + apply updateUserActivity_operations.
    + apply updateUserActivity_lastActivity.
    + apply updateUserActivity_document.
  - destruct (Js.get_checked payload "id"); simpl.
    + by repeat constructor.
    + constructor.
  - by intros fields ->.
Qed.

Lemma rejected_operation_atomic_witness :
  Room.applyOperation 536870888 Example.hello (Spec.delete (Js.of_Z 5) (Js.of_Z 1)) 9
  = (Example.hello, Throw (Error "Invalid operation")).
Proof.
  apply (rejected_operation_atomic 536870888 Example.hello
           (Spec.delete (Js.of_Z 5) (Js.of_Z 1)) 9).
  reflexivity.
Defined.

Section ApplyFailure.

Variable maxStringLength : Z.

(** What the handler leaves behind when the apply step raises. *)
Lemma apply_step_raises_outcome (st : Server.t) (socket : Socket.t)
      (operation : jsval) (now : Z) (roomId : string) (room : Room.t) (error : js_error) :
  Socket.binding socket = Some roomId ->
  Server.rooms st !! roomId = Some room ->
  Room.isValidOperation room (VObj (Server.enhance socket roomId operation now)) = true ->
  Room.applyOperationToDocument_try maxStringLength (Room.document room)
    (VObj (Server.enhance socket roomId operation now)) = Throw error ->
  let o := Server.document_operation maxStringLength st socket operation now in
  (exists room',
      Server.rooms (Server.server o) !! roomId = Some room'
      /\ Room.document room' = Room.document room
      /\ Room.operations room'
         = Spec.history_after (Room.operations room)
             (<["appliedAt" := VDate now]> (Server.enhance socket roomId operation now)))
  /\ Server.effects o
     = [Broadcast roomId
          (document_update (Server.enhance socket roomId operation now));
        Emit (operation_ack true
                (Js.or (Js.get (VObj (Server.enhance socket roomId operation now)) "id")
                       (Js.get (VObj (Server.enhance socket roomId operation now))
                               "timestamp"))
                (Server.enhance socket roomId operation now))]
  /\ Server.uncaught o = None.
Proof.
  intros Hb Hr Hv Hraise. simpl.
  rewrite (document_operation_accepted _ _ _ _ _ _ _ Hb Hr Hv). simpl.
  set (room1 := Room.updateUserActivity room (Socket.id socket) now).
  assert (Room.isValidOperation room1
            (VObj (Server.enhance socket roomId operation now)) = true) as Hv1.
  { rewrite <- Hv. apply isValidOperation_document, updateUserActivity_document. }
  split; [|done]. eexists. split; [apply lookup_insert_eq|]. split.
  - unfold Room.applyOperation. rewrite Hv1. simpl.
    unfold Room.applyOperationToDocument.
    subst room1. by rewrite updateUserActivity_document, Hraise.
  - rewrite applyOperation_history by done.
    subst room1. by rewrite updateUserActivity_operations.
Qed.

Lemma enhance_lookup (socket : Socket.t) (roomId : string) (o : gmap string jsval)
      (now : Z) (k : string) :
  "roomId" <> k -> "timestamp" <> k -> "userId" <> k ->
  Server.enhance socket roomId (VObj o) now !! k = o !! k.
Proof. intros. unfold Server.enhance. simpl. by rewrite !lookup_insert_ne. Qed.

(** Whenever the apply step raises, what the specification announces
    does not happen. *)
Lemma apply_failure_never_reported (st : Server.t) (socket : Socket.t)
      (operation : jsval) (now : Z) :
  Spec.apply_step_raises maxStringLength st socket operation now ->
  ~ Spec.apply_failure_reported maxStringLength st socket operation now.
Proof.
  intros (roomId & room & error & Hb & Hr & Hv & Hraise) (_ & Hex & _).
  destruct (apply_step_raises_outcome _ _ _ _ _ _ _ Hb Hr Hv Hraise) as (_ & He & _).
  rewrite He in Hex.
  inversion Hex as [? ? H|? ? H]; [done|].
  inversion H as [? ? H'|? ? H']; [done|]. inversion H'.
Qed.

(** Whatever the limit of the engine, a document that fills it makes the
    apply step of a one-unit insert raise. *)
Lemma apply_step_can_raise (st : Server.t) (socket : Socket.t) (now : Z)
      (roomId : string) (room : Room.t) :
  Socket.binding socket = Some roomId ->
  Server.rooms st !! roomId = Some room ->
  Z.of_nat (String.length (Room.document room)) = maxStringLength ->
  Spec.apply_step_raises maxStringLength st socket (Spec.insert (Js.of_Z 0) "X") now.
Proof.
  intros Hb Hr Hfull. exists roomId, room, (RangeError "Invalid string length").
  split; [done|]. split; [done|].
  unfold Spec.insert. split.
  - apply isValidOperation_accepts. eexists _, (Js.of_Z 0).
    split; [done|]. split; [by rewrite enhance_lookup|]. split.
    + simpl. split; [apply Qle_refl|].
      change 0%Q with (inject_Z 0). rewrite <- Zle_Qle. lia.
    + left. split; [by rewrite enhance_lookup|].
      exists "X". split; [by rewrite enhance_lookup|done].
  - unfold Room.applyOperationToDocument_try. simpl.
    rewrite !enhance_lookup by done.
    repeat (rewrite lookup_insert_eq || rewrite lookup_insert_ne by done). simpl.
    rewrite slice_to, slice_from.
    assert (Spec.offset (Room.document room) (Js.of_Z 0) = 0%nat) as ->.
    { by apply offset_integer; [|lia]. }
    rewrite substring_nil, Nat.sub_0_r, substring_all. unfold Js.concat. simpl.
    destruct (Z.ltb_spec maxStringLength (Z.of_nat 1)); [done|]. simpl.
    destruct (Z.ltb_spec maxStringLength
                (Z.of_nat (S (String.length (Room.document room))))); [done|lia].
Qed.

End ApplyFailure.

(** C3 (as amended). When the body of the apply step raises, the
    exception is caught inside applyOperationToDocument: the document of
    the room ends equal to its contents before the operation, the
    operation is logged in the history all the same, applyOperation
    reports success, and so the other members are sent the
    document-update and the sender an operation-ack, not an
    operation-error. *)
Theorem apply_failure_swallowed (maxStringLength : Z) (st : Server.t)
        (socket : Socket.t) (operation : jsval) (now : Z) :
  Spec.apply_step_raises maxStringLength st socket operation now ->
  let o := Server.document_operation maxStringLength st socket operation now in
  Spec.document_kept st socket o
  /\ exists roomId room room',
      Socket.binding socket = Some roomId
      /\ Server.rooms st !! roomId = Some room
      /\ Server.rooms (Server.server o) !! roomId = Some room'
      /\ Room.operations room'
         = Spec.history_after (Room.operations room)
             (<["appliedAt" := VDate now]> (Server.enhance socket roomId operation now))
      /\ Server.effects o
         = [Broadcast roomId
              (document_update (Server.enhance socket roomId operation now));
            Emit (operation_ack true
                    (Js.or (Js.get (VObj (Server.enhance socket roomId operation now)) "id")
                           (Js.get (VObj (Server.enhance socket roomId operation now))
                                   "timestamp"))
                    (Server.enhance socket roomId operation now))]
      /\ Server.uncaught o = None.
Proof.
  intros (roomId & room & error & Hb & Hr & Hv & Hraise).
  destruct (apply_step_raises_outcome maxStringLength _ _ _ _ _ _ _ Hb Hr Hv Hraise)
    as ((room' & Hr' & Hdoc & Hops) & He & Hu).
  split.
  - intros roomId' room0 Hb' Hr0. rewrite Hb in Hb'. injection Hb' as <-.
    rewrite Hr in Hr0. injection Hr0 as <-. eauto.
  - exists roomId, room, room'. done.
Qed.

(** C3 as worded fails. With the welcome document filling the engine's
    string limit, the insert of X at position 0 is accepted, the
    concatenation in the apply step raises, and yet the handler sends no
    operation-error and does broadcast the document-update. *)
Lemma apply_failure_not_reported :
  Spec.apply_step_raises 141 (Server.server Example.created)
    (Server.socket Example.created) (Spec.insert (Js.of_Z 0) "X") 5
  /\ ~ Spec.apply_failure_reported 141 (Server.server Example.created)
         (Server.socket Example.created) (Spec.insert (Js.of_Z 0) "X") 5.
Proof.
  split.
  - eexists "ABC123", _, _. split; [reflexivity|]. split; [reflexivity|].
    split; [reflexivity|]. vm_compute. reflexivity.
  - intros (_ & Hex & _). vm_compute in Hex.
    inversion Hex as [? ? H|? ? H]; [done|].
    inversion H as [? ? H'|? ? H']; [done|]. inversion H'.
Qed.

Lemma apply_failure_swallowed_witness :
  Spec.document_kept (Server.server Example.created) (Server.socket Example.created)
    (Server.document_operation 141 (Server.server Example.created)
       (Server.socket Example.created) (Spec.insert (Js.of_Z 0) "X") 5).
Proof.
  apply (apply_failure_swallowed 141 (Server.server Example.created)
           (Server.socket Example.created) (Spec.insert (Js.of_Z 0) "X") 5).
  eexists "ABC123", _, _. split; [reflexivity|]. split; [reflexivity|].
  split; [reflexivity|]. vm_compute. reflexivity.
Defined.

(** ** The join-room exchange *)

Section JoinRoom.

Lemma upper_ascii_idempotent (c : Ascii.ascii) :
  Js.upper_ascii (Js.upper_ascii c) = Js.upper_ascii c.
Proof. destruct c as [[] [] [] [] [] [] [] []]; reflexivity. Qed.

Lemma toUpperCase_idempotent (s : string) :
  Js.toUpperCase (Js.toUpperCase s) = Js.toUpperCase s.
Proof.
  induction s as [|c s IH]; simpl; [done|]. by rewrite upper_ascii_idempotent, IH.
Qed.







End JoinRoom.






(** ** create-room and disconnect *)

Section CreateRoom.

Lemma truthy_or (a b : jsval) : Js.truthy b = true -> Js.truthy (Js.or a b) = true.
Proof. intros H. unfold Js.or. by destruct (Js.truthy a) eqn:E. Qed.

Lemma generated_name_truthy (n : nat) : Js.truthy (generateUserName n) = true.
Proof.
  unfold generateUserName. destruct (Nat.ltb_spec n (length userNames)) as [H|H]; [|done].
  simpl in H. do 12 (destruct n as [|n]; [done|]). lia.
Qed.

Lemma next_color_truthy (i : nat) : Js.truthy (getNextUserColor i).1 = true.
Proof.
  unfold getNextUserColor. cbn [fst].
  pose proof (Nat.mod_upper_bound i (length userColors)) as H.
  destruct (i mod length userColors)%nat as [|n]; [done|].
  simpl in H. do 11 (destruct n as [|n]; [done|]). lia.
Qed.

Lemma generateRoomId_length (random36 : string) :
  (8 <= String.length random36)%nat -> String.length (generateRoomId random36) = 6%nat.
Proof.
  intros H. unfold generateRoomId, Js.slice_range.
  rewrite length_toUpperCase, length_substring. lia.
Qed.

(** What create-room leaves behind. *)
Lemma create_room_outcome (st : Server.t) (socket : Socket.t) (data : jsval)
      (callback : bool) (random36 : string) (now : Z) :
  exists user room effects,
    Server.create_room st socket data callback random36 now
    = Server.finish
        {| Server.rooms := <[generateRoomId random36 := room]> (Server.rooms st);
           Server.colorIndex := S (Server.colorIndex st) |}
        (Socket.set_roomId (Socket.join socket (generateRoomId random36))
           (generateRoomId random36))
        effects None
    /\ Room.users room = {[ Socket.id socket := user ]}
    /\ Room.maxUsers room = 10%nat
    /\ Room.operations room = []
    /\ Forall (fun e => exists payload, e = Callback payload) effects.
Proof.
  unfold Server.create_room.
  destruct (getNextUserColor (Server.colorIndex st)) as [color index'] eqn:Hcolor.
  assert (index' = S (Server.colorIndex st)) as -> by (by injection Hcolor).
  assert (Js.truthy color = true) as Hc.
  { pose proof (next_color_truthy (Server.colorIndex st)) as H. by rewrite Hcolor in H. }
  unfold Room.addUser. cbn [Room.constructor Room.maxUsers Room.users UserData.name
                            UserData.color].
  rewrite map_size_empty. cbn [Nat.leb].
  rewrite truthy_or by apply generated_name_truthy. rewrite Hc. cbn [negb orb].
  eexists _, _, _. split; [reflexivity|]. split; [reflexivity|].
  split; [reflexivity|]. split; [reflexivity|].
  destruct callback; repeat constructor. eauto.
Qed.

End CreateRoom.

(** ** The health endpoint *)

(** C8 against the code: every GET /health is answered by the first
    registration, whose body carries the number of rooms under rooms and
    no server object, so it does not have the shape of the
    specification; the body of the second registration, which is never
    served, has it. *)
Theorem health_served_by_first_registration (st : Server.t) (p : Http.process) :
  Http.get st ["health"] p = Some (Http.health_basic st ∅ p)
  /\ ~ Spec.health_shape st p (Http.body (Http.health_basic st ∅ p))
  /\ Spec.health_shape st p (Http.body (Http.health_enhanced st ∅ p)).
Proof.
  split; [reflexivity|]. split.
  - intros (_ & _ & _ & _ & _ & H). discriminate H.
  - repeat split; reflexivity.
Qed.

(** ** The invariant of the process *)

Section Invariant.

Variable maxStringLength : Z.

Lemma grows_refl (room : Room.t) : System.grows room room.
Proof. by split. Qed.

Lemma extends_refl (rooms : gmap string Room.t) : System.extends rooms rooms.
Proof.
  split.
  - intros roomId room H. exists room. split; [done|apply grows_refl].
  - intros roomId room H. left. exists room. split; [done|apply grows_refl].
Qed.

Lemma extends_update (rooms : gmap string Room.t) (roomId : string) (room room' : Room.t) :
  rooms !! roomId = Some room -> System.grows room room' ->
  System.extends rooms (<[roomId := room']> rooms).
Proof.
  intros Hr Hg. split.
  - intros R room0 H. destruct (decide (roomId = R)) as [<-|Hne].
    + rewrite Hr in H. injection H as <-. exists room'. by rewrite lookup_insert_eq.
    + exists room0. rewrite lookup_insert_ne by done. split; [done|apply grows_refl].
  - intros R room0 H. left. destruct (decide (roomId = R)) as [<-|Hne].
    + rewrite lookup_insert_eq in H. injection H as <-. eauto.
    + rewrite lookup_insert_ne in H by done. exists room0. split; [done|apply grows_refl].
Qed.

Lemma extends_create (rooms : gmap string Room.t) (roomId : string) (room' : Room.t) :
  rooms !! roomId = None -> System.room_ok room' ->
  System.extends rooms (<[roomId := room']> rooms).
Proof.
  intros Hr Hok. split.
  - intros R room0 H. exists room0. split; [|apply grows_refl].
    rewrite lookup_insert_ne; [done|]. intros <-. congruence.
  - intros R room0 H. destruct (decide (roomId = R)) as [<-|Hne].
    + rewrite lookup_insert_eq in H. injection H as <-. by right.
    + rewrite lookup_insert_ne in H by done. left. exists room0.
      split; [done|apply grows_refl].
Qed.

Lemma room_ok_bounded (room : Room.t) :
  System.room_ok room <-> Room.maxUsers room = 10%nat /\ Spec.bounded room.
Proof. unfold System.room_ok, Spec.bounded. tauto. Qed.

Lemma grows_step (room : Room.t) (c : Spec.call) :
  (forall userId now, c <> Spec.removeUser userId now) ->
  System.grows room (Spec.step maxStringLength room c).
Proof.
  intros Hc. split.
  - intros id Hid. destruct c; simpl.
    + unfold Room.addUser. repeat case_match; try done. simpl.
      destruct (decide (userId = id)) as [->|Hne].
      * rewrite lookup_insert_eq. eauto.
      * by rewrite lookup_insert_ne.
    + by destruct (Hc userId now).
    + unfold Room.applyOperation. by case_match.
  - rewrite !room_ok_bounded. intros [Hmax Hb]. split.
    + by rewrite step_maxUsers.
    + by apply step_bounded.
Qed.

Lemma grows_updateUserActivity (room : Room.t) (userId : string) (now : Z) :
  System.grows room (Room.updateUserActivity room userId now).
Proof.
  unfold Room.updateUserActivity. destruct (Room.users room !! userId) eqn:Hu;
    [|apply grows_refl].
  split.
  - intros id Hid. simpl. destruct (decide (userId = id)) as [->|Hne].
    + rewrite lookup_insert_eq. eauto.
    + by rewrite lookup_insert_ne.
  - intros (Hmax & Hsize & Hops). split; [done|]. split; [|done]. simpl.
    by rewrite map_size_insert, Hu.
Qed.

Lemma grows_trans (a b c : Room.t) : System.grows a b -> System.grows b c -> System.grows a c.
Proof. intros [H1 H2] [H3 H4]. split; eauto. Qed.

Lemma bound_extends (rooms rooms' : gmap string Room.t) (id : string) (socket : Socket.t) :
  System.extends rooms rooms' -> System.bound rooms id socket ->
  System.bound rooms' id socket.
Proof.
  intros [Hext _] [Hid Hb]. split; [done|]. intros roomId Hr.
  destruct (Hb roomId Hr) as (Hlen & Hup & room & Hroom & Hmem).
  split; [done|]. split; [done|].
  destruct (Hext roomId room Hroom) as (room' & Hroom' & Hg & _). eauto.
Qed.

Lemma sound_same (id : string) (st : Server.t) (socket : Socket.t)
      (effects : list effect) (uncaught : option js_error) :
  System.sound id st socket (Server.finish st socket effects uncaught).
Proof. split; [apply extends_refl|done]. Qed.

Lemma sound_colour (id : string) (st : Server.t) (socket : Socket.t) (roomId : string)
      (room : Room.t) (index : nat) (effects : list effect) (uncaught : option js_error) :
  Server.rooms st !! roomId = Some room ->
  System.sound id st socket
    (Server.finish {| Server.rooms := <[roomId := room]> (Server.rooms st);
                    Server.colorIndex := index |} socket effects uncaught).
Proof.
  intros Hr. assert (System.extends (Server.rooms st) (<[roomId := room]> (Server.rooms st))).
  { apply (extends_update _ _ room); [done|apply grows_refl]. }
  split; [done|]. by apply bound_extends.
Qed.

Lemma toUpperCase_generateRoomId (random36 : string) :
  Js.toUpperCase (generateRoomId random36) = generateRoomId random36.
Proof. apply toUpperCase_idempotent. Qed.

Lemma create_room_sound (id : string) (st : Server.t) (socket : Socket.t) (data : jsval)
      (callback : bool) (random36 : string) (now : Z) :
  Socket.id socket = id ->
  (8 <= String.length random36)%nat ->
  Server.rooms st !! generateRoomId random36 = None ->
  System.sound id st socket (Server.create_room st socket data callback random36 now).
Proof.
  intros Hid Hlen Hfresh.
  destruct (create_room_outcome st socket data callback random36 now)
    as (user & room & effects & -> & Husers & Hmax & Hops & _).
  split.
  - apply extends_create; [done|]. split; [done|]. rewrite Husers, Hops.
    rewrite map_size_singleton. simpl. lia.
  - intros _. split; [done|]. intros roomId [= <-].
    split; [by apply generateRoomId_length|].
    split; [apply toUpperCase_generateRoomId|].
    exists room. simpl. rewrite lookup_insert_eq. split; [done|].
    rewrite Husers, <- Hid, lookup_singleton_eq. eauto.
Qed.

(** The three ways the [try] block of join-room ends: nothing changed;
    the colour counter advanced (the room threw); the socket joined. *)
Lemma join_room_try_cases (st : Server.t) (socket : Socket.t) (roomId userName : jsval)
      (now : Z) :
  (exists effects,
      Server.join_room_try st socket roomId userName now
      = Server.finish st socket effects None)
  \/ (exists s room effects,
        Server.rooms st !! Js.toUpperCase s = Some room
        /\ Server.join_room_try st socket roomId userName now
           = Server.finish {| Server.rooms := <[Js.toUpperCase s := room]> (Server.rooms st);
                            Server.colorIndex := S (Server.colorIndex st) |}
                         socket effects None)
  \/ (exists s room userData effects,
        String.length s = 6%nat
        /\ Server.rooms st !! Js.toUpperCase s = Some room
        /\ Server.join_room_try st socket roomId userName now
           = Server.finish
               {| Server.rooms :=
                    <[Js.toUpperCase s :=
                        Spec.step maxStringLength room
                          (Spec.addUser (Socket.id socket) userData now)]>
                      (Server.rooms st);
                  Server.colorIndex := S (Server.colorIndex st) |}
               (Socket.set_roomId (Socket.join socket (Js.toUpperCase s))
                  (Js.toUpperCase s))
               effects None
        /\ is_Some (Room.users
                      (Spec.step maxStringLength room
                         (Spec.addUser (Socket.id socket) userData now))
                    !! Socket.id socket)).
Proof.
  unfold Server.join_room_try. destruct roomId; eauto.
  destruct (String.eqb s "" || negb (String.length s =? 6)%nat) eqn:Hfmt; eauto.
  apply orb_false_iff in Hfmt as [_ Hlen]. apply negb_false_iff, Nat.eqb_eq in Hlen.
  destruct (Server.rooms st !! Js.toUpperCase s) as [room|] eqn:Hr; eauto.
  case_bool_decide; eauto. case_bool_decide; eauto.
  destruct (getNextUserColor (Server.colorIndex st)) as [color index'] eqn:Hcolor.
  assert (index' = S (Server.colorIndex st)) as -> by (by injection Hcolor).
  match goal with
  | |- context [Room.addUser room (Socket.id socket) ?u now] => set (userData := u)
  end.
  destruct (Room.addUser room (Socket.id socket) userData now) as [room' added] eqn:Hadd.
  destruct added as [[]|error].
  - right; right. exists s, room, userData. eexists. split; [done|]. split; [done|].
    simpl. rewrite Hadd. simpl. split; [reflexivity|].
    unfold Room.addUser in Hadd. repeat case_match; simplify_eq.
    simpl. rewrite lookup_insert_eq. eauto.
  - right; left. exists s, room. eexists. split; [done|].
    assert (room' = room) as ->; [|reflexivity].
    unfold Room.addUser in Hadd. by repeat case_match; simplify_eq.
Qed.

Lemma join_room_try_sound (id : string) (st : Server.t) (socket : Socket.t)
      (roomId userName : jsval) (now : Z) :
  Socket.id socket = id ->
  System.sound id st socket (Server.join_room_try st socket roomId userName now).
Proof.
  intros Hid.
  destruct (join_room_try_cases st socket roomId userName now)
    as [(effects & ->)|[(s & room & effects & Hr & ->)
                       |(s & room & userData & effects & Hlen & Hr & -> & Hmem)]].
  - apply sound_same.
  - by apply sound_colour.
  - assert (System.extends (Server.rooms st)
              (<[Js.toUpperCase s :=
                   Spec.step maxStringLength room
                     (Spec.addUser (Socket.id socket) userData now)]> (Server.rooms st)))
      as Hext.
    { apply (extends_update _ _ room); [done|]. by apply grows_step. }
    split; [done|]. intros _. split; [done|]. intros R [= <-].
    split; [by rewrite length_toUpperCase|]. split; [apply toUpperCase_idempotent|].
    eexists. simpl. rewrite lookup_insert_eq. split; [done|]. by rewrite <- Hid.
Qed.

Lemma join_room_sound (id : string) (st : Server.t) (socket : Socket.t) (data : jsval)
      (now : Z) :
  Socket.id socket = id ->
  System.sound id st socket (Server.join_room st socket data now).
Proof.
  intros Hid. destruct data; unfold Server.join_room;
    try apply sound_same; by apply (join_room_try_sound id).
Qed.

Lemma document_operation_sound (id : string) (st : Server.t) (socket : Socket.t)
      (operation : jsval) (now : Z) :
  System.sound id st socket
    (Server.document_operation maxStringLength st socket operation now).
Proof.
  unfold Server.document_operation.
  destruct (Socket.binding socket) as [roomId|]; [|apply sound_same].
  destruct (Server.rooms st !! roomId) as [room|] eqn:Hr; [|apply sound_same].
  set (room1 := Room.updateUserActivity room (Socket.id socket) now).
  set (op := VObj (Server.enhance socket roomId operation now)).
  assert (System.extends (Server.rooms st)
            (<[roomId := (Room.applyOperation maxStringLength room1 op now).1]>
               (Server.rooms st))) as Hext.
  { apply (extends_update _ _ room); [done|].
    eapply grows_trans; [apply grows_updateUserActivity|].
    by apply (grows_step room1 (Spec.applyOperation op now)). }
  destruct (Room.applyOperation maxStringLength room1 op now) as [room' result].
  simpl in Hext.
  assert (forall effects uncaught,
            System.sound id st socket
              (Server.finish (Server.set_rooms st (<[roomId := room']> (Server.rooms st)))
                           socket effects uncaught)) as Hs.
  { intros. split; [done|]. by apply bound_extends. }
  destruct result as [result|error].
  - destruct (ApplyResult.success result); apply Hs.
  - destruct (Js.get_checked operation "id"); apply Hs.
Qed.

Lemma cursor_position_sound (id : string) (st : Server.t) (socket : Socket.t)
      (position : jsval) :
  System.sound id st socket (Server.cursor_position st socket position).
Proof.
  unfold Server.cursor_position.
  destruct (Socket.binding socket) as [roomId|]; [|apply sound_same].
  destruct (Server.rooms st !! roomId) as [room|] eqn:Hr; [|apply sound_same].
  destruct (Room.users room !! Socket.id socket) as [user|] eqn:Hu; [|apply sound_same].
  match goal with
  | |- context [<[roomId := ?r]> (Server.rooms st)] => set (room' := r)
  end.
  assert (System.extends (Server.rooms st) (<[roomId := room']> (Server.rooms st))) as Hext.
  { apply (extends_update _ _ room); [done|]. split.
    - intros i Hi. subst room'. simpl.
      destruct (decide (Socket.id socket = i)) as [<-|Hne].
      + rewrite lookup_insert_eq. eauto.
      + by rewrite lookup_insert_ne.
    - intros (Hmax & Hsize & Hops). split; [done|]. split; [|done].
      subst room'. simpl. by rewrite map_size_insert, Hu. }
  split; [done|]. by apply bound_extends.
Qed.

Lemma handle_sound (id : string) (st : Server.t) (socket : Socket.t)
      (r : System.request) (now : Z) :
  Socket.id socket = id ->
  System.well_drawn st r ->
  r <> System.disconnect ->
  System.sound id st socket (System.handle maxStringLength st socket r now).
Proof.
  intros Hid Hdrawn Hr. destruct r; simpl.
  - destruct Hdrawn. by apply create_room_sound.
  - by apply join_room_sound.
  - apply document_operation_sound.
  - apply cursor_position_sound.
  - unfold Server.language_change. repeat case_match; apply sound_same.
  - unfold Server.request_sync. repeat case_match; apply sound_same.
  - done.
Qed.

Lemma members_nonempty (room : Room.t) (id : string) :
  is_Some (Room.users room !! id) -> (size (Room.users room) =? 0)%nat = false.
Proof.
  intros [user Hu]. apply Nat.eqb_neq. intros Hsize.
  apply map_size_empty_iff in Hsize. rewrite Hsize in Hu. by rewrite lookup_empty in Hu.
Qed.

Lemma binding_bound (rooms : gmap string Room.t) (id : string) (socket : Socket.t)
      (roomId : string) :
  System.bound rooms id socket -> Socket.binding socket = Some roomId ->
  Socket.roomId socket = Some roomId.
Proof.
  intros _. unfold Socket.binding. destruct (Socket.roomId socket) as [r|]; [|done].
  by case_match; [|intros [= ->]].
Qed.

Lemma disconnect_invariant (st : System.t) (id : string) (socket : Socket.t) (now : Z) :
  System.invariant st ->
  System.sockets st !! id = Some socket ->
  System.invariant
    {| System.server := Server.server (Server.disconnect (System.server st) socket now);
       System.sockets := delete id (System.sockets st) |}.
Proof.
  intros [Hb Hok] Hs. pose proof (Hb id socket Hs) as [Hid _].
  assert (forall rooms',
            (forall R room id',
                Server.rooms (System.server st) !! R = Some room ->
                id' <> id -> is_Some (Room.users room !! id') ->
                exists room', rooms' !! R = Some room'
                              /\ is_Some (Room.users room' !! id')) ->
            (forall R room', rooms' !! R = Some room' -> System.room_ok room') ->
            System.invariant
              {| System.server := Server.set_rooms (System.server st) rooms';
                 System.sockets := delete id (System.sockets st) |}) as Hgen.
  { intros rooms' Hkeep Hok'. split; [|done].
    intros id' socket' Hs'. simpl in Hs'.
    apply lookup_delete_Some in Hs' as [Hne Hs'].
    destruct (Hb id' socket' Hs') as [Hid' Hb']. split; [done|].
    intros R HR. destruct (Hb' R HR) as (Hlen & Hup & room & Hroom & Hmem).
    split; [done|]. split; [done|]. simpl. by apply (Hkeep R room). }
  assert (System.invariant
            {| System.server := System.server st;
               System.sockets := delete id (System.sockets st) |}) as Hsame.
  { split; [|done]. intros id' socket' Hs'. simpl in Hs'.
    apply lookup_delete_Some in Hs' as [Hne Hs']. by apply Hb. }
  unfold Server.disconnect.
  change (Socket.binding _) with (Socket.binding socket). simpl.
  destruct (Socket.binding socket) as [roomId|]; [|done].
  destruct (Server.rooms (System.server st) !! roomId) as [room|] eqn:Hr; [|done].
  destruct (Room.removeUser room id now) as [room' removed] eqn:Hrm. rewrite Hid.
  rewrite Hrm. simpl.
  assert (forall id', id' <> id -> is_Some (Room.users room !! id') ->
                      is_Some (Room.users room' !! id')) as Hmem.
  { intros id' Hne Hin. unfold Room.removeUser in Hrm.
    destruct (Room.users room !! id); simplify_eq; [|done].
    simpl. by rewrite lookup_delete_ne. }
  assert (System.room_ok room') as Hok'.
  { destruct (Hok roomId room Hr) as (Hmax & Hsize & Hops).
    unfold Room.removeUser in Hrm.
    destruct (Room.users room !! id) eqn:Hu; simplify_eq; [|done].
    split; [done|]. split; [|done]. simpl. rewrite map_size_delete, Hu. lia. }
  apply Hgen.
  - intros R room0 id' Hroom0 Hne Hin. destruct (decide (roomId = R)) as [<-|HneR].
    + rewrite Hr in Hroom0. injection Hroom0 as <-.
      rewrite (members_nonempty room' id') by by apply Hmem.
      exists room'. rewrite lookup_insert_eq. split; [done|]. by apply Hmem.
    + exists room0. split; [|done].
      case_match; [by rewrite lookup_delete_ne | by rewrite lookup_insert_ne].
  - intros R room0. case_match.
    + intros H'. apply lookup_delete_Some in H' as [_ H']. by apply (Hok R).
    + intros H'. destruct (decide (roomId = R)) as [<-|HneR].
      * rewrite lookup_insert_eq in H'. by injection H' as <-.
      * rewrite lookup_insert_ne in H' by done. by apply (Hok R).
Qed.

Lemma cleanup_invariant (st : System.t) (now : Z) :
  System.invariant st ->
  System.invariant
    {| System.server := Server.cleanupInactiveRooms (System.server st) now;
       System.sockets := System.sockets st |}.
Proof.
  intros [Hb Hok]. split.
  - intros id socket Hs. destruct (Hb id socket Hs) as [Hid Hb']. split; [done|].
    intros R HR. destruct (Hb' R HR) as (Hlen & Hup & room & Hroom & Hmem).
    split; [done|]. split; [done|]. exists room. split; [|done]. simpl.
    apply map_lookup_filter_Some. split; [done|]. simpl.
    unfold Room.shouldCleanup. by rewrite (members_nonempty room id).
  - intros R room H. simpl in H. apply map_lookup_filter_Some in H as [H _].
    by apply (Hok R).
Qed.

Lemma step_invariant (st st' : System.t) :
  System.step maxStringLength st st' -> System.invariant st -> System.invariant st'.
Proof.
  intros Hstep Hinv. destruct Hstep as [st id Hfresh|st id socket r now Hs Hdrawn _|st now].
  - destruct Hinv as [Hb Hok]. split; [|done]. intros id' socket' Hs'. simpl in *.
    destruct (decide (id = id')) as [<-|Hne].
    + rewrite lookup_insert_eq in Hs'. injection Hs' as <-. split; [done|]. done.
    + rewrite lookup_insert_ne in Hs' by done. by apply Hb.
  - assert (r = System.disconnect \/ r <> System.disconnect) as [->|Hr].
    { destruct r; (by left) || by right. }
    { by apply disconnect_invariant. }
    pose proof Hinv as [Hb Hok]. destruct (Hb id socket Hs) as [Hid Hbound].
    destruct (handle_sound id (System.server st) socket r now Hid Hdrawn Hr)
      as [Hext Hsound].
    assert (System.after (System.sockets st) id
              (Server.socket (System.handle maxStringLength (System.server st) socket r now))
              r
            = <[id := Server.socket
                        (System.handle maxStringLength (System.server st) socket r now)]>
                (System.sockets st)) as ->.
    { by destruct r. }
    split.
    + intros id' socket' Hs'. simpl in *. destruct (decide (id = id')) as [<-|Hne].
      * rewrite lookup_insert_eq in Hs'. injection Hs' as <-. apply Hsound. by apply Hb.
      * rewrite lookup_insert_ne in Hs' by done. eapply bound_extends; [done|]. by apply Hb.
    + intros R room' H'. simpl in H'. destruct Hext as [_ Hnew].
      destruct (Hnew R room' H') as [(room & Hroom & _ & Hg)|]; [|done].
      apply Hg. by apply (Hok R).
  - by apply cleanup_invariant.
Qed.

Lemma initial_invariant : System.invariant System.initial.
Proof. split; intros ? ? H; simpl in H; by rewrite lookup_empty in H. Qed.

(** Every state the process reaches satisfies the invariant. *)
Lemma reachable_invariant (st : System.t) :
  System.reachable maxStringLength st -> System.invariant st.
Proof.
  intros H. eapply (rtc_ind_r System.invariant); [| |exact H].
  - apply initial_invariant.
  - intros y z _ Hstep IH. by eapply step_invariant.
Qed.

End Invariant.

(** The sample process is reachable: s1 connects, then creates its
    room. *)
Lemma running_reachable (maxStringLength : Z) :
  System.reachable maxStringLength Example.running.
Proof.
  eapply rtc_l; [apply (System.step_connect _ System.initial "s1"); reflexivity|].
  eapply rtc_l; [|apply rtc_refl].
  apply (System.step_request maxStringLength Example.connected "s1"
           (System.fresh_socket "s1")
           (System.create_room (VObj {["userName" := VStr "Alice"]}) true "0.abc123xyz") 0).
  - reflexivity.
  - split; [simpl; lia|reflexivity].
  - reflexivity.
Qed.





(** X1: The bounds of the specification hold of every room of every state
    the process reaches. *)
Lemma reachable_rooms_bounded (maxStringLength : Z) (st : System.t) (roomId : string)
      (room : Room.t) :
  System.reachable maxStringLength st ->
  Server.rooms (System.server st) !! roomId = Some room ->
  Spec.bounded room.
Proof.
  intros Hreach Hr. destruct (reachable_invariant maxStringLength st Hreach) as [_ Hok].
  by apply room_ok_bounded, (Hok roomId).
Qed.

(** ** Members of a room *)




(** ** The history window and the round trip of an insert *)

Lemma history_after_window (history : list (gmap string jsval)) (entry : gmap string jsval) :
  length (Spec.history_after history entry) = (S (length history) `min` 1000)%nat
  /\ last (Spec.history_after history entry) = Some entry
  /\ (length history = 1000%nat ->
      Spec.history_after history entry = drop 1 history ++ [entry]).
Proof.
  unfold Spec.history_after. rewrite length_app. simpl. repeat split.
  - rewrite length_drop, length_app. simpl. lia.
  - rewrite drop_app_le by lia. apply last_snoc.
  - intros H. rewrite H. replace (1000 + 1 - 1000)%nat with 1%nat by lia.
    apply drop_app_le. lia.
Qed.

(** X3: An accepted operation is the last entry of the history, and the
    length of the history, which the handlers send as the version of
    the document, is one more than before only below 1000: from a
    history of 1000 entries the oldest is dropped and the length stays
    1000. *)
Theorem applyOperation_window (maxStringLength : Z) (this : Room.t) (operation : jsval)
        (now : Z) :
  Room.isValidOperation this operation = true ->
  let this' := (Room.applyOperation maxStringLength this operation now).1 in
  let entry := <["appliedAt" := VDate now]> (Js.spread operation) in
  length (Room.operations this') = (S (length (Room.operations this)) `min` 1000)%nat
  /\ last (Room.operations this') = Some entry
  /\ (length (Room.operations this) = 1000%nat ->
      Room.operations this' = drop 1 (Room.operations this) ++ [entry]).
Proof.
  intros Hvalid this' entry. subst this'.
  rewrite (applyOperation_history maxStringLength this operation now Hvalid).
  apply history_after_window.
Qed.

Lemma applyOperation_window_witness :
  last (Room.operations
          (Room.applyOperation 536870888 Example.hello (Spec.insert (Js.of_Z 1) "x") 7).1)
  = Some (<["appliedAt" := VDate 7]> (Js.spread (Spec.insert (Js.of_Z 1) "x"))).
Proof.
  apply (applyOperation_window 536870888 Example.hello (Spec.insert (Js.of_Z 1) "x") 7).
  reflexivity.
Defined.

Lemma units_inj (a b : string) : Spec.units a = Spec.units b -> a = b.
Proof.
  unfold Spec.units. intros H.
  rewrite <- (String.string_of_list_ascii_of_string a), H.
  apply String.string_of_list_ascii_of_string.
Qed.

Lemma of_nat_integer (n : nat) : Spec.integer (Js.of_nat n) (Z.of_nat n).
Proof. unfold Js.of_nat, Js.of_Z. simpl. reflexivity. Qed.

Lemma applyOperation_document (maxStringLength : Z) (this : Room.t) (operation : jsval)
      (now : Z) :
  Room.isValidOperation this operation = true ->
  Room.document (Room.applyOperation maxStringLength this operation now).1
  = Room.applyOperationToDocument maxStringLength (Room.document this) operation.
Proof. intros H. unfold Room.applyOperation. by rewrite H. Qed.

Lemma inserted_units (maxStringLength : Z) (document content : string) (p : nat) :
  (p <= String.length document)%nat ->
  Z.of_nat (String.length document + String.length content) <= maxStringLength ->
  Spec.units (Room.applyOperationToDocument maxStringLength document
                (Spec.insert (Js.of_nat p) content))
  = take p (Spec.units document) ++ Spec.units content ++ drop p (Spec.units document).
Proof.
  intros Hp Hfit. unfold Spec.insert.
  rewrite (apply_insert maxStringLength document _ (Js.of_nat p) content) by done.
  rewrite !units_append, units_slice_to, units_slice_from.
  rewrite (offset_integer document (Js.of_nat p) p (of_nat_integer p) Hp).
  by rewrite <- app_assoc.
Qed.

Lemma deleted_units (maxStringLength : Z) (document : string) (p l : nat) :
  (0 < l)%nat -> (p + l <= String.length document)%nat ->
  Z.of_nat (String.length document) <= maxStringLength ->
  Spec.units (Room.applyOperationToDocument maxStringLength document
                (Spec.delete (Js.of_nat p) (Js.of_nat l)))
  = take p (Spec.units document) ++ drop (p + l) (Spec.units document).
Proof.
  intros Hl Hpl Hfit. unfold Spec.delete.
  assert (Hsum : Spec.offset document (Js.add (Js.of_nat p) (Js.of_nat l)) = (p + l)%nat).
  { apply Nat2Z.inj. change (Js.of_nat p) with (NFin (inject_Z (Z.of_nat p))).
    rewrite (offset_add document (inject_Z (Z.of_nat p)) (Js.of_nat l) (Z.of_nat l)).
    - rewrite (offset_integer document (NFin (inject_Z (Z.of_nat p))) p); [lia| |lia].
      simpl. reflexivity.
    - change 0%Q with (inject_Z 0). rewrite <- Zle_Qle. lia.
    - apply of_nat_integer.
    - lia.
    - simpl. rewrite <- inject_Z_plus, <- Zle_Qle. lia. }
  assert (Hpos : Spec.offset document (Js.of_nat p) = p).
  { apply offset_integer; [apply of_nat_integer|lia]. }
  rewrite (apply_delete maxStringLength document _ (Js.of_nat p) (Js.of_nat l));
    [|done|done|done|rewrite Hsum, Hpos; lia|done].
  by rewrite units_append, units_slice_to, units_slice_from, Hsum, Hpos.
Qed.

(** X4: An insert at a whole position within the document, followed by
    the delete of as many units at the same position, is accepted at
    both steps and gives back the document (the text built being within
    the engine's limit). *)
Theorem insert_delete_round_trip (maxStringLength : Z) (this : Room.t) (p : nat)
        (content : string) (now now' : Z) :
  (p <= String.length (Room.document this))%nat ->
  content <> "" ->
  Z.of_nat (String.length (Room.document this) + String.length content)
  <= maxStringLength ->
  let insertion := Spec.insert (Js.of_nat p) content in
  let deletion := Spec.delete (Js.of_nat p) (Js.of_nat (String.length content)) in
  let inserted := (Room.applyOperation maxStringLength this insertion now).1 in
  let deleted := (Room.applyOperation maxStringLength inserted deletion now').1 in
  Room.isValidOperation this insertion = true
  /\ Room.isValidOperation inserted deletion = true
  /\ Room.document deleted = Room.document this.
Proof.
  intros Hp Hcontent Hfit insertion deletion inserted deleted.
  assert (Hlen : (0 < String.length content)%nat) by by apply string_nonempty_length.
  assert (Hinsert : Room.isValidOperation this insertion = true).
  { apply isValidOperation_accepts. eexists _, _.
    split; [reflexivity|]. split; [reflexivity|]. split.
    - simpl. rewrite <- !Zle_Qle. change 0%Q with (inject_Z 0).
      rewrite <- Zle_Qle. lia.
    - left. split; [reflexivity|]. by exists content. }
  assert (Hunits : Spec.units (Room.document inserted)
                   = take p (Spec.units (Room.document this)) ++ Spec.units content
                     ++ drop p (Spec.units (Room.document this))).
  { subst inserted.
    rewrite (applyOperation_document maxStringLength this insertion now Hinsert).
    by apply inserted_units. }
  assert (Hgrown : String.length (Room.document inserted)
                   = (String.length (Room.document this) + String.length content)%nat).
  { rewrite <- !length_units, Hunits, !length_app, length_take, length_drop,
      !length_units. lia. }
  assert (Hdelete : Room.isValidOperation inserted deletion = true).
  { apply isValidOperation_accepts. eexists _, _.
    split; [reflexivity|]. split; [reflexivity|]. split.
    - simpl. rewrite <- !Zle_Qle. change 0%Q with (inject_Z 0).
      rewrite <- Zle_Qle. lia.
    - right. left. split; [reflexivity|]. exists (Js.of_nat (String.length content)).
      split; [reflexivity|]. split.
      + simpl. change 0%Q with (inject_Z 0). rewrite <- Zlt_Qlt. lia.
      + simpl. rewrite <- inject_Z_plus, <- Zle_Qle. lia. }
  split; [done|]. split; [done|].
  apply units_inj. subst deleted deletion.
  rewrite (applyOperation_document maxStringLength inserted _ now' Hdelete).
  rewrite (deleted_units maxStringLength (Room.document inserted) p
             (String.length content)) by lia.
  rewrite Hunits.
  rewrite take_app_le by (rewrite length_take, length_units; lia).
  rewrite take_take, Nat.min_id.
  rewrite app_assoc, drop_app_length'.
  - apply take_drop.
  - rewrite length_app, length_take, !length_units. lia.
Qed.

Lemma insert_delete_round_trip_witness :
  Room.document
    (Room.applyOperation 536870888
       (Room.applyOperation 536870888 Example.hello
          (Spec.insert (Js.of_nat 2) "xy") 1).1
       (Spec.delete (Js.of_nat 2) (Js.of_nat 2)) 2).1
  = "hello".
Proof.
  apply (insert_delete_round_trip 536870888 Example.hello 2 "xy" 1 2);
    [simpl; lia|discriminate|simpl; lia].
Defined.

(** ** Colours, names and identifiers *)

Lemma index_inj (xs : list string) (i j : nat) :
  NoDup xs -> (i < length xs)%nat -> (j < length xs)%nat ->
  Js.index xs i = Js.index xs j -> i = j.
Proof.
  intros Hnodup Hi Hj. unfold Js.index.
  destruct (lookup_lt_is_Some_2 xs i Hi) as [x Hx].
  destruct (lookup_lt_is_Some_2 xs j Hj) as [y Hy].
  rewrite Hx, Hy. intros [= ->]. by eapply NoDup_lookup.
Qed.

Lemma userColors_NoDup : NoDup userColors.
Proof. apply (bool_decide_unpack _). by vm_compute. Qed.

Lemma userNames_NoDup : NoDup userNames.
Proof. apply (bool_decide_unpack _). by vm_compute. Qed.

(** X5: The colours go round the palette of 12: two draws give the same
    colour exactly when the counter values agree modulo 12, so any 12
    consecutive draws are pairwise distinct; each draw advances the
    counter by one. *)
Theorem getNextUserColor_round_robin (i j : nat) :
  ((getNextUserColor i).1 = (getNextUserColor j).1 <-> (i mod 12 = j mod 12)%nat)
  /\ (getNextUserColor i).2 = S i
  /\ exists color, (getNextUserColor i).1 = VStr color /\ color ∈ userColors.
Proof.
  unfold getNextUserColor. change (length userColors) with 12%nat. cbn [fst snd].
  assert (Hi : (i mod 12 < 12)%nat) by (apply Nat.mod_upper_bound; lia).
  assert (Hj : (j mod 12 < 12)%nat) by (apply Nat.mod_upper_bound; lia).
  repeat split.
  - by apply index_inj; [apply userColors_NoDup| |].
  - by intros ->.
  - unfold Js.index. destruct (lookup_lt_is_Some_2 userColors (i mod 12)%nat Hi) as [x Hx].
    rewrite Hx. exists x. split; [done|]. by eapply list_elem_of_lookup_2.
Qed.

Lemma pool_name_not_numbered (i : nat) (s : string) :
  Js.index userNames i <> VStr ("User " +:+ s).
Proof.
  unfold Js.index.
  do 12 (destruct i as [|i]; [discriminate|]). discriminate.
Qed.

(** X6: The generated names are non-empty strings, and different member
    counts give different names: the first 12 are the names of the pool
    in order, the later ones are numbered from 13. *)
Theorem generateUserName_injective (n m : nat) :
  (exists name, generateUserName n = VStr name /\ name <> "")
  /\ (generateUserName n = generateUserName m <-> n = m).
Proof.
  split.
  - unfold generateUserName. change (length userNames) with 12%nat.
    destruct (Nat.ltb_spec n 12) as [Hn|Hn].
    + unfold Js.index. destruct (lookup_lt_is_Some_2 userNames n Hn) as [x Hx].
      rewrite Hx. exists x. split; [done|]. intros ->.
      apply list_elem_of_lookup_2 in Hx. revert Hx.
      apply (bool_decide_unpack _). by vm_compute.
    + eexists. split; [reflexivity|]. discriminate.
  - split; [|by intros ->].
    unfold generateUserName. change (length userNames) with 12%nat.
    destruct (Nat.ltb_spec n 12) as [Hn|Hn], (Nat.ltb_spec m 12) as [Hm|Hm].
    + by apply index_inj; [apply userNames_NoDup| |].
    + intros H. by apply pool_name_not_numbered in H.
    + intros H. symmetry in H. by apply pool_name_not_numbered in H.
    + intros [= H]. change (pretty (n + 1)%nat = pretty (m + 1)%nat) in H.
      apply (inj (@pretty nat _)) in H. lia.
Qed.




(** ** join-room: admission and refusals *)




(** The user data the join-room handler builds for a socket. *)
Lemma name_or (userName : jsval) (n : nat) :
  Js.truthy (Js.or userName (generateUserName n)) = true.
Proof. apply truthy_or, generated_name_truthy. Qed.








Lemma join_room_try_refusal (st : Server.t) (socket : Socket.t) (roomId userName : jsval)
      (now : Z) (error : string) :
  let o := Server.join_room_try st socket roomId userName now in
  Callback (ack_failure error) ∈ Server.effects o ->
  error ∈ ["Invalid room ID format"; "Room not found"; "Already in a different room";
           "Room is full"]
  /\ Server.effects o = [Callback (ack_failure error)]
  /\ Server.rooms (Server.server o) = Server.rooms st
  /\ Server.socket o = socket
  /\ Server.uncaught o = None.
Proof.
  intros o. subst o. unfold Server.join_room_try.
  assert (Hone : forall e : string,
             Callback (ack_failure error) ∈ [Callback (ack_failure e)] -> e = error).
  { intros e He. apply list_elem_of_singleton in He. congruence. }
  destruct roomId as [| | | |s| | |];
    try (simpl; intros <-%Hone; repeat split; set_solver).
  destruct (String.eqb s "" || negb (String.length s =? 6)%nat);
    [simpl; intros <-%Hone; repeat split; set_solver|].
  destruct (Server.rooms st !! Js.toUpperCase s) as [room|] eqn:Hroom;
    [|simpl; intros <-%Hone; repeat split; set_solver].
  destruct (bool_decide (Socket.roomId socket = Some (Js.toUpperCase s))).
  { simpl. intros H. apply list_elem_of_singleton in H. discriminate. }
  destruct (bool_decide (is_Some (Socket.binding socket)));
    [simpl; intros <-%Hone; repeat split; set_solver|].
  unfold getNextUserColor at 1. unfold Room.addUser.
  destruct (Room.maxUsers room <=? size (Room.users room))%nat.
  { simpl. intros <-%Hone. rewrite insert_id by done. repeat split; set_solver. }
  cbn [UserData.name UserData.color]. rewrite name_or.
  pose proof (next_color_truthy (Server.colorIndex st)) as Hc.
  unfold getNextUserColor in Hc. cbn [fst] in Hc. rewrite Hc. simpl.
  intros H. apply elem_of_cons in H as [H|H]; [discriminate|].
  apply list_elem_of_singleton in H. discriminate.
Qed.

(** X11: Whenever join-room answers with a failure, the failure is the
    only effect, its message is one of Invalid room ID format, Room not
    found, Already in a different room and Room is full (never Invalid
    user data), and the rooms and the socket are as before the
    request. *)
Theorem join_room_refusal (st : Server.t) (socket : Socket.t) (data : jsval) (now : Z)
        (error : string) :
  let o := Server.join_room st socket data now in
  Callback (ack_failure error) ∈ Server.effects o ->
  error ∈ ["Invalid room ID format"; "Room not found"; "Already in a different room";
           "Room is full"]
  /\ Server.effects o = [Callback (ack_failure error)]
  /\ Server.rooms (Server.server o) = Server.rooms st
  /\ Server.socket o = socket
  /\ Server.uncaught o = None.
Proof.
  intros o. subst o. unfold Server.join_room.
  destruct data; try apply join_room_try_refusal;
    simpl; intros H; by apply elem_of_nil in H.
Qed.

Lemma join_room_refusal_witness :
  Server.rooms
    (Server.server
       (Server.join_room (Server.server Example.created) (System.fresh_socket "s2")
          (VStr "zzz999") 3))
  = Server.rooms (Server.server Example.created).
Proof.
  apply (join_room_refusal (Server.server Example.created) (System.fresh_socket "s2")
           (VStr "zzz999") 3 "Room not found").
  vm_compute. apply list_elem_of_here.
Defined.

(** ** create-room *)



(** ** The handlers that read the binding *)

(** X13: A document-operation, cursor-position, language-change,
    request-sync or disconnect from a socket leaves every room other
    than the one the socket is bound to exactly as it was. *)
Theorem bound_requests_isolated (maxStringLength : Z) (st : Server.t) (socket : Socket.t)
        (r : System.request) (now : Z) (roomId : string) :
  match r with
  | System.create_room _ _ _ | System.join_room _ => False
  | _ => True
  end ->
  Socket.binding socket <> Some roomId ->
  Server.rooms (Server.server (System.handle maxStringLength st socket r now)) !! roomId
  = Server.rooms st !! roomId.
Proof.
  intros Hr Hother.
  destruct r as [? ? ?| |operation|position|data| |]; try done; simpl.
  - unfold Server.document_operation.
    destruct (Socket.binding socket) as [bound|] eqn:Hb; [|done].
    destruct (Server.rooms st !! bound) as [room|]; [|done].
    assert (Hne : bound <> roomId) by congruence.
    destruct (Room.applyOperation _ _ _ _) as [room' [result|error]].
    + destruct (ApplyResult.success result); simpl; by rewrite ?lookup_insert_ne.
    + destruct (Js.get_checked operation "id"); simpl; by rewrite lookup_insert_ne.
  - unfold Server.cursor_position.
    destruct (Socket.binding socket) as [bound|] eqn:Hb; [|done].
    destruct (Server.rooms st !! bound) as [room|]; [|done].
    assert (Hne : bound <> roomId) by congruence.
    destruct (Room.users room !! Socket.id socket); simpl; by rewrite ?lookup_insert_ne.
  - unfold Server.language_change.
    destruct (Socket.binding socket) as [bound|]; [|done].
    destruct (Server.rooms st !! bound) as [room|]; [|done].
    destruct (Room.users room !! Socket.id socket); [|done].
    by destruct (Js.get_checked data "language").
  - unfold Server.request_sync.
    destruct (Socket.binding socket) as [bound|]; [|done].
    by destruct (Server.rooms st !! bound).
  - unfold Server.disconnect.
    change (Socket.binding _) with (Socket.binding socket).
    destruct (Socket.binding socket) as [bound|] eqn:Hb; [|done].
    destruct (Server.rooms st !! bound) as [room|]; [|done].
    assert (Hne : bound <> roomId) by congruence.
    destruct (Room.removeUser room _ now) as [room' user].
    destruct (size (Room.users room') =? 0)%nat; simpl.
    + by rewrite lookup_delete_ne.
    + by rewrite lookup_insert_ne.
Qed.

Lemma bound_requests_isolated_witness :
  Server.rooms
    (Server.server
       (System.handle 536870888 (Server.server Example.created)
          (Server.socket Example.created) System.disconnect 9)) !! "XYZ789"
  = Server.rooms (Server.server Example.created) !! "XYZ789".
Proof.
  apply (bound_requests_isolated 536870888 (Server.server Example.created)
           (Server.socket Example.created) System.disconnect 9 "XYZ789");
    [exact I|discriminate].
Defined.

(** X14: Every document-update the handler broadcasts goes to the room
    the sender is bound to and carries the id of the sender's socket as
    userId, the server's clock as timestamp and the room id, whatever
    the client put in those fields; the other fields are the client's. *)
Theorem document_update_stamped (maxStringLength : Z) (st : Server.t) (socket : Socket.t)
        (operation : jsval) (now : Z) :
  Forall (fun e =>
            forall room update,
              e = Broadcast room (document_update update) ->
              Socket.binding socket = Some room
              /\ update !! "userId" = Some (VStr (Socket.id socket))
              /\ update !! "timestamp" = Some (VNum (Js.of_Z now))
              /\ update !! "roomId" = Some (VStr room)
              /\ forall k, k ∉ ["userId"; "timestamp"; "roomId"] ->
                           update !! k = Js.spread operation !! k)
         (Server.effects
            (Server.document_operation maxStringLength st socket operation now)).
Proof.
  unfold Server.document_operation.
  destruct (Socket.binding socket) as [bound|] eqn:Hb; [|by constructor].
  destruct (Server.rooms st !! bound) as [room|]; [|by constructor].
  destruct (Room.applyOperation _ _ _ _) as [room' [result|error]].
  - destruct (ApplyResult.success result); simpl; [|by constructor].
    constructor; [|constructor; [done|constructor]].
    intros room0 update [= <- <-]. unfold Server.enhance. repeat split.
    + by rewrite lookup_insert_ne, lookup_insert_ne, lookup_insert_eq.
    + by rewrite lookup_insert_ne, lookup_insert_eq.
    + by rewrite lookup_insert_eq.
    + intros k Hk. rewrite !lookup_insert_ne; [done|set_solver..].
  - destruct (Js.get_checked operation "id"); simpl; [constructor; [done|]|]; constructor.
Qed.



(** ** request-sync, cursor-position and disconnect *)

(** X16: request-sync changes neither the rooms nor the socket. A socket
    bound to a registered room receives the document, the length of the
    history as the version and the most recent entries of the history,
    at most 50 of them; any other socket receives the sync-error Room
    not found. *)
Theorem request_sync_reply (st : Server.t) (socket : Socket.t) (now : Z) :
  let o := Server.request_sync st socket now in
  Server.server o = st /\ Server.socket o = socket /\ Server.uncaught o = None
  /\ match Socket.binding socket ≫= (fun roomId => Server.rooms st !! roomId) with
     | Some room =>
         exists recent,
           Server.effects o
           = [Emit (document_sync (Room.document room) (length (Room.operations room))
                      recent now)]
           /\ recent `suffix_of` Room.operations room
           /\ length recent = (length (Room.operations room) `min` 50)%nat
     | None => Server.effects o = [Emit (sync_error "Room not found")]
     end.
Proof.
  intros o. subst o. unfold Server.request_sync.
  destruct (Socket.binding socket) as [roomId|]; simpl; [|done].
  destruct (Server.rooms st !! roomId) as [room|]; simpl; [|done].
  repeat split. exists (Js.array_slice (Room.operations room) (-50)).
  split; [reflexivity|]. change (-50) with (- Z.of_nat 50).
  rewrite (array_slice_last (Room.operations room) 50) by lia.
  split; [apply suffix_drop|]. rewrite length_drop. lia.
Qed.

(** X17: cursor-position adds and removes no room and no member, and
    leaves every document, history and activity time as it was; the
    presence records are as before except for the cursor of the sender,
    whose [lastSeen] is not refreshed. *)
Theorem cursor_position_frame (st : Server.t) (socket : Socket.t) (position : jsval)
        (roomId : string) :
  let o := Server.cursor_position st socket position in
  Server.socket o = socket
  /\ match Server.rooms st !! roomId, Server.rooms (Server.server o) !! roomId with
     | Some room, Some room' =>
         Room.document room' = Room.document room
         /\ Room.operations room' = Room.operations room
         /\ Room.lastActivity room' = Room.lastActivity room
         /\ forall id,
             match Room.users room !! id, Room.users room' !! id with
             | Some user, Some user' =>
                 User.name user' = User.name user
                 /\ User.color user' = User.color user
                 /\ User.joinedAt user' = User.joinedAt user
                 /\ User.lastSeen user' = User.lastSeen user
                 /\ (user' <> user ->
                     id = Socket.id socket /\ Socket.binding socket = Some roomId
                     /\ User.cursor user' = position)
             | None, None => True
             | _, _ => False
             end
     | None, None => True
     | _, _ => False
     end.
Proof.
  intros o. subst o. unfold Server.cursor_position.
  assert (Hsame : forall (P : string -> User.t -> Prop) (rooms : gmap string Room.t),
             match rooms !! roomId, rooms !! roomId with
             | Some room, Some room' =>
                 Room.document room' = Room.document room
                 /\ Room.operations room' = Room.operations room
                 /\ Room.lastActivity room' = Room.lastActivity room
                 /\ forall id,
                     match Room.users room !! id, Room.users room' !! id with
                     | Some user, Some user' =>
                         User.name user' = User.name user
                         /\ User.color user' = User.color user
                         /\ User.joinedAt user' = User.joinedAt user
                         /\ User.lastSeen user' = User.lastSeen user
                         /\ (user' <> user -> P id user')
                     | None, None => True
                     | _, _ => False
                     end
             | None, None => True
             | _, _ => False
             end).
  { intros P rooms. destruct (rooms !! roomId) as [room|]; [|done].
    repeat split. intros id. by destruct (Room.users room !! id). }
  destruct (Socket.binding socket) as [bound|] eqn:Hb;
    [|split; [done|apply (Hsame (fun id user' => _))]].
  destruct (Server.rooms st !! bound) as [room|] eqn:Hroom;
    [|split; [done|apply (Hsame (fun id user' => _))]].
  destruct (Room.users room !! Socket.id socket) as [user|] eqn:Huser;
    [|split; [done|apply (Hsame (fun id user' => _))]].
  split; [done|]. simpl.
  destruct (decide (bound = roomId)) as [->|Hne].
  - rewrite Hroom, lookup_insert_eq. repeat split. intros id. simpl.
    destruct (decide (Socket.id socket = id)) as [<-|Hid].
    + rewrite Huser, lookup_insert_eq. by repeat split.
    + rewrite lookup_insert_ne by done. by destruct (Room.users room !! id).
  - rewrite lookup_insert_ne by done. apply (Hsame (fun id user' => _)).
Qed.

(** X18: The disconnect of a socket bound to a registered room takes the
    socket out of the members and tells the room user-left. When no
    member remains the room is deleted from the registry at once;
    otherwise it stays, with its document and history as they were. *)
Theorem disconnect_leaves (st : Server.t) (socket : Socket.t) (now : Z) (roomId : string)
        (room : Room.t) :
  Socket.binding socket = Some roomId ->
  Server.rooms st !! roomId = Some room ->
  let o := Server.disconnect st socket now in
  let remaining := delete (Socket.id socket) (Room.users room) in
  Server.effects o = [Broadcast roomId (user_left (Socket.id socket))]
  /\ Server.uncaught o = None
  /\ (remaining = ∅ ->
      Server.rooms (Server.server o) = delete roomId (Server.rooms st))
  /\ (remaining <> ∅ ->
      exists room',
        Server.rooms (Server.server o) = <[roomId := room']> (Server.rooms st)
        /\ Room.users room' = remaining
        /\ Room.document room' = Room.document room
        /\ Room.operations room' = Room.operations room).
Proof.
  intros Hb Hroom o remaining. subst o. unfold Server.disconnect.
  change (Socket.binding _) with (Socket.binding socket). rewrite Hb, Hroom.
  cbn [Socket.id]. unfold Room.removeUser.
  assert (Hremaining : forall room' : Room.t,
             Room.users room' = remaining ->
             (size (Room.users room') =? 0)%nat = true <-> remaining = ∅).
  { intros room' ->. rewrite Nat.eqb_eq. apply map_size_empty_iff. }
  destruct (Room.users room !! Socket.id socket) as [user|] eqn:Huser.
  - match goal with
    | |- context [(size (Room.users ?r) =? 0)%nat] =>
        pose proof (Hremaining r eq_refl) as Hr;
        destruct (size (Room.users r) =? 0)%nat
    end; simpl; repeat split; try done.
    + intros Hne. by destruct Hne, Hr as [-> _].
    + intros He. apply Hr in He. discriminate.
    + intros _. by eexists.
  - assert (Hsame : Room.users room = remaining)
      by (subst remaining; by rewrite delete_id).
    pose proof (Hremaining room Hsame) as Hr.
    destruct (size (Room.users room) =? 0)%nat; simpl; repeat split; try done.
    + intros Hne. by destruct Hne, Hr as [-> _].
    + intros He. apply Hr in He. discriminate.
    + intros _. by eexists.
Qed.

Lemma disconnect_leaves_witness :
  Server.rooms
    (Server.server
       (Server.disconnect (Server.server Example.created)
          (Server.socket Example.created) 9))
  = delete "ABC123" (Server.rooms (Server.server Example.created)).
Proof.
  apply (disconnect_leaves (Server.server Example.created)
           (Server.socket Example.created) 9 "ABC123"
           (Room.addUser (Room.constructor "ABC123" 0) "s1" Example.alice 0).1);
    reflexivity.
Defined.

(** ** The cleanup timer *)

(** X19: The sweep keeps a room exactly when it has a member or its last
    activity is at most 30 minutes old, and keeps it unchanged; it does
    not touch the colour counter, and a second sweep at the same time
    removes nothing more. *)
Theorem cleanupInactiveRooms_keeps (st : Server.t) (now : Z) :
  (forall roomId room,
      Server.rooms (Server.cleanupInactiveRooms st now) !! roomId = Some room
      <-> Server.rooms st !! roomId = Some room
          /\ (Room.users room <> ∅ \/ now - Room.lastActivity room <= 1800000))
  /\ Server.colorIndex (Server.cleanupInactiveRooms st now) = Server.colorIndex st
  /\ Server.cleanupInactiveRooms (Server.cleanupInactiveRooms st now) now
     = Server.cleanupInactiveRooms st now.
Proof.
  assert (Hkeep : forall room : Room.t,
             Room.shouldCleanup room now = false
             <-> Room.users room <> ∅ \/ now - Room.lastActivity room <= 1800000).
  { intros room. unfold Room.shouldCleanup.
    rewrite andb_false_iff, Nat.eqb_neq, Z.ltb_ge, map_size_empty_iff. simpl. tauto. }
  split; [|split].
  - intros roomId room. unfold Server.cleanupInactiveRooms. simpl.
    rewrite map_lookup_filter_Some. simpl. by rewrite Hkeep.
  - done.
  - unfold Server.cleanupInactiveRooms, Server.set_rooms. simpl. f_equal.
    apply map_filter_filter_l. tauto.
Qed.

(** ** Rooms of the running process *)

Section Populated.

Variable maxStringLength : Z.










End Populated.



(** X21: In every state the process reaches, a document-operation with an
    object payload from a socket with a room id is never dropped: the
    sender receives either the operation-ack, after the document-update
    went to the room, or the operation-error Invalid operation, and no
    exception escapes. *)
Theorem bound_operation_answered (maxStringLength : Z) (st : System.t) (id : string)
        (socket : Socket.t) (roomId : string) (fields : gmap string jsval) (now : Z) :
  System.reachable maxStringLength st ->
  System.sockets st !! id = Some socket ->
  Socket.roomId socket = Some roomId ->
  let o := Server.document_operation maxStringLength (System.server st) socket
             (VObj fields) now in
  let enhanced := Server.enhance socket roomId (VObj fields) now in
  Server.uncaught o = None
  /\ (Server.effects o
      = [Broadcast roomId (document_update enhanced);
         Emit (operation_ack true
                 (Js.or (Js.get (VObj enhanced) "id") (Js.get (VObj enhanced) "timestamp"))
                 enhanced)]
      \/ Server.effects o
         = [Emit (operation_error "Invalid operation" (VObj fields)
                    (Js.or (Js.get (VObj fields) "id")
                           (Js.get (VObj fields) "timestamp")))]).
Proof.
  intros Hreach Hsocket Hid o enhanced.
  destruct (reachable_invariant maxStringLength st Hreach) as [Hbound _].
  destruct (Hbound id socket Hsocket) as [_ Hb].
  destruct (Hb roomId Hid) as (Hsix & _ & room & Hroom & _).
  assert (Hbinding : Socket.binding socket = Some roomId).
  { unfold Socket.binding. rewrite Hid.
    destruct (String.eqb_spec roomId "") as [->|]; [done|done]. }
  subst o.
  destruct (Room.isValidOperation room (VObj enhanced)) eqn:Hvalid.
  - rewrite (document_operation_accepted maxStringLength (System.server st) socket
               (VObj fields) now roomId room Hbinding Hroom Hvalid).
    split; [done|by left].
  - rewrite (document_operation_rejected maxStringLength (System.server st) socket
               (VObj fields) now roomId room Hbinding Hroom Hvalid).
    split; [done|by right].
Qed.

Lemma bound_operation_answered_witness :
  Server.uncaught
    (Server.document_operation 536870888 (System.server Example.running)
       (Server.socket Example.created) (VObj ∅) 5)
  = None.
Proof.
  apply (bound_operation_answered 536870888 Example.running "s1"
           (Server.socket Example.created) "ABC123" ∅ 5);
    [apply running_reachable|reflexivity|reflexivity].
Defined.

(** ** GET /room/:roomId *)


Lemma reachable_rooms_bounded_witness :
  Spec.bounded (Room.addUser (Room.constructor "ABC123" 0) "s1" Example.alice 0).1.
Proof.
  apply (reachable_rooms_bounded 536870888 Example.running "ABC123").
  - apply running_reachable.
  - reflexivity.
Defined.

(** ** The client's operations and the room *)

Section Replica.

Variable maxStringLength : Z.

Lemma get_lookup (o : gmap string jsval) (k : string) (v : jsval) :
  o !! k = Some v -> Js.get (VObj o) k = v.
Proof. intros H. simpl. by rewrite H. Qed.

Lemma le_fin (p q : Q) : Js.le (NFin p) (NFin q) = true <-> (p <= q)%Q.
Proof.
  unfold Js.le. rewrite negb_true_iff. apply lt_fin_false.
Qed.

Lemma lt_of_nat (a b : nat) : Js.lt (Js.of_nat a) (Js.of_nat b) = bool_decide (a < b)%nat.
Proof.
  unfold Js.of_nat, Js.of_Z. destruct (bool_decide_reflect (a < b)%nat) as [H|H].
  - apply lt_fin. rewrite <- Zlt_Qlt. lia.
  - apply lt_fin_false. rewrite <- Zle_Qle. lia.
Qed.

Lemma agree_insert (document : string) (o : gmap string jsval) (p : js_number) :
  o !! "type" = Some (VStr "insert") ->
  o !! "position" = Some (VNum p) ->
  Spec.position_not_outside (String.length document) p ->
  Operations.applyOperation_try maxStringLength document (VObj o)
  = Room.applyOperationToDocument_try maxStringLength document (VObj o).
Proof.
  intros Htype Hposition Hp.
  unfold Operations.applyOperation_try, Room.applyOperationToDocument_try.
  simpl. rewrite Htype. simpl.
  unfold Operations.applyInsert. simpl. rewrite Hposition. simpl.
  unfold Js.less, Js.greater, Js.less. simpl.
  apply position_check in Hp. unfold Js.gt in Hp. by rewrite Hp.
Qed.

Lemma agree_delete (document : string) (o : gmap string jsval) (p l : js_number) :
  o !! "type" = Some (VStr "delete") ->
  o !! "position" = Some (VNum p) ->
  o !! "length" = Some (VNum l) ->
  Spec.position_not_outside (String.length document) p ->
  Spec.positive l ->
  Spec.sum_at_most p l (String.length document) ->
  Operations.applyOperation_try maxStringLength document (VObj o)
  = Room.applyOperationToDocument_try maxStringLength document (VObj o).
Proof.
  intros Htype Hposition Hlength Hp Hl Hsum.
  unfold Operations.applyOperation_try, Room.applyOperationToDocument_try.
  simpl. rewrite Htype. simpl.
  unfold Operations.applyDelete. simpl. rewrite Hposition, Hlength. simpl.
  destruct p as [a| |], l as [b| |]; try done.
  simpl in Hp, Hl, Hsum. destruct Hp as [Ha _].
  unfold Js.less, Js.greater_eq, Js.less_eq, Js.greater, Js.less. simpl.
  assert (H1 : Js.lt (NFin a) (Js.of_Z 0) = false) by by apply lt_fin_false.
  assert (H2 : Js.le (Js.of_nat (String.length document)) (NFin a) = false).
  { apply not_true_iff_false. intros H. apply le_fin in H.
    apply (Qlt_irrefl a). eapply Qlt_le_trans; [|exact H].
    eapply Qlt_le_trans; [|exact Hsum].
    rewrite <- (Qplus_0_r a) at 1. by apply Qplus_lt_r. }
  assert (H3 : Js.le (NFin b) (Js.of_Z 0) = false).
  { apply not_true_iff_false. intros H. apply le_fin in H.
    apply (Qlt_irrefl b). by eapply Qle_lt_trans. }
  assert (H4 : Js.lt (Js.of_nat (String.length document)) (Js.add (NFin a) (NFin b))
               = false).
  { apply lt_fin_false. by rewrite Qred_correct. }
  by rewrite H1, H2, H3, H4.
Qed.

Lemma agree_retain (document : string) (o : gmap string jsval) :
  o !! "type" = Some (VStr "retain") ->
  Operations.applyOperation_try maxStringLength document (VObj o)
  = Room.applyOperationToDocument_try maxStringLength document (VObj o).
Proof.
  intros Htype.
  unfold Operations.applyOperation_try, Room.applyOperationToDocument_try.
  simpl. by rewrite Htype.
Qed.

Lemma agree_accepts (document : string) (operation : jsval) :
  Spec.accepts document operation ->
  Operations.applyOperation maxStringLength document operation
  = Room.applyOperationToDocument maxStringLength document operation.
Proof.
  intros (o & p & -> & Hposition & Hp & Hkind).
  unfold Operations.applyOperation, Room.applyOperationToDocument.
  destruct Hkind as [[Htype _]|[(Htype & l & Hl & Hpos & Hsum)|[Htype _]]].
  - by rewrite (agree_insert document o p).
  - by rewrite (agree_delete document o p l).
  - by rewrite (agree_retain document o).
Qed.

End Replica.

(** X23: A replica that holds the document of a room and applies an
    operation the room accepts with [applyOperation] of operations.js
    obtains the document the room has after the operation: on accepted
    operations the splice of the client and the splice of the server
    are the same function. *)
Theorem replica_follows_room (maxStringLength : Z) (this : Room.t) (operation : jsval)
        (now : Z) :
  Room.isValidOperation this operation = true ->
  Operations.applyOperation maxStringLength (Room.document this) operation
  = Room.document (Room.applyOperation maxStringLength this operation now).1.
Proof.
  intros Hvalid.
  rewrite (applyOperation_document maxStringLength this operation now Hvalid).
  apply agree_accepts. by apply isValidOperation_accepts.
Qed.

Lemma replica_follows_room_witness :
  Operations.applyOperation 536870888 (Room.document Example.hello)
    (Spec.delete (Js.of_Z 1) (Js.of_Z 3))
  = Room.document
      (Room.applyOperation 536870888 Example.hello (Spec.delete (Js.of_Z 1) (Js.of_Z 3)) 7).1.
Proof.
  apply (replica_follows_room 536870888 Example.hello (Spec.delete (Js.of_Z 1) (Js.of_Z 3)) 7).
  reflexivity.
Defined.

Lemma validateOperation_object (operation : jsval) (document : string) :
  Operations.validateOperation operation document = true -> exists o, operation = VObj o.
Proof.
  unfold Operations.validateOperation.
  destruct operation as [| |b|n|s|t|l|o]; try done; try (by eexists); intros H.
  all: simpl in H; rewrite ?orb_true_r in H; done.
Qed.

(** X24: The validation of operations.js and the validation of the room
    compared, on the same document. An operation the room accepts
    passes the client's validation unless its position is NaN; an
    insert or delete that passes the client's validation is accepted by
    the room. The two exceptions are real: the room accepts an insert
    at NaN that the client refuses, and the client passes a retain past
    the end of the document that the room refuses. *)
Theorem validations_compared (this : Room.t) (operation : jsval) :
  (Room.isValidOperation this operation = true ->
   Js.get operation "position" <> VNum NNaN ->
   Operations.validateOperation operation (Room.document this) = true)
  /\ (Operations.validateOperation operation (Room.document this) = true ->
      Js.get operation "type" <> VStr "retain" ->
      Room.isValidOperation this operation = true)
  /\ (forall content,
        content <> "" ->
        Room.isValidOperation this (Spec.insert NNaN content) = true
        /\ Operations.validateOperation (Spec.insert NNaN content) (Room.document this)
           = false)
  /\ (forall length,
        Spec.positive length ->
        let past := Js.of_nat (String.length (Room.document this) + 1) in
        Operations.validateOperation (Spec.retain past length) (Room.document this) = true
        /\ Room.isValidOperation this (Spec.retain past length) = false).
Proof.
  split; [|split; [|split]]; cycle 2.
  - intros content Hcontent. split.
    + apply isValidOperation_accepts. eexists _, NNaN.
      split; [reflexivity|]. split; [reflexivity|]. split; [exact I|].
      left. split; [reflexivity|]. by exists content.
    + unfold Operations.validateOperation, Spec.insert. simpl.
      unfold Js.less_eq, Js.less, Js.le, Js.lt. simpl. by rewrite andb_false_r.
  - intros length Hpositive past.
    assert (Htype : Js.get (Spec.retain past length) "type" = VStr "retain")
      by reflexivity.
    assert (Hposition : Js.get (Spec.retain past length) "position" = VNum past)
      by reflexivity.
    assert (Hlength : Js.get (Spec.retain past length) "length" = VNum length)
      by reflexivity.
    apply gt_zero_positive in Hpositive. unfold Js.gt in Hpositive.
    assert (Hlow : Js.lt past (Js.of_Z 0) = false).
    { subst past. change (Js.of_Z 0) with (Js.of_nat 0). rewrite lt_of_nat.
      apply bool_decide_eq_false_2. lia. }
    assert (Hhigh : Js.lt (Js.of_nat (String.length (Room.document this))) past = true).
    { subst past. rewrite lt_of_nat. apply bool_decide_eq_true_2. lia. }
    split.
    + unfold Operations.validateOperation. rewrite Htype, Hposition, Hlength.
      change (Js.truthy (Spec.retain past length)) with true.
      change (Js.typeof (Spec.retain past length)) with "object".
      change (Js.includes ["insert"; "delete"; "retain"] (VStr "retain")) with true.
      cbn [negb orb andb String.eqb Ascii.eqb Bool.eqb Js.typeof Js.strict_eq_str].
      unfold Js.less, Js.greater, Js.less. cbn [Js.to_number].
      by rewrite Hlow, Hpositive.
    + unfold Room.isValidOperation. rewrite Htype, Hposition.
      change (Js.truthy (Spec.retain past length)) with true.
      change (Js.typeof (Spec.retain past length)) with "object".
      change (Js.includes ["insert"; "delete"; "retain"] (VStr "retain")) with true.
      cbn [negb orb andb String.eqb Ascii.eqb Bool.eqb].
      unfold Js.gt. by rewrite Hlow, Hhigh.
  - intros Hvalid Hnan. apply isValidOperation_accepts in Hvalid.
    destruct Hvalid as (o & p & -> & Hposition & Hp & Hkind).
    simpl in Hnan. rewrite Hposition in Hnan. simpl in Hnan.
    unfold Operations.validateOperation. simpl. rewrite Hposition. simpl.
    destruct p as [a| |]; try done. simpl in Hp. destruct Hp as [Ha Hlen].
    unfold Js.less, Js.less_eq, Js.greater, Js.less. simpl.
    assert (H1 : Js.lt (NFin a) (Js.of_Z 0) = false) by by apply lt_fin_false.
    assert (H2 : Js.le (NFin a) (Js.of_nat (String.length (Room.document this))) = true)
      by by apply le_fin.
    rewrite H1.
    destruct Hkind as [(Htype & content & Hcontent & Hne)
                      |[(Htype & l & Hl & Hpos & Hsum)|(Htype & l & Hl & Hpos)]];
      rewrite Htype; simpl.
    + rewrite Hcontent. simpl. rewrite H2, andb_true_r.
      apply lt_fin. change 0%Q with (inject_Z 0). rewrite <- Zlt_Qlt.
      apply string_nonempty_length in Hne. lia.
    + rewrite Hl. simpl. apply gt_zero_positive in Hpos as Hgt.
      unfold Js.gt in Hgt. rewrite Hgt. simpl.
      by apply sum_check.
    + rewrite Hl. simpl. apply gt_zero_positive in Hpos as Hgt.
      unfold Js.gt in Hgt. by rewrite Hgt.
  - intros Hvalid Hretain.
    destruct (validateOperation_object _ _ Hvalid) as [o ->].
    apply isValidOperation_accepts.
    unfold Operations.validateOperation in Hvalid. simpl in Hvalid, Hretain.
    destruct (o !! "type") as [type|] eqn:Htype; simpl in Hvalid; [|done].
    destruct (Js.includes _ type) eqn:Hkinds; simpl in Hvalid; [|done].
    apply includes_kinds in Hkinds.
    destruct (o !! "position") as [[| | |p| | | |]|] eqn:Hposition; simpl in Hvalid;
      try done.
    unfold Js.less, Js.less_eq, Js.greater, Js.less in Hvalid. simpl in Hvalid.
    destruct (Js.lt p (Js.of_Z 0)) eqn:Hlow; simpl in Hvalid; [done|].
    exists o, p. split; [done|]. split; [done|].
    destruct Hkinds as [-> | [-> | ->]]; simpl in Hvalid; [| |done].
    + destruct (o !! "content") as [[| | | |content| | |]|] eqn:Hcontent;
        simpl in Hvalid; try done.
      apply andb_true_iff in Hvalid as [Hlen Hle].
      split.
      * apply position_check. rewrite Hlow. simpl.
        unfold Js.gt. destruct p as [a|[]|];
          try (unfold Js.le, Js.lt, Js.of_nat, Js.of_Z in Hle, Hlow; simpl in Hle, Hlow;
               congruence).
        apply lt_fin_false. by apply le_fin.
      * left. split; [done|]. exists content. split; [done|].
        apply string_nonempty_length. apply lt_fin in Hlen.
        change 0%Q with (inject_Z 0) in Hlen. rewrite <- Zlt_Qlt in Hlen. lia.
    + destruct (o !! "length") as [[| | |l| | | |]|] eqn:Hlength;
        simpl in Hvalid; try done.
      apply andb_true_iff in Hvalid as [Hgt Hle].
      assert (Hpos : Spec.positive l) by by apply gt_zero_positive.
      destruct p as [a|[]|], l as [b|[]|]; try done;
        try (unfold Js.le, Js.lt, Js.add, Js.of_nat, Js.of_Z in Hle, Hlow, Hgt;
             simpl in Hle, Hlow, Hgt; congruence).
      apply le_fin in Hle. rewrite Qred_correct in Hle.
      apply lt_fin_false in Hlow. simpl in Hpos.
      assert (Hp : Spec.position_not_outside (String.length (Room.document this))
                     (NFin a)).
      { split; [done|]. apply Qlt_le_weak. eapply Qlt_le_trans; [|exact Hle].
        rewrite <- (Qplus_0_r a) at 1. by apply Qplus_lt_r. }
      split; [done|].
      right. left. split; [done|]. exists (NFin b). done.
Qed.

Lemma validations_compared_witness :
  Operations.validateOperation (Spec.insert (Js.of_nat 0) "a") "hello" = true
  /\ Room.isValidOperation Example.hello (Spec.delete (Js.of_nat 1) (Js.of_nat 2)) = true.
Proof.
  split.
  - apply (proj1 (validations_compared Example.hello (Spec.insert (Js.of_nat 0) "a")));
      [reflexivity|intros H; vm_compute in H; discriminate].
  - apply (proj1 (proj2 (validations_compared Example.hello
                           (Spec.delete (Js.of_nat 1) (Js.of_nat 2)))));
      [reflexivity|intros H; vm_compute in H; discriminate].
Defined.

(** ** Transformation of concurrent inserts *)

Section Transform.

Variable maxStringLength : Z.

Lemma add_of_nat (a b : nat) :
  Spec.integer (Js.add (Js.of_nat a) (Js.of_nat b)) (Z.of_nat (a + b)).
Proof.
  unfold Js.add, Js.of_nat, Js.of_Z. simpl.
  by rewrite Qred_correct, <- inject_Z_plus, Nat2Z.inj_add.
Qed.

Lemma le_of_nat (a b : nat) : Js.le (Js.of_nat a) (Js.of_nat b) = bool_decide (a <= b)%nat.
Proof.
  unfold Js.of_nat, Js.of_Z. destruct (bool_decide_reflect (a <= b)%nat) as [H|H].
  - apply le_fin. rewrite <- Zle_Qle. lia.
  - apply not_true_iff_false. intros Hle. apply le_fin in Hle.
    rewrite <- Zle_Qle in Hle. lia.
Qed.

Lemma strict_eq_of_nat (a b : nat) :
  Js.strict_eq (VNum (Js.of_nat a)) (VNum (Js.of_nat b)) = bool_decide (a = b).
Proof.
  unfold Js.of_nat, Js.of_Z. simpl. destruct (bool_decide_reflect (a = b)) as [->|H].
  - apply Qeq_bool_iff. reflexivity.
  - apply not_true_iff_false. intros He. apply Qeq_bool_iff in He.
    apply (proj1 (inject_Z_injective _ _)) in He. lia.
Qed.

Lemma integer_not_outside (len : nat) (n : js_number) (k : nat) :
  Spec.integer n (Z.of_nat k) -> (k <= len)%nat -> Spec.position_not_outside len n.
Proof.
  destruct n as [x| |]; try done. simpl. intros -> Hk.
  change 0%Q with (inject_Z 0). rewrite <- !Zle_Qle. lia.
Qed.

(** The insert of the client on an object with a whole position. *)
Lemma client_insert (document : string) (o : gmap string jsval) (n : js_number)
      (k : nat) (content : string) :
  o !! "type" = Some (VStr "insert") ->
  o !! "position" = Some (VNum n) ->
  Spec.integer n (Z.of_nat k) ->
  (k <= String.length document)%nat ->
  o !! "content" = Some (VStr content) ->
  Z.of_nat (String.length document + String.length content) <= maxStringLength ->
  Spec.units (Operations.applyOperation maxStringLength document (VObj o))
  = take k (Spec.units document) ++ Spec.units content ++ drop k (Spec.units document).
Proof.
  intros Htype Hposition Hn Hk Hcontent Hfit. unfold Operations.applyOperation.
  rewrite (agree_insert maxStringLength document o n Htype Hposition)
    by by eapply integer_not_outside.
  fold (Room.applyOperationToDocument maxStringLength document (VObj o)).
  rewrite (apply_insert maxStringLength document o n content) by done.
  rewrite !units_append, units_slice_to, units_slice_from.
  rewrite (offset_integer document n k Hn Hk). by rewrite <- app_assoc.
Qed.

Lemma length_units_insert (d c : list Ascii.ascii) (k : nat) :
  (k <= length d)%nat -> length (take k d ++ c ++ drop k d) = (length d + length c)%nat.
Proof. intros H. rewrite !length_app, length_take, length_drop. lia. Qed.

(** The two orders of two inserts at different places, the later one
    shifted by the length of the earlier text. *)
Lemma splice_parts {A} (x y z a b : list A) :
  let d := x ++ y ++ z in
  let d1 := take (length x) d ++ a ++ drop (length x) d in
  let d2 := take (length x + length y) d ++ b ++ drop (length x + length y) d in
  take (length x + length y + length a) d1 ++ b
    ++ drop (length x + length y + length a) d1
  = take (length x) d2 ++ a ++ drop (length x) d2.
Proof.
  intros d d1 d2.
  assert (Hd1 : d1 = (x ++ a ++ y) ++ z).
  { subst d1 d. rewrite take_app_length, drop_app_length.
    by rewrite <- !app_assoc. }
  assert (Hd2 : d2 = x ++ y ++ b ++ z).
  { subst d2 d. rewrite (app_assoc x y z).
    rewrite take_app_length', drop_app_length' by (rewrite length_app; lia).
    by rewrite <- !app_assoc. }
  rewrite Hd1, Hd2.
  rewrite take_app_length', drop_app_length' by (rewrite !length_app; lia).
  rewrite take_app_length, drop_app_length.
  by rewrite <- !app_assoc.
Qed.

Lemma splice_twice {A} (d a b : list A) (p q : nat) :
  (p < q)%nat -> (q <= length d)%nat ->
  let d1 := take p d ++ a ++ drop p d in
  let d2 := take q d ++ b ++ drop q d in
  take (q + length a) d1 ++ b ++ drop (q + length a) d1
  = take p d2 ++ a ++ drop p d2.
Proof.
  intros Hpq Hq.
  pose proof (splice_parts (take p d) (take (q - p) (drop p d)) (drop q d) a b) as H.
  assert (Hx : length (take p d) = p) by (rewrite length_take; lia).
  assert (Hy : length (take (q - p) (drop p d)) = (q - p)%nat)
    by (rewrite length_take, length_drop; lia).
  assert (Hd : take p d ++ take (q - p) (drop p d) ++ drop q d = d).
  { replace q with (p + (q - p))%nat at 2 by lia.
    rewrite <- drop_drop, take_drop. apply take_drop. }
  rewrite Hx, Hy, Hd in H. replace (p + (q - p))%nat with q in H by lia.
  exact H.
Qed.

Lemma createInsertOperation_get (position content userId : jsval) (now : Z) (id : string) :
  let op := Operations.createInsertOperation position content userId now id in
  Js.get op "type" = VStr "insert" /\ Js.get op "position" = position
  /\ Js.get op "content" = content /\ Js.get op "userId" = userId.
Proof. repeat split; reflexivity. Qed.

(** [transformOperation] on two inserts of different users: the first is
    shifted by the length of the second when the second is not after
    it, whatever the priority. *)
Lemma transform_insert_insert (p q : nat) (a b u v : string) (now1 now2 : Z)
      (id1 id2 : string) (op1HasPriority : bool) :
  u <> v ->
  let op1 := Operations.createInsertOperation (VNum (Js.of_nat p)) (VStr a) (VStr u)
               now1 id1 in
  let op2 := Operations.createInsertOperation (VNum (Js.of_nat q)) (VStr b) (VStr v)
               now2 id2 in
  Operations.transformOperation op1 op2 op1HasPriority
  = Return (if bool_decide (q <= p)%nat
            then Operations.with_position op1
                   (VNum (Js.add (Js.of_nat p) (Js.of_nat (String.length b))))
            else op1).
Proof.
  intros Huv op1 op2.
  destruct (createInsertOperation_get (VNum (Js.of_nat p)) (VStr a) (VStr u) now1 id1)
    as (Htype1 & Hposition1 & Hcontent1 & Huser1).
  destruct (createInsertOperation_get (VNum (Js.of_nat q)) (VStr b) (VStr v) now2 id2)
    as (Htype2 & Hposition2 & Hcontent2 & Huser2).
  fold op1 in Htype1, Hposition1, Hcontent1, Huser1.
  fold op2 in Htype2, Hposition2, Hcontent2, Huser2.
  unfold Operations.transformOperation.
  change (Js.get_checked op1 "userId") with (Return (Js.get op1 "userId")).
  change (Js.get_checked op2 "userId") with (Return (Js.get op2 "userId")).
  rewrite Huser1, Huser2, Htype1, Htype2.
  cbn [mbind completion_bind Js.strict_eq Js.strict_eq_str String.eqb Ascii.eqb
         Bool.eqb andb].
  replace (String.eqb u v) with false by (symmetry; by apply String.eqb_neq).
  unfold Operations.transformInsertInsert.
  change (Js.get_checked op1 "position") with (Return (Js.get op1 "position")).
  change (Js.get_checked op2 "position") with (Return (Js.get op2 "position")).
  rewrite Hposition1, Hposition2. cbn [mbind completion_bind].
  unfold Operations.content_length.
  change (Js.get_checked op2 "content") with (Return (Js.get op2 "content")).
  rewrite Hcontent2. cbn [mbind completion_bind Js.get_checked Js.get].
  change (String.eqb "length" "length") with true. cbn iota.
  unfold Js.less_eq. cbn [Js.to_number]. rewrite le_of_nat, strict_eq_of_nat.
  destruct (bool_decide_reflect (q <= p)%nat) as [Hle|Hgt]; [reflexivity|].
  rewrite bool_decide_eq_false_2 by lia. reflexivity.
Qed.

Lemma with_position_created (position content userId : jsval) (now : Z) (id : string)
      (position' : jsval) :
  Operations.with_position
    (Operations.createInsertOperation position content userId now id) position'
  = Operations.createInsertOperation position' content userId now id.
Proof.
  reflexivity.
Qed.

Lemma apply_created_insert (document : string) (n : js_number) (k : nat)
      (content : string) (userId : jsval) (now : Z) (id : string) :
  Spec.integer n (Z.of_nat k) ->
  (k <= String.length document)%nat ->
  Z.of_nat (String.length document + String.length content) <= maxStringLength ->
  Spec.units
    (Operations.applyOperation maxStringLength document
       (Operations.createInsertOperation (VNum n) (VStr content) userId now id))
  = take k (Spec.units document) ++ Spec.units content ++ drop k (Spec.units document).
Proof.
  intros Hn Hk Hfit. unfold Operations.createInsertOperation.
  by apply (client_insert document _ n k content).
Qed.

Lemma length_apply_created_insert (document : string) (n : js_number) (k : nat)
      (content : string) (userId : jsval) (now : Z) (id : string) :
  Spec.integer n (Z.of_nat k) ->
  (k <= String.length document)%nat ->
  Z.of_nat (String.length document + String.length content) <= maxStringLength ->
  String.length
    (Operations.applyOperation maxStringLength document
       (Operations.createInsertOperation (VNum n) (VStr content) userId now id))
  = (String.length document + String.length content)%nat.
Proof.
  intros Hn Hk Hfit. rewrite <- length_units.
  rewrite (apply_created_insert document n k) by done.
  rewrite length_units_insert by (rewrite length_units; lia).
  by rewrite !length_units.
Qed.

(** Two inserts of different users at different places: each replica
    applies its own insert, then the other one transformed against it. *)
Lemma insert_insert_ordered (document : string) (p q : nat) (a b u v : string)
      (now1 now2 : Z) (id1 id2 : string) (h1 h2 : bool) :
  u <> v -> (p < q)%nat -> (q <= String.length document)%nat ->
  Z.of_nat (String.length document + String.length a + String.length b)
  <= maxStringLength ->
  let op1 := Operations.createInsertOperation (VNum (Js.of_nat p)) (VStr a) (VStr u)
               now1 id1 in
  let op2 := Operations.createInsertOperation (VNum (Js.of_nat q)) (VStr b) (VStr v)
               now2 id2 in
  exists op1' op2',
    Operations.transformOperation op1 op2 h1 = Return op1'
    /\ Operations.transformOperation op2 op1 h2 = Return op2'
    /\ Operations.applyOperation maxStringLength
         (Operations.applyOperation maxStringLength document op1) op2'
       = Operations.applyOperation maxStringLength
           (Operations.applyOperation maxStringLength document op2) op1'.
Proof.
  intros Huv Hpq Hq Hfit op1 op2.
  eexists _, _. split; [by apply transform_insert_insert|].
  split; [by apply transform_insert_insert|].
  rewrite (bool_decide_eq_false_2 (q <= p)%nat) by lia.
  rewrite (bool_decide_eq_true_2 (p <= q)%nat) by lia.
  rewrite with_position_created. subst op1 op2.
  apply units_inj.
  rewrite (apply_created_insert _ _ (q + String.length a)%nat);
    [|apply add_of_nat
     |rewrite (length_apply_created_insert document _ p)
        by (try apply of_nat_integer; lia); lia
     |rewrite (length_apply_created_insert document _ p)
        by (try apply of_nat_integer; lia); lia].
  rewrite (apply_created_insert document _ p) by (try apply of_nat_integer; lia).
  rewrite (apply_created_insert _ _ p);
    [|apply of_nat_integer
     |rewrite (length_apply_created_insert document _ q)
        by (try apply of_nat_integer; lia); lia
     |rewrite (length_apply_created_insert document _ q)
        by (try apply of_nat_integer; lia); lia].
  rewrite (apply_created_insert document _ q) by (try apply of_nat_integer; lia).
  rewrite <- (length_units a).
  apply (splice_twice (Spec.units document) (Spec.units a) (Spec.units b) p q);
    [done|by rewrite length_units].
Qed.

(** An insert right after a text just inserted. *)
Lemma splice_after {A} (d a b : list A) (p : nat) :
  (p <= length d)%nat ->
  let d1 := take p d ++ a ++ drop p d in
  take (p + length a) d1 ++ b ++ drop (p + length a) d1
  = take p d ++ a ++ b ++ drop p d.
Proof.
  intros Hp d1. subst d1. rewrite (app_assoc (take p d) a).
  rewrite take_app_length', drop_app_length'
    by (rewrite length_app, length_take; lia).
  by rewrite <- app_assoc.
Qed.

Lemma insert_insert_same_place (document : string) (p : nat) (a b u v : string)
      (now1 now2 : Z) (id1 id2 : string) (h1 : bool) :
  u <> v -> (p <= String.length document)%nat ->
  Z.of_nat (String.length document + String.length a + String.length b)
  <= maxStringLength ->
  let op1 := Operations.createInsertOperation (VNum (Js.of_nat p)) (VStr a) (VStr u)
               now1 id1 in
  let op2 := Operations.createInsertOperation (VNum (Js.of_nat p)) (VStr b) (VStr v)
               now2 id2 in
  exists op1',
    Operations.transformOperation op1 op2 h1 = Return op1'
    /\ Spec.units
         (Operations.applyOperation maxStringLength
            (Operations.applyOperation maxStringLength document op2) op1')
       = take p (Spec.units document) ++ Spec.units b ++ Spec.units a
           ++ drop p (Spec.units document).
Proof.
  intros Huv Hp Hfit op1 op2.
  eexists. split; [by apply transform_insert_insert|].
  rewrite bool_decide_eq_true_2 by lia.
  rewrite with_position_created. subst op1 op2.
  rewrite (apply_created_insert _ _ (p + String.length b)%nat);
    [|apply add_of_nat
     |rewrite (length_apply_created_insert document _ p)
        by (try apply of_nat_integer; lia); lia
     |rewrite (length_apply_created_insert document _ p)
        by (try apply of_nat_integer; lia); lia].
  rewrite (apply_created_insert document _ p) by (try apply of_nat_integer; lia).
  rewrite <- (length_units b).
  apply (splice_after (Spec.units document) (Spec.units b) (Spec.units a) p).
  by rewrite length_units.
Qed.

End Transform.

(** X25: Two inserts of different users at different whole positions of
    a document converge under [transformOperation]: the replica that
    applied the first and then the second transformed against the first
    holds the text of the replica that applied them the other way
    round, whatever the priority flags (the texts being within the
    engine's limit). *)
Theorem insert_insert_converges (maxStringLength : Z) (document : string) (p q : nat)
        (a b u v : string) (now1 now2 : Z) (id1 id2 : string) (h1 h2 : bool) :
  u <> v -> p <> q ->
  (p <= String.length document)%nat -> (q <= String.length document)%nat ->
  Z.of_nat (String.length document + String.length a + String.length b)
  <= maxStringLength ->
  let op1 := Operations.createInsertOperation (VNum (Js.of_nat p)) (VStr a) (VStr u)
               now1 id1 in
  let op2 := Operations.createInsertOperation (VNum (Js.of_nat q)) (VStr b) (VStr v)
               now2 id2 in
  exists op1' op2',
    Operations.transformOperation op1 op2 h1 = Return op1'
    /\ Operations.transformOperation op2 op1 h2 = Return op2'
    /\ Operations.applyOperation maxStringLength
         (Operations.applyOperation maxStringLength document op1) op2'
       = Operations.applyOperation maxStringLength
           (Operations.applyOperation maxStringLength document op2) op1'.
Proof.
  intros Huv Hpq Hp Hq Hfit op1 op2.
  destruct (Nat.lt_total p q) as [Hlt|[->|Hgt]]; [|done|].
  - by apply insert_insert_ordered.
  - destruct (insert_insert_ordered maxStringLength document q p b a v u now2 now1
                id2 id1 h2 h1) as (op2' & op1' & H2 & H1 & Hsame);
      [congruence|done|done|lia|].
    exists op1', op2'. by repeat split.
Qed.

Lemma insert_insert_converges_witness :
  exists op1' op2',
    Operations.transformOperation
      (Operations.createInsertOperation (VNum (Js.of_nat 1)) (VStr "X") (VStr "s1") 1 "a")
      (Operations.createInsertOperation (VNum (Js.of_nat 3)) (VStr "YZ") (VStr "s2") 2 "b")
      false = Return op1'
    /\ Operations.transformOperation
         (Operations.createInsertOperation (VNum (Js.of_nat 3)) (VStr "YZ") (VStr "s2") 2 "b")
         (Operations.createInsertOperation (VNum (Js.of_nat 1)) (VStr "X") (VStr "s1") 1 "a")
         false = Return op2'
    /\ Operations.applyOperation 536870888
         (Operations.applyOperation 536870888 "hello"
            (Operations.createInsertOperation (VNum (Js.of_nat 1)) (VStr "X") (VStr "s1")
               1 "a"))
         op2'
       = Operations.applyOperation 536870888
           (Operations.applyOperation 536870888 "hello"
              (Operations.createInsertOperation (VNum (Js.of_nat 3)) (VStr "YZ")
                 (VStr "s2") 2 "b"))
           op1'.
Proof.
  apply (insert_insert_converges 536870888 "hello" 1 3 "X" "YZ" "s1" "s2" 1 2 "a" "b"
           false false); [discriminate|lia|simpl; lia|simpl; lia|simpl; lia].
Defined.

(** X26: Two inserts of different users at the same whole position do
    not converge in general. [transformOperation] shifts each of them
    by the length of the other, whatever the priority flags, so each
    replica ends with the text it received second placed after its own:
    the two replicas hold the same text exactly when the two texts
    commute. *)
Theorem insert_insert_same_position (maxStringLength : Z) (document : string) (p : nat)
        (a b u v : string) (now1 now2 : Z) (id1 id2 : string) (h1 h2 : bool) :
  u <> v ->
  (p <= String.length document)%nat ->
  Z.of_nat (String.length document + String.length a + String.length b)
  <= maxStringLength ->
  let op1 := Operations.createInsertOperation (VNum (Js.of_nat p)) (VStr a) (VStr u)
               now1 id1 in
  let op2 := Operations.createInsertOperation (VNum (Js.of_nat p)) (VStr b) (VStr v)
               now2 id2 in
  exists op1' op2',
    Operations.transformOperation op1 op2 h1 = Return op1'
    /\ Operations.transformOperation op2 op1 h2 = Return op2'
    /\ Spec.units (Operations.applyOperation maxStringLength
                     (Operations.applyOperation maxStringLength document op1) op2')
       = take p (Spec.units document) ++ Spec.units a ++ Spec.units b
           ++ drop p (Spec.units document)
    /\ Spec.units (Operations.applyOperation maxStringLength
                     (Operations.applyOperation maxStringLength document op2) op1')
       = take p (Spec.units document) ++ Spec.units b ++ Spec.units a
           ++ drop p (Spec.units document)
    /\ (Operations.applyOperation maxStringLength
          (Operations.applyOperation maxStringLength document op1) op2'
        = Operations.applyOperation maxStringLength
            (Operations.applyOperation maxStringLength document op2) op1'
        <-> a +:+ b = b +:+ a).
Proof.
  intros Huv Hp Hfit op1 op2.
  destruct (insert_insert_same_place maxStringLength document p a b u v now1 now2
              id1 id2 h1 Huv Hp Hfit) as (op1' & H1 & Hsite2).
  destruct (insert_insert_same_place maxStringLength document p b a v u now2 now1
              id2 id1 h2) as (op2' & H2 & Hsite1); [congruence|done|lia|].
  exists op1', op2'. split; [done|]. split; [done|]. split; [done|]. split; [done|].
  split.
  - intros Hsame. apply units_inj. rewrite !units_append.
    apply (f_equal Spec.units) in Hsame. fold op1 op2 in Hsite1, Hsite2.
    rewrite Hsite1, Hsite2 in Hsame.
    apply app_inv_head in Hsame. rewrite !app_assoc in Hsame.
    by apply app_inv_tail in Hsame.
  - intros Hcommute. apply units_inj. fold op1 op2 in Hsite1, Hsite2.
    rewrite Hsite1, Hsite2. apply (f_equal Spec.units) in Hcommute.
    rewrite !units_append in Hcommute. by rewrite !app_assoc, <- (app_assoc _ (Spec.units a)), Hcommute, !app_assoc.
Qed.

Lemma insert_insert_same_position_witness :
  exists op1' op2',
    Operations.transformOperation
      (Operations.createInsertOperation (VNum (Js.of_nat 1)) (VStr "X") (VStr "s1") 1 "a")
      (Operations.createInsertOperation (VNum (Js.of_nat 1)) (VStr "Y") (VStr "s2") 2 "b")
      true = Return op1'
    /\ Operations.transformOperation
         (Operations.createInsertOperation (VNum (Js.of_nat 1)) (VStr "Y") (VStr "s2") 2 "b")
         (Operations.createInsertOperation (VNum (Js.of_nat 1)) (VStr "X") (VStr "s1") 1 "a")
         false = Return op2'
    /\ Spec.units
         (Operations.applyOperation 536870888
            (Operations.applyOperation 536870888 "hello"
               (Operations.createInsertOperation (VNum (Js.of_nat 1)) (VStr "X")
                  (VStr "s1") 1 "a"))
            op2')
       = Spec.units "hXYello"
    /\ Spec.units
         (Operations.applyOperation 536870888
            (Operations.applyOperation 536870888 "hello"
               (Operations.createInsertOperation (VNum (Js.of_nat 1)) (VStr "Y")
                  (VStr "s2") 2 "b"))
            op1')
       = Spec.units "hYXello".
Proof.
  destruct (insert_insert_same_position 536870888 "hello" 1 "X" "Y" "s1" "s2" 1 2
              "a" "b" true false) as (op1' & op2' & H1 & H2 & Hsite1 & Hsite2 & _);
    [discriminate|simpl; lia|simpl; lia|].
  exists op1', op2'. split; [exact H1|]. split; [exact H2|].
  split; [exact Hsite1|exact Hsite2].
Defined.

(** ** Composition of consecutive operations *)

Section Compose.

Variable maxStringLength : Z.

Lemma add_nat (a b : nat) : Js.add (Js.of_nat a) (Js.of_nat b) = Js.of_nat (a + b).
Proof.
  unfold Js.add, Js.of_nat, Js.of_Z. f_equal.
  rewrite (Qred_complete _ (inject_Z (Z.of_nat (a + b))))
    by by rewrite <- inject_Z_plus, Nat2Z.inj_add.
  apply Qcanon.Qred_identity. simpl. apply Z.gcd_1_r.
Qed.

Lemma createDeleteOperation_get (position length userId : jsval) (now : Z) (id : string) :
  let op := Operations.createDeleteOperation position length userId now id in
  Js.get op "type" = VStr "delete" /\ Js.get op "position" = position
  /\ Js.get op "length" = length /\ Js.get op "userId" = userId
  /\ Js.get op "content" = VUndefined.
Proof. repeat split; reflexivity. Qed.

(** [validateOperation] on an insert and on a delete with whole fields. *)
Lemma validate_insert (document : string) (p : nat) (c : string) (userId : jsval)
      (now : Z) (id : string) :
  Operations.validateOperation
    (Operations.createInsertOperation (VNum (Js.of_nat p)) (VStr c) userId now id)
    document = true
  <-> c <> "" /\ (p <= String.length document)%nat.
Proof.
  unfold Operations.validateOperation.
  destruct (createInsertOperation_get (VNum (Js.of_nat p)) (VStr c) userId now id)
    as (-> & -> & -> & _).
  change (Js.truthy (Operations.createInsertOperation _ _ _ _ _)) with true.
  change (Js.typeof (Operations.createInsertOperation _ _ _ _ _)) with "object".
  cbn [negb orb String.eqb Ascii.eqb Bool.eqb Js.typeof Js.includes Js.strict_eq_str
         andb Js.get].
  change (bool_decide ("insert" ∈ ["insert"; "delete"; "retain"])) with true.
  change (String.eqb "length" "length") with true.
  cbn [negb orb andb]. unfold Js.less, Js.greater, Js.less_eq, Js.less.
  cbn [Js.to_number].
  change (Js.of_Z 0) with (Js.of_nat 0). rewrite !lt_of_nat, le_of_nat.
  rewrite bool_decide_eq_false_2 by lia. cbn [negb orb andb].
  rewrite andb_true_iff, !bool_decide_eq_true, <- string_nonempty_length. tauto.
Qed.

Lemma validate_delete (document : string) (p l : nat) (userId : jsval) (now : Z)
      (id : string) :
  Operations.validateOperation
    (Operations.createDeleteOperation (VNum (Js.of_nat p)) (VNum (Js.of_nat l))
       userId now id)
    document = true
  <-> (0 < l)%nat /\ (p + l <= String.length document)%nat.
Proof.
  unfold Operations.validateOperation.
  destruct (createDeleteOperation_get (VNum (Js.of_nat p)) (VNum (Js.of_nat l))
              userId now id) as (-> & -> & -> & _).
  change (Js.truthy (Operations.createDeleteOperation _ _ _ _ _)) with true.
  change (Js.typeof (Operations.createDeleteOperation _ _ _ _ _)) with "object".
  cbn [negb orb String.eqb Ascii.eqb Bool.eqb Js.typeof Js.includes Js.strict_eq_str
         andb Js.get Js.plus].
  change (bool_decide ("delete" ∈ ["insert"; "delete"; "retain"])) with true.
  cbn [negb orb andb]. unfold Js.less, Js.greater, Js.less_eq, Js.less.
  cbn [Js.to_number].
  change (Js.of_Z 0) with (Js.of_nat 0). rewrite add_nat, !lt_of_nat, le_of_nat.
  rewrite bool_decide_eq_false_2 by lia. cbn [negb orb andb].
  by rewrite andb_true_iff, !bool_decide_eq_true.
Qed.

Lemma apply_created_delete (document : string) (p l : nat) (userId : jsval) (now : Z)
      (id : string) :
  (0 < l)%nat -> (p + l <= String.length document)%nat ->
  Z.of_nat (String.length document) <= maxStringLength ->
  Spec.units
    (Operations.applyOperation maxStringLength document
       (Operations.createDeleteOperation (VNum (Js.of_nat p)) (VNum (Js.of_nat l))
          userId now id))
  = take p (Spec.units document) ++ drop (p + l) (Spec.units document).
Proof.
  intros Hl Hpl Hfit. unfold Operations.createDeleteOperation, Operations.applyOperation.
  assert (Hp : Spec.position_not_outside (String.length document) (Js.of_nat p))
    by (eapply integer_not_outside; [apply of_nat_integer|lia]).
  assert (Hpos : Spec.positive (Js.of_nat l)).
  { unfold Js.of_nat, Js.of_Z. simpl. change 0%Q with (inject_Z 0).
    rewrite <- Zlt_Qlt. lia. }
  assert (Hsum : Spec.sum_at_most (Js.of_nat p) (Js.of_nat l) (String.length document)).
  { unfold Js.of_nat, Js.of_Z. simpl. rewrite <- inject_Z_plus, <- Zle_Qle. lia. }
  rewrite (agree_delete maxStringLength document _ (Js.of_nat p) (Js.of_nat l))
    by done.
  match goal with
  | |- context [Room.applyOperationToDocument_try _ _ ?op] =>
      fold (Room.applyOperationToDocument maxStringLength document op)
  end.
  assert (Hoffset : Spec.offset document (Js.of_nat p) = p)
    by (apply offset_integer; [apply of_nat_integer|lia]).
  assert (Hoffset' : Spec.offset document (Js.add (Js.of_nat p) (Js.of_nat l))
                     = (p + l)%nat)
    by (rewrite add_nat; apply offset_integer; [apply of_nat_integer|lia]).
  rewrite (apply_delete maxStringLength document _ (Js.of_nat p) (Js.of_nat l));
    [|done|done|done|rewrite Hoffset, Hoffset'; lia|done].
  by rewrite units_append, units_slice_to, units_slice_from, Hoffset, Hoffset'.
Qed.

Lemma fits_insert (document : string) (p : nat) (c : string) (userId : jsval) (now : Z)
      (id : string) :
  Spec.fits maxStringLength document
    (Operations.createInsertOperation (VNum (Js.of_nat p)) (VStr c) userId now id)
  <-> Z.of_nat (String.length document + String.length c) <= maxStringLength.
Proof.
  unfold Spec.fits. split.
  - intros [_ H]. by apply H.
  - intros H. split; [lia|]. intros _ content [= <-]. done.
Qed.

(** Two consecutive operations that [tryComposeTwo] merges, and the
    operation it makes of them. *)
Lemma tryComposeTwo_typed (x y : Typed.operation) :
  Operations.tryComposeTwo (Typed.encode x) (Typed.encode y) = Return VNull
  \/ exists m,
      Operations.tryComposeTwo (Typed.encode x) (Typed.encode y)
      = Return (Typed.encode m)
      /\ forall document,
          Typed.valid_run maxStringLength document [x; y] ->
          Typed.valid_run maxStringLength document [m]
          /\ Operations.applyOperation maxStringLength document (Typed.encode m)
             = Operations.applyOperation maxStringLength
                 (Operations.applyOperation maxStringLength document (Typed.encode x))
                 (Typed.encode y).
Proof.
  destruct x as [[p1 c1|p1 l1] u1 t1 i1], y as [[p2 c2|p2 l2] u2 t2 i2];
    unfold Typed.encode; cbn [Typed.what Typed.userId Typed.timestamp Typed.id];
    unfold Operations.tryComposeTwo;
    repeat match goal with
      | |- context [Js.get_checked (Operations.createInsertOperation ?a ?b ?c ?d ?e) ?k] =>
          change (Js.get_checked (Operations.createInsertOperation a b c d e) k)
            with (Return (Js.get (Operations.createInsertOperation a b c d e) k))
      | |- context [Js.get_checked (Operations.createDeleteOperation ?a ?b ?c ?d ?e) ?k] =>
          change (Js.get_checked (Operations.createDeleteOperation a b c d e) k)
            with (Return (Js.get (Operations.createDeleteOperation a b c d e) k))
      end;
    repeat match goal with
      | |- context [Js.get (Operations.createInsertOperation ?a ?b ?c ?d ?e) "userId"] =>
          change (Js.get (Operations.createInsertOperation a b c d e) "userId") with c
      | |- context [Js.get (Operations.createDeleteOperation ?a ?b ?c ?d ?e) "userId"] =>
          change (Js.get (Operations.createDeleteOperation a b c d e) "userId") with c
      | |- context [Js.get (Operations.createInsertOperation ?a ?b ?c ?d ?e) "type"] =>
          change (Js.get (Operations.createInsertOperation a b c d e) "type")
            with (VStr "insert")
      | |- context [Js.get (Operations.createDeleteOperation ?a ?b ?c ?d ?e) "type"] =>
          change (Js.get (Operations.createDeleteOperation a b c d e) "type")
            with (VStr "delete")
      | |- context [Js.get (Operations.createInsertOperation ?a ?b ?c ?d ?e) "position"] =>
          change (Js.get (Operations.createInsertOperation a b c d e) "position") with a
      | |- context [Js.get (Operations.createDeleteOperation ?a ?b ?c ?d ?e) "position"] =>
          change (Js.get (Operations.createDeleteOperation a b c d e) "position") with a
      end;
    cbn [mbind completion_bind];
    change (Js.strict_eq (VStr u1) (VStr u2)) with (String.eqb u1 u2);
    cbn [Js.strict_eq_str String.eqb Ascii.eqb Bool.eqb andb];
    (destruct (String.eqb_spec u1 u2) as [<-|Hu]; cbn [negb mbind completion_bind];
     [|by left]).
  - (* two inserts *)
    unfold Operations.content_length.
    change (Js.get_checked (Operations.createInsertOperation (VNum (Js.of_nat p1))
                              (VStr c1) (VStr u1) t1 i1) "content")
      with (Return (VStr c1)).
    cbn [mbind completion_bind Js.get_checked Js.get].
    change (String.eqb "length" "length") with true. cbn iota.
    cbn [Js.plus Js.to_number]. rewrite add_nat, strict_eq_of_nat.
    destruct (bool_decide_reflect (p1 + String.length c1 = p2)%nat) as [<-|Hne];
      [|by left].
    right.
    exists {| Typed.what := Typed.Insert p1 (c1 +:+ c2); Typed.userId := u1;
              Typed.timestamp := t2; Typed.id := i1 |}.
    split; [reflexivity|].
    intros document (Hv1 & Hf1 & Hv2 & Hf2 & _).
    unfold Typed.encode in *.
    cbn [Typed.what Typed.userId Typed.timestamp Typed.id] in *.
    apply validate_insert in Hv1 as [Hc1 Hp1]. apply fits_insert in Hf1.
    assert (Hlen1 : String.length
                      (Operations.applyOperation maxStringLength document
                         (Operations.createInsertOperation (VNum (Js.of_nat p1))
                            (VStr c1) (VStr u1) t1 i1))
                    = (String.length document + String.length c1)%nat)
      by (apply (length_apply_created_insert maxStringLength document _ p1);
          [apply of_nat_integer|done|done]).
    apply validate_insert in Hv2 as [Hc2 Hp2]. apply fits_insert in Hf2.
    rewrite Hlen1 in Hf2, Hp2.
    assert (Hfit : Z.of_nat (String.length document + String.length (c1 +:+ c2))
                   <= maxStringLength) by (rewrite length_append; lia).
    split.
    + split; [|split; [by apply fits_insert|done]].
      apply validate_insert. split; [|done]. by destruct c1.
    + apply units_inj.
      rewrite (apply_created_insert maxStringLength document _ p1)
        by (try apply of_nat_integer; done).
      rewrite (apply_created_insert maxStringLength _ _ (p1 + String.length c1)%nat)
        by (try apply of_nat_integer; lia).
      rewrite (apply_created_insert maxStringLength document _ p1)
        by (try apply of_nat_integer; done).
      rewrite units_append, <- (length_units c1).
      rewrite (splice_after (Spec.units document) (Spec.units c1) (Spec.units c2) p1)
        by by rewrite length_units.
      by rewrite <- app_assoc.
  - (* an insert, then a delete *)
    by left.
  - (* a delete, then an insert *)
    by left.
  - (* two deletes *)
    rewrite strict_eq_of_nat.
    destruct (bool_decide_reflect (p1 = p2)) as [<-|Hne]; [|by left].
    right.
    exists {| Typed.what := Typed.Delete p1 (l1 + l2); Typed.userId := u1;
              Typed.timestamp := t2; Typed.id := i1 |}.
    split.
    { unfold Typed.encode. cbn [Typed.what Typed.userId Typed.timestamp Typed.id].
      rewrite <- add_nat. reflexivity. }
    intros document (Hv1 & [Hf1 _] & Hv2 & [Hf2 _] & _).
    unfold Typed.encode in *.
    cbn [Typed.what Typed.userId Typed.timestamp Typed.id] in *.
    apply validate_delete in Hv1 as [Hl1 Hp1].
    assert (Hunits1 := apply_created_delete document p1 l1 (VStr u1) t1 i1 Hl1 Hp1 Hf1).
    assert (Hlen1 : String.length
                      (Operations.applyOperation maxStringLength document
                         (Operations.createDeleteOperation (VNum (Js.of_nat p1))
                            (VNum (Js.of_nat l1)) (VStr u1) t1 i1))
                    = (String.length document - l1)%nat).
    { rewrite <- length_units, Hunits1, length_app, length_take, length_drop,
        length_units. lia. }
    apply validate_delete in Hv2 as [Hl2 Hp2]. rewrite Hlen1 in Hp2.
    split.
    + split; [|split; [by split|done]]. apply validate_delete. lia.
    + apply units_inj.
      rewrite (apply_created_delete document p1 (l1 + l2)) by (done || lia).
      rewrite (apply_created_delete _ p1 l2) by (done || lia).
      rewrite Hunits1.
      rewrite take_app_le by (rewrite length_take, length_units; lia).
      rewrite take_take, Nat.min_id.
      rewrite drop_app_ge by (rewrite length_take, length_units; lia).
      rewrite length_take, length_units, drop_drop. do 2 f_equal. lia.
Qed.

Lemma compose_from_typed (rest : list Typed.operation) (current : Typed.operation) :
  exists out : list Typed.operation,
    (forall composed : list jsval,
        Operations.compose_from composed (Typed.encode current) (Typed.encode <$> rest)
        = Return (composed ++ (Typed.encode <$> out)))
    /\ (length out <= S (length rest))%nat
    /\ forall document,
        Typed.valid_run maxStringLength document (current :: rest) ->
        Typed.applyAll maxStringLength document (Typed.encode <$> out)
        = Typed.applyAll maxStringLength document (Typed.encode <$> (current :: rest)).
Proof.
  revert current. induction rest as [|next rest IH]; intros current.
  - exists [current]. by repeat split.
  - destruct (tryComposeTwo_typed current next) as [Hnull|(m & Hm & Hsound)].
    + destruct (IH next) as (out & Hout & Hlen & Hsem).
      exists (current :: out). split; [|split].
      * intros composed. cbn [fmap list_fmap Operations.compose_from].
        rewrite Hnull. cbn [mbind completion_bind Js.truthy].
        rewrite Hout. by rewrite <- app_assoc.
      * simpl. lia.
      * intros document (_ & _ & Hrun). apply (Hsem _ Hrun).
    + destruct (IH m) as (out & Hout & Hlen & Hsem).
      exists out. split; [|split].
      * intros composed. cbn [fmap list_fmap Operations.compose_from].
        rewrite Hm. cbn [mbind completion_bind].
        replace (Js.truthy (Typed.encode m)) with true
          by (unfold Typed.encode; by destruct (Typed.what m)).
        apply Hout.
      * simpl. lia.
      * intros document (Hv1 & Hf1 & Hv2 & Hf2 & Hrun).
        destruct (Hsound document) as [(Hvm & Hfm & _) Hsame];
          [exact (conj Hv1 (conj Hf1 (conj Hv2 (conj Hf2 I))))|].
        rewrite Hsem by (split; [done|split; [done|by rewrite Hsame]]).
        cbn [fmap list_fmap]. unfold Typed.applyAll. cbn [foldl]. by rewrite Hsame.
Qed.

End Compose.

(** X27: [composeOperations] on operations with whole positions returns
    a list that is no longer than the one it is given and has the same
    effect: whenever the operations given pass [validateOperation] one
    after the other from a document (the texts being within the
    engine's limit), applying the composed list to that document gives
    the text that applying the operations given does. *)
Theorem composeOperations_sound (maxStringLength : Z) (ops : list Typed.operation) :
  exists composed : list Typed.operation,
    Operations.composeOperations (Typed.encode <$> ops)
    = Return (Typed.encode <$> composed)
    /\ (length composed <= length ops)%nat
    /\ forall document,
        Typed.valid_run maxStringLength document ops ->
        Typed.applyAll maxStringLength document (Typed.encode <$> composed)
        = Typed.applyAll maxStringLength document (Typed.encode <$> ops).
Proof.
  destruct ops as [|first [|second rest]].
  - by exists [].
  - by exists [first].
  - destruct (compose_from_typed maxStringLength (second :: rest) first)
      as (out & Hout & Hlen & Hsem).
    exists out. split; [apply (Hout [])|]. split; [exact Hlen|exact Hsem].
Qed.

Lemma composeOperations_sound_witness :
  exists composed : list Typed.operation,
    (length composed <= 2)%nat
    /\ Typed.applyAll 536870888 "hello" (Typed.encode <$> composed)
       = Typed.applyAll 536870888 "hello"
           (Typed.encode
              <$> [ {| Typed.what := Typed.Insert 5 " wo"; Typed.userId := "s1";
                       Typed.timestamp := 1; Typed.id := "a" |};
                    {| Typed.what := Typed.Insert 8 "rld"; Typed.userId := "s1";
                       Typed.timestamp := 2; Typed.id := "b" |} ]).
Proof.
  destruct (composeOperations_sound 536870888
              [ {| Typed.what := Typed.Insert 5 " wo"; Typed.userId := "s1";
                   Typed.timestamp := 1; Typed.id := "a" |};
                {| Typed.what := Typed.Insert 8 "rld"; Typed.userId := "s1";
                   Typed.timestamp := 2; Typed.id := "b" |} ])
    as (composed & _ & Hlen & Hsem).
  exists composed. split; [exact Hlen|]. apply Hsem.
  cbn [Typed.valid_run].
  split; [reflexivity|]. split; [apply fits_insert; simpl; lia|].
  assert (Hd : Operations.applyOperation 536870888 "hello" (Typed.encode
            {| Typed.what := Typed.Insert 5 " wo"; Typed.userId := "s1";
                       Typed.timestamp := 1; Typed.id := "a" |}) = "hello wo") by reflexivity.
  rewrite Hd.
  split; [reflexivity|]. split; [apply fits_insert; simpl; lia|]. exact I.
Defined.

(** ** Transformation of an insert and a concurrent delete *)

(** Reading the fields of an operation built by a constructor. *)
Ltac read_fields :=
  repeat match goal with
    | |- context [Js.get_checked (Operations.createInsertOperation ?a ?b ?c ?d ?e) ?k] =>
        change (Js.get_checked (Operations.createInsertOperation a b c d e) k)
          with (Return (Js.get (Operations.createInsertOperation a b c d e) k))
    | |- context [Js.get_checked (Operations.createDeleteOperation ?a ?b ?c ?d ?e) ?k] =>
        change (Js.get_checked (Operations.createDeleteOperation a b c d e) k)
          with (Return (Js.get (Operations.createDeleteOperation a b c d e) k))
    end;
  repeat match goal with
    | |- context [Js.get (Operations.createInsertOperation ?a ?b ?c ?d ?e) "userId"] =>
        change (Js.get (Operations.createInsertOperation a b c d e) "userId") with c
    | |- context [Js.get (Operations.createDeleteOperation ?a ?b ?c ?d ?e) "userId"] =>
        change (Js.get (Operations.createDeleteOperation a b c d e) "userId") with c
    | |- context [Js.get (Operations.createInsertOperation ?a ?b ?c ?d ?e) "type"] =>
        change (Js.get (Operations.createInsertOperation a b c d e) "type")
          with (VStr "insert")
    | |- context [Js.get (Operations.createDeleteOperation ?a ?b ?c ?d ?e) "type"] =>
        change (Js.get (Operations.createDeleteOperation a b c d e) "type")
          with (VStr "delete")
    | |- context [Js.get (Operations.createInsertOperation ?a ?b ?c ?d ?e) "position"] =>
        change (Js.get (Operations.createInsertOperation a b c d e) "position") with a
    | |- context [Js.get (Operations.createDeleteOperation ?a ?b ?c ?d ?e) "position"] =>
        change (Js.get (Operations.createDeleteOperation a b c d e) "position") with a
    | |- context [Js.get (Operations.createInsertOperation ?a ?b ?c ?d ?e) "content"] =>
        change (Js.get (Operations.createInsertOperation a b c d e) "content") with b
    | |- context [Js.get (Operations.createDeleteOperation ?a ?b ?c ?d ?e) "length"] =>
        change (Js.get (Operations.createDeleteOperation a b c d e) "length") with b
    end.

Section InsertDelete.

Variable maxStringLength : Z.

Lemma sub_nat (a b : nat) : (b <= a)%nat -> Js.sub (Js.of_nat a) (Js.of_nat b) = Js.of_nat (a - b).
Proof.
  intros H. unfold Js.sub, Js.of_nat, Js.of_Z. f_equal.
  rewrite (Qred_complete _ (inject_Z (Z.of_nat (a - b)))).
  - apply Qcanon.Qred_identity. simpl. apply Z.gcd_1_r.
  - unfold Qminus. rewrite <- inject_Z_opp, <- inject_Z_plus, Nat2Z.inj_sub by done.
    reflexivity.
Qed.

(** A text split in four. *)
Lemma split_four {A} (d : list A) (i j k : nat) :
  (i <= j)%nat -> (j <= k)%nat -> (k <= length d)%nat ->
  exists x y w z,
    d = x ++ y ++ w ++ z /\ length x = i /\ length y = (j - i)%nat
    /\ length w = (k - j)%nat.
Proof.
  intros Hij Hjk Hk.
  exists (take i d), (take (j - i) (drop i d)), (take (k - j) (drop j d)), (drop k d).
  repeat split.
  - rewrite <- (take_drop i d) at 1. f_equal.
    rewrite <- (take_drop (j - i) (drop i d)) at 1. f_equal.
    rewrite drop_drop. replace (i + (j - i))%nat with j by lia.
    rewrite <- (take_drop (k - j) (drop j d)) at 1. f_equal.
    rewrite drop_drop. f_equal. lia.
  - rewrite length_take. lia.
  - rewrite length_take, length_drop. lia.
  - rewrite length_take, length_drop. lia.
Qed.

Lemma take_parts {A} (x rest : list A) (n : nat) : n = length x -> take n (x ++ rest) = x.
Proof. apply take_app_length'. Qed.

Lemma drop_parts {A} (x rest : list A) (n : nat) : n = length x -> drop n (x ++ rest) = rest.
Proof. apply drop_app_length'. Qed.

(** Insert before the deleted range: delete shifted forward. *)
Lemma insert_then_delete_before {A} (d c : list A) (i j l : nat) :
  (i <= j)%nat -> (j + l <= length d)%nat ->
  let d1 := take i d ++ c ++ drop i d in
  let d2 := take j d ++ drop (j + l) d in
  take (j + length c) d1 ++ drop (j + length c + l) d1
  = take i d2 ++ c ++ drop i d2.
Proof.
  intros Hij Hjl.
  destruct (split_four d i j (j + l)) as (x & y & w & z & -> & Hx & Hy & Hw);
    [lia..|].
  intros d1 d2.
  assert (Hd1 : d1 = x ++ c ++ y ++ w ++ z)
    by (subst d1; by rewrite take_parts, drop_parts by lia).
  assert (Hd2 : d2 = x ++ y ++ z).
  { subst d2. rewrite (app_assoc x y), take_parts by (rewrite ?length_app; lia).
    rewrite (app_assoc (x ++ y) w), drop_parts by (rewrite ?length_app; lia).
    by rewrite <- app_assoc. }
  rewrite Hd1, Hd2.
  replace (x ++ c ++ y ++ w ++ z) with ((x ++ c ++ y) ++ w ++ z)
    by (by rewrite <- !app_assoc).
  rewrite take_parts by (rewrite ?length_app; lia).
  replace ((x ++ c ++ y) ++ w ++ z) with (((x ++ c ++ y) ++ w) ++ z)
    by (by rewrite <- !app_assoc).
  rewrite drop_parts by (rewrite ?length_app; lia).
  rewrite take_parts, drop_parts by (rewrite ?length_app; lia).
  by rewrite <- !app_assoc.
Qed.

(** Insert after the deleted range: insert shifted back. *)
Lemma insert_then_delete_after {A} (d c : list A) (i j l : nat) :
  (j + l <= i)%nat -> (i <= length d)%nat ->
  let d1 := take i d ++ c ++ drop i d in
  let d2 := take j d ++ drop (j + l) d in
  take j d1 ++ drop (j + l) d1
  = take (i - l) d2 ++ c ++ drop (i - l) d2.
Proof.
  intros Hjl Hi.
  destruct (split_four d j (j + l) i) as (x & w & y & z & -> & Hx & Hw & Hy);
    [lia..|].
  intros d1 d2.
  assert (Hd1 : d1 = x ++ w ++ y ++ c ++ z).
  { subst d1.
    replace (x ++ w ++ y ++ z) with ((x ++ w ++ y) ++ z) by (by rewrite <- !app_assoc).
    rewrite take_parts, drop_parts by (rewrite ?length_app; lia).
    by rewrite <- !app_assoc. }
  assert (Hd2 : d2 = x ++ y ++ z).
  { subst d2. rewrite take_parts by (rewrite ?length_app; lia).
    rewrite (app_assoc x w), drop_parts by (rewrite ?length_app; lia). done. }
  rewrite Hd1, Hd2.
  rewrite take_parts by (rewrite ?length_app; lia).
  rewrite (app_assoc x w), drop_parts by (rewrite ?length_app; lia).
  rewrite (app_assoc x y z), take_parts, drop_parts by (rewrite ?length_app; lia).
  by rewrite <- !app_assoc.
Qed.

(** Insert inside the deleted range: the delete extended by the length
    of the text removes it; the insert moved to the start of the range
    keeps it. *)
Lemma insert_then_delete_inside {A} (d c : list A) (i j l : nat) :
  (j < i)%nat -> (i < j + l)%nat -> (j + l <= length d)%nat ->
  let d1 := take i d ++ c ++ drop i d in
  let d2 := take j d ++ drop (j + l) d in
  take j d1 ++ drop (j + (l + length c)) d1 = d2
  /\ take j d2 ++ c ++ drop j d2 = take j d ++ c ++ drop (j + l) d.
Proof.
  intros Hji Hil Hjl.
  destruct (split_four d j i (j + l)) as (x & w1 & w2 & z & -> & Hx & Hw1 & Hw2);
    [lia..|].
  intros d1 d2.
  assert (Hd1 : d1 = x ++ w1 ++ c ++ w2 ++ z).
  { subst d1. rewrite (app_assoc x w1), take_parts, drop_parts
      by (rewrite ?length_app; lia).
    by rewrite <- !app_assoc. }
  assert (Hd2 : d2 = x ++ z).
  { subst d2. rewrite take_parts by (rewrite ?length_app; lia).
    replace (x ++ w1 ++ w2 ++ z) with ((x ++ w1 ++ w2) ++ z) by (by rewrite <- !app_assoc).
    by rewrite drop_parts by (rewrite ?length_app; lia). }
  rewrite Hd1, Hd2. split.
  - rewrite take_parts by (rewrite ?length_app; lia).
    replace (x ++ w1 ++ c ++ w2 ++ z) with ((x ++ w1 ++ c ++ w2) ++ z)
      by (by rewrite <- !app_assoc).
    by rewrite drop_parts by (rewrite ?length_app; lia).
  - rewrite !take_parts, drop_parts by (rewrite ?length_app; lia).
    replace (x ++ w1 ++ w2 ++ z) with ((x ++ w1 ++ w2) ++ z) by (by rewrite <- !app_assoc).
    by rewrite drop_parts by (rewrite ?length_app; lia).
Qed.

(** [transformOperation] on an insert against a delete of another user,
    and on the delete against the insert. *)
Lemma transform_insert_delete (i j l : nat) (c u v : string) (now1 now2 : Z)
      (id1 id2 : string) (op1HasPriority : bool) :
  u <> v ->
  Operations.transformOperation
    (Operations.createInsertOperation (VNum (Js.of_nat i)) (VStr c) (VStr u) now1 id1)
    (Operations.createDeleteOperation (VNum (Js.of_nat j)) (VNum (Js.of_nat l)) (VStr v)
       now2 id2)
    op1HasPriority
  = Return
      (Operations.createInsertOperation
         (VNum (Js.of_nat (if bool_decide (j + l <= i)%nat then i - l
                           else if bool_decide (j < i)%nat then j else i)))
         (VStr c) (VStr u) now1 id1).
Proof.
  intros Huv. unfold Operations.transformOperation. read_fields.
  cbn [mbind completion_bind].
  change (Js.strict_eq (VStr u) (VStr v)) with (String.eqb u v).
  replace (String.eqb u v) with false by (symmetry; by apply String.eqb_neq).
  cbn [Js.strict_eq_str String.eqb Ascii.eqb Bool.eqb andb].
  unfold Operations.transformInsertDelete. read_fields. cbn [mbind completion_bind].
  unfold Js.less_eq, Js.less, Js.minus. cbn [Js.plus Js.to_number].
  rewrite add_nat, le_of_nat, lt_of_nat.
  destruct (bool_decide_reflect (j + l <= i)%nat) as [Hafter|Hnot].
  - rewrite sub_nat by lia. reflexivity.
  - destruct (bool_decide_reflect (j < i)%nat); reflexivity.
Qed.

Lemma transform_delete_insert (i j l : nat) (c u v : string) (now1 now2 : Z)
      (id1 id2 : string) (op1HasPriority : bool) :
  u <> v ->
  Operations.transformOperation
    (Operations.createDeleteOperation (VNum (Js.of_nat j)) (VNum (Js.of_nat l)) (VStr v)
       now2 id2)
    (Operations.createInsertOperation (VNum (Js.of_nat i)) (VStr c) (VStr u) now1 id1)
    op1HasPriority
  = Return
      (Operations.createDeleteOperation
         (VNum (Js.of_nat (if bool_decide (i <= j)%nat then j + String.length c else j)))
         (VNum (Js.of_nat (if bool_decide (i <= j)%nat then l
                           else if bool_decide (i < j + l)%nat then l + String.length c
                                else l)))
         (VStr v) now2 id2).
Proof.
  intros Huv. unfold Operations.transformOperation. read_fields.
  cbn [mbind completion_bind].
  change (Js.strict_eq (VStr v) (VStr u)) with (String.eqb v u).
  replace (String.eqb v u) with false by (symmetry; apply String.eqb_neq; congruence).
  cbn [Js.strict_eq_str String.eqb Ascii.eqb Bool.eqb andb].
  unfold Operations.transformDeleteInsert. read_fields. cbn [mbind completion_bind].
  unfold Operations.content_length. read_fields.
  cbn [mbind completion_bind Js.get_checked Js.get].
  change (String.eqb "length" "length") with true. cbn iota.
  unfold Js.less_eq, Js.less. cbn [Js.plus Js.to_number].
  rewrite !add_nat, le_of_nat, lt_of_nat.
  destruct (bool_decide_reflect (i <= j)%nat) as [Hbefore|Hnot]; [reflexivity|].
  destruct (bool_decide_reflect (i < j + l)%nat); reflexivity.
Qed.

End InsertDelete.

(** X28: An insert and a delete of different users converge under
    [transformOperation] when the position of the insert is not inside
    the deleted range: the replica that applied the insert and then the
    delete transformed against it holds the text of the replica that
    applied the delete and then the insert transformed against it. *)
Theorem insert_delete_converges (maxStringLength : Z) (document : string) (i j l : nat)
        (c u v : string) (now1 now2 : Z) (id1 id2 : string) (h1 h2 : bool) :
  u <> v -> (0 < l)%nat ->
  (i <= String.length document)%nat -> (j + l <= String.length document)%nat ->
  (i <= j \/ j + l <= i)%nat ->
  Z.of_nat (String.length document + String.length c) <= maxStringLength ->
  let insertOp := Operations.createInsertOperation (VNum (Js.of_nat i)) (VStr c) (VStr u)
                    now1 id1 in
  let deleteOp := Operations.createDeleteOperation (VNum (Js.of_nat j))
                    (VNum (Js.of_nat l)) (VStr v) now2 id2 in
  exists insertOp' deleteOp',
    Operations.transformOperation insertOp deleteOp h1 = Return insertOp'
    /\ Operations.transformOperation deleteOp insertOp h2 = Return deleteOp'
    /\ Operations.applyOperation maxStringLength
         (Operations.applyOperation maxStringLength document insertOp) deleteOp'
       = Operations.applyOperation maxStringLength
           (Operations.applyOperation maxStringLength document deleteOp) insertOp'.
Proof.
  intros Huv Hl Hi Hjl Houtside Hfit insertOp deleteOp.
  eexists _, _. split; [by apply transform_insert_delete|].
  split; [by apply transform_delete_insert|].
  subst insertOp deleteOp. apply units_inj.
  assert (Hlen1 : String.length
                    (Operations.applyOperation maxStringLength document
                       (Operations.createInsertOperation (VNum (Js.of_nat i)) (VStr c)
                          (VStr u) now1 id1))
                  = (String.length document + String.length c)%nat)
    by (apply (length_apply_created_insert maxStringLength document _ i);
        [apply of_nat_integer|done|done]).
  assert (Hunits2 := apply_created_delete maxStringLength document j l (VStr v) now2 id2
                       Hl Hjl ltac:(lia)).
  assert (Hlen2 : String.length
                    (Operations.applyOperation maxStringLength document
                       (Operations.createDeleteOperation (VNum (Js.of_nat j))
                          (VNum (Js.of_nat l)) (VStr v) now2 id2))
                  = (String.length document - l)%nat).
  { rewrite <- length_units, Hunits2, length_app, length_take, length_drop, length_units.
    lia. }
  destruct Houtside as [Hbefore|Hafter].
  - rewrite (bool_decide_eq_true_2 (i <= j)%nat) by done.
    rewrite (bool_decide_eq_false_2 (j + l <= i)%nat) by lia.
    rewrite (bool_decide_eq_false_2 (j < i)%nat) by lia.
    rewrite (apply_created_delete maxStringLength _ (j + String.length c) l)
      by (done || lia).
    rewrite (apply_created_insert maxStringLength document _ i)
      by (try apply of_nat_integer; done).
    rewrite (apply_created_insert maxStringLength _ _ i)
      by (try apply of_nat_integer; lia).
    rewrite Hunits2. rewrite <- (length_units c).
    apply (insert_then_delete_before (Spec.units document) (Spec.units c) i j l);
      [done|by rewrite length_units].
  - rewrite (bool_decide_eq_false_2 (i <= j)%nat) by lia.
    rewrite (bool_decide_eq_false_2 (i < j + l)%nat) by lia.
    rewrite (bool_decide_eq_true_2 (j + l <= i)%nat) by done.
    rewrite (apply_created_delete maxStringLength _ j l) by (done || lia).
    rewrite (apply_created_insert maxStringLength document _ i)
      by (try apply of_nat_integer; done).
    rewrite (apply_created_insert maxStringLength _ _ (i - l)%nat)
      by (try apply of_nat_integer; lia).
    rewrite Hunits2.
    apply (insert_then_delete_after (Spec.units document) (Spec.units c) i j l);
      [done|by rewrite length_units].
Qed.

Lemma insert_delete_converges_witness :
  exists insertOp' deleteOp',
    Operations.transformOperation
      (Operations.createInsertOperation (VNum (Js.of_nat 4)) (VStr "X") (VStr "s1") 1 "a")
      (Operations.createDeleteOperation (VNum (Js.of_nat 1)) (VNum (Js.of_nat 2))
         (VStr "s2") 2 "b")
      false = Return insertOp'
    /\ Operations.transformOperation
         (Operations.createDeleteOperation (VNum (Js.of_nat 1)) (VNum (Js.of_nat 2))
            (VStr "s2") 2 "b")
         (Operations.createInsertOperation (VNum (Js.of_nat 4)) (VStr "X") (VStr "s1")
            1 "a")
         false = Return deleteOp'
    /\ Operations.applyOperation 536870888
         (Operations.applyOperation 536870888 "hello"
            (Operations.createInsertOperation (VNum (Js.of_nat 4)) (VStr "X")
               (VStr "s1") 1 "a"))
         deleteOp'
       = Operations.applyOperation 536870888
           (Operations.applyOperation 536870888 "hello"
              (Operations.createDeleteOperation (VNum (Js.of_nat 1)) (VNum (Js.of_nat 2))
                 (VStr "s2") 2 "b"))
           insertOp'.
Proof.
  apply (insert_delete_converges 536870888 "hello" 4 1 2 "X" "s1" "s2" 1 2 "a" "b"
           false false);
    [discriminate|lia|simpl; lia|simpl; lia|right; lia|simpl; lia].
Defined.

(** X29: An insert whose position is inside the range of a concurrent
    delete of another user does not converge. [transformOperation]
    extends the delete by the length of the inserted text, so that the
    replica that applied the insert first loses the text; it moves the
    insert to the start of the range, so that the replica that applied
    the delete first keeps the text. The two replicas hold the same
    text only when the inserted text is empty. *)
Theorem insert_inside_delete_diverges (maxStringLength : Z) (document : string)
        (i j l : nat) (c u v : string) (now1 now2 : Z) (id1 id2 : string)
        (h1 h2 : bool) :
  u <> v ->
  (j < i)%nat -> (i < j + l)%nat -> (j + l <= String.length document)%nat ->
  Z.of_nat (String.length document + String.length c) <= maxStringLength ->
  let insertOp := Operations.createInsertOperation (VNum (Js.of_nat i)) (VStr c) (VStr u)
                    now1 id1 in
  let deleteOp := Operations.createDeleteOperation (VNum (Js.of_nat j))
                    (VNum (Js.of_nat l)) (VStr v) now2 id2 in
  exists insertOp' deleteOp',
    Operations.transformOperation insertOp deleteOp h1 = Return insertOp'
    /\ Operations.transformOperation deleteOp insertOp h2 = Return deleteOp'
    /\ Spec.units (Operations.applyOperation maxStringLength
                     (Operations.applyOperation maxStringLength document insertOp)
                     deleteOp')
       = take j (Spec.units document) ++ drop (j + l) (Spec.units document)
    /\ Spec.units (Operations.applyOperation maxStringLength
                     (Operations.applyOperation maxStringLength document deleteOp)
                     insertOp')
       = take j (Spec.units document) ++ Spec.units c
           ++ drop (j + l) (Spec.units document)
    /\ (Operations.applyOperation maxStringLength
          (Operations.applyOperation maxStringLength document insertOp) deleteOp'
        = Operations.applyOperation maxStringLength
            (Operations.applyOperation maxStringLength document deleteOp) insertOp'
        <-> c = "").
Proof.
  intros Huv Hji Hil Hjl Hfit insertOp deleteOp.
  eexists _, _. split; [by apply transform_insert_delete|].
  split; [by apply transform_delete_insert|].
  subst insertOp deleteOp.
  rewrite (bool_decide_eq_false_2 (i <= j)%nat) by lia.
  rewrite (bool_decide_eq_true_2 (i < j + l)%nat) by lia.
  rewrite (bool_decide_eq_false_2 (j + l <= i)%nat) by lia.
  rewrite (bool_decide_eq_true_2 (j < i)%nat) by lia.
  assert (Hlen1 : String.length
                    (Operations.applyOperation maxStringLength document
                       (Operations.createInsertOperation (VNum (Js.of_nat i)) (VStr c)
                          (VStr u) now1 id1))
                  = (String.length document + String.length c)%nat)
    by (apply (length_apply_created_insert maxStringLength document _ i);
        [apply of_nat_integer|lia|done]).
  assert (Hunits2 := apply_created_delete maxStringLength document j l (VStr v) now2 id2
                       ltac:(lia) Hjl ltac:(lia)).
  assert (Hlen2 : String.length
                    (Operations.applyOperation maxStringLength document
                       (Operations.createDeleteOperation (VNum (Js.of_nat j))
                          (VNum (Js.of_nat l)) (VStr v) now2 id2))
                  = (String.length document - l)%nat).
  { rewrite <- length_units, Hunits2, length_app, length_take, length_drop, length_units.
    lia. }
  destruct (insert_then_delete_inside (Spec.units document) (Spec.units c) i j l)
    as [Hsite1 Hsite2]; [done|done|by rewrite length_units|].
  assert (H1 : Spec.units
                 (Operations.applyOperation maxStringLength
                    (Operations.applyOperation maxStringLength document
                       (Operations.createInsertOperation (VNum (Js.of_nat i)) (VStr c)
                          (VStr u) now1 id1))
                    (Operations.createDeleteOperation (VNum (Js.of_nat j))
                       (VNum (Js.of_nat (l + String.length c))) (VStr v) now2 id2))
               = take j (Spec.units document) ++ drop (j + l) (Spec.units document)).
  { rewrite (apply_created_delete maxStringLength _ j (l + String.length c))
      by (done || lia).
    rewrite (apply_created_insert maxStringLength document _ i)
      by (try apply of_nat_integer; (done || lia)).
    rewrite <- (length_units c). exact Hsite1. }
  assert (H2 : Spec.units
                 (Operations.applyOperation maxStringLength
                    (Operations.applyOperation maxStringLength document
                       (Operations.createDeleteOperation (VNum (Js.of_nat j))
                          (VNum (Js.of_nat l)) (VStr v) now2 id2))
                    (Operations.createInsertOperation (VNum (Js.of_nat j)) (VStr c)
                       (VStr u) now1 id1))
               = take j (Spec.units document) ++ Spec.units c
                   ++ drop (j + l) (Spec.units document)).
  { rewrite (apply_created_insert maxStringLength _ _ j)
      by (try apply of_nat_integer; lia).
    rewrite Hunits2. exact Hsite2. }
  split; [exact H1|]. split; [exact H2|]. split.
  - intros Hsame. apply (f_equal Spec.units) in Hsame. rewrite H1, H2 in Hsame.
    apply app_inv_head in Hsame.
    apply (f_equal length) in Hsame. rewrite length_app, length_units in Hsame.
    destruct c; [done|simpl in Hsame; lia].
  - intros ->. apply units_inj. by rewrite H1, H2.
Qed.

Lemma insert_inside_delete_diverges_witness :
  exists insertOp' deleteOp',
    Operations.transformOperation
      (Operations.createInsertOperation (VNum (Js.of_nat 2)) (VStr "X") (VStr "s1") 1 "a")
      (Operations.createDeleteOperation (VNum (Js.of_nat 1)) (VNum (Js.of_nat 3))
         (VStr "s2") 2 "b")
      false = Return insertOp'
    /\ Operations.transformOperation
         (Operations.createDeleteOperation (VNum (Js.of_nat 1)) (VNum (Js.of_nat 3))
            (VStr "s2") 2 "b")
         (Operations.createInsertOperation (VNum (Js.of_nat 2)) (VStr "X") (VStr "s1")
            1 "a")
         false = Return deleteOp'
    /\ Spec.units
         (Operations.applyOperation 536870888
            (Operations.applyOperation 536870888 "hello"
               (Operations.createInsertOperation (VNum (Js.of_nat 2)) (VStr "X")
                  (VStr "s1") 1 "a"))
            deleteOp')
       = Spec.units "ho"
    /\ Spec.units
         (Operations.applyOperation 536870888
            (Operations.applyOperation 536870888 "hello"
               (Operations.createDeleteOperation (VNum (Js.of_nat 1)) (VNum (Js.of_nat 3))
                  (VStr "s2") 2 "b"))
            insertOp')
       = Spec.units "hXo".
Proof.
  destruct (insert_inside_delete_diverges 536870888 "hello" 2 1 3 "X" "s1" "s2" 1 2
              "a" "b" false false)
    as (insertOp' & deleteOp' & H1 & H2 & Hsite1 & Hsite2 & _);
    [discriminate|lia|lia|simpl; lia|simpl; lia|].
  exists insertOp', deleteOp'. split; [exact H1|]. split; [exact H2|].
  split; [exact Hsite1|exact Hsite2].
Defined.

(** ** Transformation of two concurrent deletes *)

Section DeleteDelete.

Variable maxStringLength : Z.

Lemma min_nat (a b : nat) :
  Js.min (VNum (Js.of_nat a)) (VNum (Js.of_nat b)) = VNum (Js.of_nat (a `min` b)).
Proof.
  unfold Js.min. cbn [Js.to_number].
  change (Js.of_nat a) with (NFin (inject_Z (Z.of_nat a))).
  change (Js.of_nat b) with (NFin (inject_Z (Z.of_nat b))).
  cbn iota.
  change (NFin (inject_Z (Z.of_nat a))) with (Js.of_nat a).
  change (NFin (inject_Z (Z.of_nat b))) with (Js.of_nat b).
  rewrite lt_of_nat. destruct (bool_decide_reflect (b < a)%nat); do 2 f_equal; lia.
Qed.

(** [transformOperation] on a delete against a delete of another user. *)
Lemma transform_delete_delete (p1 l1 p2 l2 : nat) (u v : string) (now1 now2 : Z)
      (id1 id2 : string) (op1HasPriority : bool) :
  u <> v ->
  Operations.transformOperation
    (Operations.createDeleteOperation (VNum (Js.of_nat p1)) (VNum (Js.of_nat l1)) (VStr u)
       now1 id1)
    (Operations.createDeleteOperation (VNum (Js.of_nat p2)) (VNum (Js.of_nat l2)) (VStr v)
       now2 id2)
    op1HasPriority
  = Return
      (Operations.createDeleteOperation
         (VNum (Js.of_nat (Typed.transformDeleteDelete p1 l1 p2 l2 op1HasPriority).1))
         (VNum (Js.of_nat (Typed.transformDeleteDelete p1 l1 p2 l2 op1HasPriority).2))
         (VStr u) now1 id1).
Proof.
  intros Huv. unfold Operations.transformOperation. read_fields.
  cbn [mbind completion_bind].
  change (Js.strict_eq (VStr u) (VStr v)) with (String.eqb u v).
  replace (String.eqb u v) with false by (symmetry; by apply String.eqb_neq).
  cbn [Js.strict_eq_str String.eqb Ascii.eqb Bool.eqb andb].
  unfold Operations.transformDeleteDelete. read_fields. cbn [mbind completion_bind].
  unfold Js.less_eq, Js.greater_eq, Js.less_eq, Js.less, Js.minus.
  cbn [Js.plus Js.to_number]. rewrite !add_nat, !le_of_nat, lt_of_nat.
  unfold Typed.transformDeleteDelete.
  destruct (bool_decide_reflect (p2 + l2 <= p1)%nat) as [H1|H1].
  { cbn [fst snd]. rewrite sub_nat by lia. reflexivity. }
  destruct (bool_decide_reflect (p1 + l1 <= p2)%nat) as [H2|H2]; [reflexivity|].
  destruct (bool_decide_reflect (p2 <= p1)%nat) as [H3|H3],
           (bool_decide_reflect (p1 + l1 <= p2 + l2)%nat) as [H4|H4];
    cbn [andb]; try reflexivity.
  all: destruct (bool_decide_reflect (p1 <= p2)%nat) as [H5|H5],
                (bool_decide_reflect (p2 + l2 <= p1 + l1)%nat) as [H6|H6];
    cbn [andb fst snd]; try (rewrite sub_nat by lia; reflexivity).
  all: destruct op1HasPriority; try reflexivity.
  all: rewrite min_nat; cbn [Js.to_number].
  all: destruct (bool_decide_reflect (p2 < p1)%nat) as [H7|H7]; cbn [fst snd].
  all: rewrite sub_nat by lia; rewrite sub_nat by lia; reflexivity.
Qed.

(** A delete of [l] units at [p] on a list. *)
Lemma lookup_removed {A} (d : list A) (p l k : nat) :
  (l = 0 \/ p <= length d)%nat ->
  (take p d ++ drop (p + l) d) !! k = d !! (if decide (k < p)%nat then k else (k + l)%nat).
Proof.
  intros [->|Hp].
  - rewrite Nat.add_0_r, take_drop. destruct (decide (k < p)%nat); [done|by rewrite Nat.add_0_r].
  - destruct (decide (k < p)%nat) as [Hk|Hk].
    + rewrite lookup_app_l by (rewrite length_take; lia). by apply lookup_take_lt.
    + rewrite lookup_app_r by (rewrite length_take; lia).
      rewrite length_take, lookup_drop. f_equal. lia.
Qed.

(** The delete of the client on whole fields, the empty delete
    included: it throws, and the document is kept. *)
Lemma apply_created_delete_any (document : string) (p l : nat) (userId : jsval) (now : Z)
      (id : string) :
  (l = 0 \/ p + l <= String.length document)%nat ->
  Z.of_nat (String.length document) <= maxStringLength ->
  Spec.units
    (Operations.applyOperation maxStringLength document
       (Operations.createDeleteOperation (VNum (Js.of_nat p)) (VNum (Js.of_nat l))
          userId now id))
  = take p (Spec.units document) ++ drop (p + l) (Spec.units document).
Proof.
  intros Hpl Hfit. destruct l as [|l]; [|by apply apply_created_delete; [lia|lia|]].
  rewrite Nat.add_0_r, take_drop. f_equal.
  unfold Operations.applyOperation, Operations.applyOperation_try. read_fields.
  cbn [mbind completion_bind Js.strict_eq_str String.eqb Ascii.eqb Bool.eqb].
  unfold Operations.applyDelete. read_fields. cbn [mbind completion_bind].
  unfold Js.less, Js.greater_eq, Js.less_eq, Js.greater, Js.less.
  cbn [Js.to_number]. change (Js.of_Z 0) with (Js.of_nat 0).
  rewrite !lt_of_nat, !le_of_nat. rewrite (bool_decide_eq_true_2 (0 <= 0)%nat) by lia.
  by destruct (bool_decide (p < 0)%nat || bool_decide (String.length document <= p)%nat).
Qed.

Lemma length_apply_created_delete (document : string) (p l : nat) (userId : jsval)
      (now : Z) (id : string) :
  (p + l <= String.length document)%nat ->
  Z.of_nat (String.length document) <= maxStringLength ->
  String.length
    (Operations.applyOperation maxStringLength document
       (Operations.createDeleteOperation (VNum (Js.of_nat p)) (VNum (Js.of_nat l))
          userId now id))
  = (String.length document - l)%nat.
Proof.
  intros Hpl Hfit. rewrite <- length_units, apply_created_delete_any by (done || lia).
  rewrite length_app, length_take, length_drop, length_units. lia.
Qed.

End DeleteDelete.

(** X30: Two deletes of different users, within the document, converge
    under [transformOperation] when neither is given priority, whether
    their ranges are apart, overlap or contain one another: the replica
    that applied the first and then the second transformed against it
    holds the text of the replica that applied them the other way
    round. *)
Theorem delete_delete_converges (maxStringLength : Z) (document : string)
        (p1 l1 p2 l2 : nat) (u v : string) (now1 now2 : Z) (id1 id2 : string) :
  u <> v -> (0 < l1)%nat -> (0 < l2)%nat ->
  (p1 + l1 <= String.length document)%nat -> (p2 + l2 <= String.length document)%nat ->
  Z.of_nat (String.length document) <= maxStringLength ->
  let op1 := Operations.createDeleteOperation (VNum (Js.of_nat p1)) (VNum (Js.of_nat l1))
               (VStr u) now1 id1 in
  let op2 := Operations.createDeleteOperation (VNum (Js.of_nat p2)) (VNum (Js.of_nat l2))
               (VStr v) now2 id2 in
  exists op1' op2',
    Operations.transformOperation op1 op2 false = Return op1'
    /\ Operations.transformOperation op2 op1 false = Return op2'
    /\ Operations.applyOperation maxStringLength
         (Operations.applyOperation maxStringLength document op1) op2'
       = Operations.applyOperation maxStringLength
           (Operations.applyOperation maxStringLength document op2) op1'.
Proof.
  intros Huv Hl1 Hl2 Hr1 Hr2 Hfit op1 op2.
  eexists _, _. split; [by apply transform_delete_delete|].
  split; [apply transform_delete_delete; congruence|].
  subst op1 op2. apply units_inj.
  pose proof (length_apply_created_delete maxStringLength document p1 l1 (VStr u) now1 id1
                Hr1 Hfit) as Hlen1.
  pose proof (length_apply_created_delete maxStringLength document p2 l2 (VStr v) now2 id2
                Hr2 Hfit) as Hlen2.
  pose proof (length_units document) as Hlen.
  unfold Typed.transformDeleteDelete.
  repeat case_bool_decide; cbn [andb fst snd];
    (rewrite !apply_created_delete_any by lia);
    apply list_eq; intros k;
    (rewrite !lookup_removed
       by (rewrite ?length_app, ?length_take, ?length_drop, ?length_units; lia));
    repeat case_decide; f_equal; lia.
Qed.

Lemma delete_delete_converges_witness :
  exists op1' op2',
    Operations.transformOperation
      (Operations.createDeleteOperation (VNum (Js.of_nat 0)) (VNum (Js.of_nat 3))
         (VStr "s1") 1 "a")
      (Operations.createDeleteOperation (VNum (Js.of_nat 2)) (VNum (Js.of_nat 2))
         (VStr "s2") 2 "b")
      false = Return op1'
    /\ Operations.transformOperation
         (Operations.createDeleteOperation (VNum (Js.of_nat 2)) (VNum (Js.of_nat 2))
            (VStr "s2") 2 "b")
         (Operations.createDeleteOperation (VNum (Js.of_nat 0)) (VNum (Js.of_nat 3))
            (VStr "s1") 1 "a")
         false = Return op2'
    /\ Operations.applyOperation 536870888
         (Operations.applyOperation 536870888 "hello"
            (Operations.createDeleteOperation (VNum (Js.of_nat 0)) (VNum (Js.of_nat 3))
               (VStr "s1") 1 "a"))
         op2'
       = Operations.applyOperation 536870888
           (Operations.applyOperation 536870888 "hello"
              (Operations.createDeleteOperation (VNum (Js.of_nat 2)) (VNum (Js.of_nat 2))
                 (VStr "s2") 2 "b"))
           op1'.
Proof.
  apply (delete_delete_converges 536870888 "hello" 0 3 2 2 "s1" "s2" 1 2 "a" "b");
    [discriminate|lia|lia|simpl; lia|simpl; lia|simpl; lia].
Defined.
